(** * capable-core: sandbox executor, repository gateway and CI monitor

    A shallow embedding of the deterministic control flow of
    [capable_core/tools/sandbox_tools.py], [capable_core/tools/github_tools.py]
    and [capable_core/tools/ci_tools.py], with the properties the
    specification states about them.

    Conventions of the embedding.
    - Python [str] is [string]; the text handled is taken to be ASCII
      (the character classes [\d] and [\s] and IGNORECASE are the ASCII ones).
    - Python [int] is [Z]; Python [float] is idealised as the exact
      rationals [Q] (no rounding), clock readings are whole seconds in [Z].
    - An f-string that a tool returns is modelled by a constructor naming the
      template, carrying the values interpolated into it.
    - The Docker daemon, the hosting platform and the clock are external:
      they appear as explicit, arbitrary environments (oracles or states). *)

From Stdlib Require Import ZArith QArith Bool List Ascii String Lia Sorted.
From stdpp Require Import base option gmap strings list pretty.

Import ListNotations.
Local Open Scope string_scope.
Local Open Scope Z_scope.

(** ** Strings as Python uses them *)

Module Str.

Definition is_digit (c : ascii) : bool :=
  let n := nat_of_ascii c in ((48 <=? n) && (n <=? 57))%nat.

(** [\s] for a [str] pattern, restricted to ASCII: TAB..CR, FS..US, space. *)
Definition is_space (c : ascii) : bool :=
  let n := nat_of_ascii c in
  (((9 <=? n) && (n <=? 13)) || ((28 <=? n) && (n <=? 32)))%nat.

Definition lower (c : ascii) : ascii :=
  let n := nat_of_ascii c in
  if ((65 <=? n) && (n <=? 90))%nat then ascii_of_nat (n + 32) else c.

Definition newline : ascii := ascii_of_nat 10.
Definition nl : string := String newline EmptyString.

(** [s[:n]] *)
Fixpoint take (n : nat) (s : string) : string :=
  match n, s with
  | S n', String c s' => String c (take n' s')
  | _, _ => EmptyString
  end.

(** [s.startswith(p)], returning what follows the prefix. *)
Fixpoint strip_prefix (p s : string) : option string :=
  match p, s with
  | EmptyString, _ => Some s
  | String a p', String b s' => if Ascii.eqb a b then strip_prefix p' s' else None
  | String _ _, EmptyString => None
  end.

(** [sub in s] *)
Fixpoint contains (sub s : string) : bool :=
  match strip_prefix sub s with
  | Some _ => true
  | None => match s with
            | EmptyString => false
            | String _ s' => contains sub s'
            end
  end.

(** [s.replace(old, new)] for a non-empty [old]: leftmost occurrences,
    not overlapping. The fuel is the length of [s]. *)
Fixpoint replace_fuel (fuel : nat) (old new s : string) : string :=
  match fuel with
  | O => s
  | S fuel' =>
      match strip_prefix old s with
      | Some rest => new ++ replace_fuel fuel' old new rest
      | None => match s with
                | EmptyString => EmptyString
                | String c s' => String c (replace_fuel fuel' old new s')
                end
      end
  end.

Definition replace (old new s : string) : string :=
  match old with
  | EmptyString => s
  | _ => replace_fuel (S (String.length s)) old new s
  end.

(** [s.strip()] *)
Fixpoint lstrip (s : string) : string :=
  match s with
  | String c s' => if is_space c then lstrip s' else s
  | EmptyString => EmptyString
  end.

Fixpoint rev_acc (s acc : string) : string :=
  match s with
  | EmptyString => acc
  | String c s' => rev_acc s' (String c acc)
  end.

Definition rstrip (s : string) : string :=
  rev_acc (lstrip (rev_acc s EmptyString)) EmptyString.

Definition strip (s : string) : string := rstrip (lstrip s).

(** [sep.join(l)] *)
Fixpoint join (sep : string) (l : list string) : string :=
  match l with
  | [] => EmptyString
  | [x] => x
  | x :: tl => x ++ sep ++ join sep tl
  end.

Definition digit_value (c : ascii) : Z := Z.of_nat (nat_of_ascii c) - 48.

Fixpoint all_digits (s : string) : bool :=
  match s with
  | EmptyString => true
  | String c s' => is_digit c && all_digits s'
  end.

Fixpoint digits_value (acc : Z) (s : string) : Z :=
  match s with
  | EmptyString => acc
  | String c s' => digits_value (10 * acc + digit_value c) s'
  end.

(** [int(s)] on a string of decimal digits; [None] stands for ValueError.
    Signs, blanks and underscores, which [int] also accepts, never reach it:
    every argument in the code is a [\d+] group. *)
Definition int (s : string) : option Z :=
  match s with
  | EmptyString => None
  | _ => if all_digits s then Some (digits_value 0 s) else None
  end.

(** Splits at the first ['.']. *)
Fixpoint split_dot (s : string) : string * option string :=
  match s with
  | EmptyString => (EmptyString, None)
  | String c s' =>
      if Ascii.eqb c "."%char then (EmptyString, Some s')
      else let '(a, b) := split_dot s' in (String c a, b)
  end.

(** [float(s)] on the strings the patterns can capture (digits and dots):
    at most one dot and at least one digit, else ValueError ([None]). *)
Definition float (s : string) : option Q :=
  match split_dot s with
  | (ip, None) =>
      match ip with
      | EmptyString => None
      | _ => if all_digits ip then Some (inject_Z (digits_value 0 ip)) else None
      end
  | (ip, Some fp) =>
      if all_digits ip && all_digits fp
         && negb (((String.length ip) + (String.length fp))%nat =? 0)%nat
      then Some (Qmake (digits_value 0 (ip ++ fp))
                       (Z.to_pos (10 ^ Z.of_nat (String.length fp))))
      else None
  end.

End Str.

(** ** Regular expressions, as far as the tool-output patterns use them

    A backtracking matcher with Python's priorities: alternatives are tried
    in order, [*] and [+] are greedy, [*?] is lazy, [search] returns the
    leftmost match. *)

Module Re.

Inductive cclass : Type :=
| Lit (c : ascii)            (* a literal character *)
| Dot                        (* [.]: anything but a newline *)
| Digit                      (* [\d] *)
| Space                      (* [\s] *)
| Either (a b : cclass).     (* a two-way set such as [[\d.]] *)

Inductive regex : Type :=
| Eps
| Chr (c : cclass)
| Seq (r1 r2 : regex)
| Star (greedy : bool) (r : regex)   (* [r*] and [r*?] *)
| Opt (r : regex)                    (* [r?] *)
| Group (n : nat) (r : regex).       (* the n-th capturing group *)

Definition Plus (r : regex) : regex := Seq r (Star true r).

Fixpoint lit (s : string) : regex :=
  match s with
  | EmptyString => Eps
  | String c s' => Seq (Chr (Lit c)) (lit s')
  end.

Fixpoint seq (l : list regex) : regex :=
  match l with
  | [] => Eps
  | [r] => r
  | r :: tl => Seq r (seq tl)
  end.

Fixpoint cmatch (icase : bool) (cl : cclass) (a : ascii) : bool :=
  match cl with
  | Lit c => if icase then Ascii.eqb (Str.lower c) (Str.lower a) else Ascii.eqb c a
  | Dot => negb (Ascii.eqb a Str.newline)
  | Digit => Str.is_digit a
  | Space => Str.is_space a
  | Either c1 c2 => cmatch icase c1 a || cmatch icase c2 a
  end.

(** Captured groups, the most recent binding first. *)
Definition caps : Type := list (nat * string).

(** What [s] lost to become its suffix [s']. *)
Definition consumed (s s' : string) : string :=
  Str.take (String.length s - String.length s') s.

(** [run icase r s c k]: match [r] at the head of [s], then continue with
    [k] on what is left; [None] makes the matcher backtrack. An iteration of
    a star has to consume a character. *)
Fixpoint run {R : Type} (icase : bool) (r : regex) (s : string) (c : caps)
    (k : string -> caps -> option R) {struct r} : option R :=
  match r with
  | Eps => k s c
  | Chr cl =>
      match s with
      | String a s' => if cmatch icase cl a then k s' c else None
      | EmptyString => None
      end
  | Seq r1 r2 => run icase r1 s c (fun s' c' => run icase r2 s' c' k)
  | Opt r1 =>
      match run icase r1 s c k with
      | Some x => Some x
      | None => k s c
      end
  | Group n r1 => run icase r1 s c (fun s' c' => k s' ((n, consumed s s') :: c'))
  | Star greedy r1 =>
      (fix loop (fuel : nat) (s : string) (c : caps) {struct fuel} : option R :=
         match fuel with
         | O => k s c
         | S fuel' =>
             let more :=
               run icase r1 s c
                 (fun s' c' =>
                    if (String.length s' <? String.length s)%nat
                    then loop fuel' s' c' else None) in
             if greedy
             then match more with Some x => Some x | None => k s c end
             else match k s c with Some x => Some x | None => more end
         end) (String.length s) s c
  end.

(** A match object: [group(0)], the groups, and the text after the match. *)
Record Match : Type := mkMatch { whole : string; groups : caps; rest : string }.

Definition match_at (icase : bool) (r : regex) (s : string) : option Match :=
  run icase r s [] (fun s' c => Some (mkMatch (consumed s s') c s')).

(** [re.search(r, s)] (with [re.IGNORECASE] when [icase]). *)
Fixpoint search (icase : bool) (r : regex) (s : string) : option Match :=
  match match_at icase r s with
  | Some m => Some m
  | None => match s with
            | EmptyString => None
            | String _ s' => search icase r s'
            end
  end.

(** [m.group(n)]; [None] when the group did not take part in the match. *)
Fixpoint group (n : nat) (c : caps) : option string :=
  match c with
  | [] => None
  | (i, v) :: tl => if (i =? n)%nat then Some v else group n tl
  end.

(** [len(re.findall(r, s))]: matches from left to right, not overlapping;
    after an empty match the scan moves one character on. *)
Fixpoint count_fuel (fuel : nat) (icase : bool) (r : regex) (s : string) : nat :=
  match fuel with
  | O => O
  | S fuel' =>
      match match_at icase r s with
      | Some m =>
          match whole m, s with
          | EmptyString, EmptyString => 1%nat
          | EmptyString, String _ s' => S (count_fuel fuel' icase r s')
          | _, _ => S (count_fuel fuel' icase r (rest m))
          end
      | None =>
          match s with
          | EmptyString => O
          | String _ s' => count_fuel fuel' icase r s'
          end
      end
  end.

Definition findall_count (icase : bool) (r : regex) (s : string) : nat :=
  count_fuel (S (String.length s)) icase r s.

End Re.

(** ** Exceptions and fallible results *)

Inductive exn : Type :=
| ValueError (msg : string)
| TypeError (msg : string)
| ContainerError (msg : string)      (* docker.errors.ContainerError *)
| GithubException (msg : string)     (* github.GithubException, with data["message"] *)
| OtherException (msg : string).     (* any other subclass of Exception *)

(** [str(e)] *)
Definition exn_str (e : exn) : string :=
  match e with
  | ValueError m | TypeError m | ContainerError m
  | GithubException m | OtherException m => m
  end.

Inductive res (A : Type) : Type :=
| Ret (a : A)
| Raise (e : exn).
Arguments Ret {A} a.
Arguments Raise {A} e.

Definition bind {A B : Type} (m : res A) (k : A -> res B) : res B :=
  match m with
  | Ret a => k a
  | Raise e => Raise e
  end.

Notation "'let!' x ':=' m 'in' k" := (bind m (fun x => k))
  (at level 10, x name, m at level 100, k at level 200).
Notation "'let!' ' p ':=' m 'in' k" := (bind m (fun x => let 'p := x in k))
  (at level 10, p strict pattern, m at level 100, k at level 200).

Definition raises {A : Type} (m : res A) : Prop :=
  match m with Raise _ => True | Ret _ => False end.

(** ** The sandbox executor ([sandbox_tools.py]) *)

Module Sandbox.

Import Re.

Inductive ExecutionStatus : Type := SUCCESS | FAILURE | TIMEOUT | ERROR.

Definition ExecutionStatus_eqb (a b : ExecutionStatus) : bool :=
  match a, b with
  | SUCCESS, SUCCESS | FAILURE, FAILURE | TIMEOUT, TIMEOUT | ERROR, ERROR => true
  | _, _ => false
  end.

Record TestResult : Type := mkTestResult {
  status : ExecutionStatus;
  exit_code : Z;
  stdout : string;
  stderr : string;
  duration_seconds : Z;
  tests_passed : Z;
  tests_failed : Z;
  tests_skipped : Z;
  coverage_percent : option Q
}.

(** *** The patterns of [_parse_test_output] *)

Definition digits : regex := Plus (Chr Digit).
Definition spaces : regex := Star true (Chr Space).      (* [\s*] *)
Definition spaces1 : regex := Plus (Chr Space).           (* [\s+] *)
Definition g (n : nat) (r : regex) : regex := Group n r.
(** [\d+(?:\.\d+)?] *)
Definition decimal : regex := Seq digits (Opt (Seq (lit ".") digits)).
(** [[\d.]+] *)
Definition digits_dots : regex := Plus (Chr (Either Digit (Lit "."%char))).

Definition p_passed := Seq (g 1 digits) (lit " passed").
Definition p_failed := Seq (g 1 digits) (lit " failed").
Definition p_skipped := Seq (g 1 digits) (lit " skipped").
Definition p_jest_passed := seq [lit "Tests:"; spaces; g 1 digits; lit " passed"].
Definition p_jest_failed :=
  seq [lit "Tests:"; Star false (Chr Dot); g 1 digits; lit " failed"].
Definition p_passing := Seq (g 1 digits) (lit " passing").
Definition p_failing := Seq (g 1 digits) (lit " failing").
Definition p_pending := Seq (g 1 digits) (lit " pending").
Definition p_maven :=
  seq [lit "Tests run:"; spaces; g 1 digits; lit ","; spaces;
       lit "Failures:"; spaces; g 2 digits; lit ","; spaces;
       lit "Errors:"; spaces; g 3 digits; lit ","; spaces;
       lit "Skipped:"; spaces; g 4 digits].
Definition p_go_pass := lit "--- PASS:".
Definition p_go_fail := lit "--- FAIL:".
Definition p_go_skip := lit "--- SKIP:".
Definition p_cargo :=
  seq [lit "test result:"; Star false (Chr Dot); g 1 digits; lit " passed;"; spaces;
       g 2 digits; lit " failed;"; spaces; g 3 digits; lit " ignored"].
Definition p_dotnet_passed := seq [lit "Passed:"; spaces; g 1 digits].
Definition p_dotnet_failed := seq [lit "Failed:"; spaces; g 1 digits].
Definition p_dotnet_skipped := seq [lit "Skipped:"; spaces; g 1 digits].

Definition p_cov_total :=
  seq [lit "TOTAL"; spaces1; digits; spaces1; digits; spaces1; g 1 digits; lit "%"].
Definition p_cov_all_files :=
  seq [lit "All files"; spaces; lit "|"; spaces; g 1 digits_dots].
Definition p_cov_statements :=
  seq [lit "Statements"; spaces; lit ":"; spaces; g 1 digits_dots; lit "%"].
Definition p_cov_lines :=
  seq [lit "Lines"; spaces; lit ":"; spaces; g 1 digits_dots; lit "%"].
Definition p_cov_go := seq [lit "coverage:"; spaces; g 1 decimal; lit "%"].
Definition p_cov_tarpaulin := seq [g 1 decimal; lit "%"; spaces; lit "coverage"].

(** The count patterns tried with [re.search], those counted with
    [re.findall], and the coverage patterns. *)
Definition count_patterns : list regex :=
  [p_passed; p_failed; p_skipped; p_jest_passed; p_jest_failed; p_passing;
   p_failing; p_pending; p_maven; p_cargo; p_dotnet_passed; p_dotnet_failed;
   p_dotnet_skipped].
Definition marker_patterns : list regex := [p_go_pass; p_go_fail; p_go_skip].
Definition coverage_patterns : list regex :=
  [p_cov_total; p_cov_all_files; p_cov_statements; p_cov_lines; p_cov_go;
   p_cov_tarpaulin].

(** [int(match.group(n))] *)
Definition int_group (m : Match) (n : nat) : res Z :=
  match group n (groups m) with
  | Some t => match Str.int t with
              | Some v => Ret v
              | None => Raise (ValueError "invalid literal for int()")
              end
  | None => Raise (TypeError "int() argument must be a string, not NoneType")
  end.

(** [float(match.group(n))] *)
Definition float_group (m : Match) (n : nat) : res Q :=
  match group n (groups m) with
  | Some t => match Str.float t with
              | Some v => Ret v
              | None => Raise (ValueError "could not convert string to float")
              end
  | None => Raise (TypeError "float() argument must be a string, not NoneType")
  end.

(** [match = re.search(p, combined); if match: acc += int(match.group(1))] *)
Definition add_count (p : regex) (combined : string) (acc : Z) : res Z :=
  match search false p combined with
  | Some m => let! v := int_group m 1 in Ret (acc + v)
  | None => Ret acc
  end.

(** [if coverage is None: match = re.search(p, combined);
     if match: coverage = float(match.group(1))] *)
Definition try_coverage (p : regex) (combined : string) (coverage : option Q)
  : res (option Q) :=
  match coverage with
  | Some _ => Ret coverage
  | None => match search false p combined with
            | Some m => let! v := float_group m 1 in Ret (Some v)
            | None => Ret None
            end
  end.

Definition findall_len (p : regex) (combined : string) : Z :=
  Z.of_nat (findall_count false p combined).

Definition _parse_test_output (stdout stderr : string) : res TestResult :=
  let passed := 0 in
  let failed := 0 in
  let skipped := 0 in
  let combined := stdout ++ Str.nl ++ stderr in
  (* pytest *)
  let! passed := add_count p_passed combined passed in
  let! failed := add_count p_failed combined failed in
  let! skipped := add_count p_skipped combined skipped in
  (* Jest *)
  let! passed := add_count p_jest_passed combined passed in
  let! failed := add_count p_jest_failed combined failed in
  (* Mocha *)
  let! passed := add_count p_passing combined passed in
  let! failed := add_count p_failing combined failed in
  let! skipped := add_count p_pending combined skipped in
  (* Maven *)
  let! '(passed, failed, skipped) :=
    match search false p_maven combined with
    | Some m =>
        let! total_run := int_group m 1 in
        let! failures := int_group m 2 in
        let! errors := int_group m 3 in
        let! skip := int_group m 4 in
        Ret (passed + (total_run - failures - errors - skip),
             failed + (failures + errors),
             skipped + skip)
    | None => Ret (passed, failed, skipped)
    end in
  (* go test *)
  let passed := passed + findall_len p_go_pass combined in
  let failed := failed + findall_len p_go_fail combined in
  let skipped := skipped + findall_len p_go_skip combined in
  (* cargo test *)
  let! '(passed, failed, skipped) :=
    match search false p_cargo combined with
    | Some m =>
        let! a := int_group m 1 in
        let! b := int_group m 2 in
        let! c := int_group m 3 in
        Ret (passed + a, failed + b, skipped + c)
    | None => Ret (passed, failed, skipped)
    end in
  (* dotnet test *)
  let! passed := add_count p_dotnet_passed combined passed in
  let! failed := add_count p_dotnet_failed combined failed in
  let! skipped := add_count p_dotnet_skipped combined skipped in
  (* coverage *)
  let! coverage :=
    match search false p_cov_total combined with
    | Some m => let! v := float_group m 1 in Ret (Some v)
    | None => Ret None
    end in
  let! coverage := try_coverage p_cov_all_files combined coverage in
  let! coverage := try_coverage p_cov_statements combined coverage in
  let! coverage := try_coverage p_cov_lines combined coverage in
  let! coverage := try_coverage p_cov_go combined coverage in
  let! coverage := try_coverage p_cov_tarpaulin combined coverage in
  Ret {| status := SUCCESS; exit_code := 0; stdout := stdout; stderr := stderr;
         duration_seconds := 0; tests_passed := passed; tests_failed := failed;
         tests_skipped := skipped; coverage_percent := coverage |}.

(** *** The Docker daemon, as [DockerSandbox] sees it

    One container is started per [execute]; what the daemon does with it is
    arbitrary, so it is an oracle over the calls made so far. *)

(** One half of the demultiplexed output of [exec_run]. *)
Inductive stream : Type :=
| NoData                 (* [None] *)
| Text (s : string)      (* bytes that decode as UTF-8 *)
| Undecodable.           (* bytes that do not *)

Record Call : Type := mkCall {
  call_image : string;
  call_command : string;                 (* the argument of [exec_run] *)
  call_files : list (string * string);   (* put into /app as one archive *)
  call_env : list (string * string)
}.

Inductive Reply : Type :=
| Raises (e : exn) (elapsed : Z)
    (* [containers.run], [put_archive] or [exec_run] raised *)
| Exits (code : Z) (out err : stream) (elapsed : Z)
    (* [exec_run] returned [(code, (out, err))] after [elapsed] seconds *)
| Blocks.
    (* the command does not finish: [exec_run] does not return *)

Record Docker : Type := mkDocker {
  daemon_up : bool;                        (* [docker.from_env().ping()] works *)
  reply : list Call -> Call -> Reply;
  calls : list Call                        (* executions so far, oldest first *)
}.

Definition record_call (c : Call) (d : Docker) : Docker :=
  {| daemon_up := daemon_up d; reply := reply d; calls := calls d ++ [c] |}.

Record DockerSandbox : Type := mkDockerSandbox {
  image : string;
  timeout : Z;
  memory_limit : string;
  cpu_limit : Q;
  _docker_available : bool
}.

(** [DockerSandbox.__init__] *)
Definition DockerSandbox_init (image : string) (timeout : Z)
    (memory_limit : string) (cpu_limit : Q) (d : Docker) : DockerSandbox :=
  {| image := image; timeout := timeout; memory_limit := memory_limit;
     cpu_limit := cpu_limit; _docker_available := daemon_up d |}.

Definition default_memory_limit : string := "512m".
Definition default_cpu_limit : Q := 1.

(** [output[i].decode("utf-8")] when [output[i]] is true, else the empty string *)
Definition decode (o : stream) : res string :=
  match o with
  | NoData => Ret EmptyString
  | Text s => Ret s
  | Undecodable => Raise (OtherException "'utf-8' codec can't decode bytes")
  end.

Definition error_result (msg : string) (duration : Z) : TestResult :=
  {| status := ERROR; exit_code := -1; stdout := EmptyString; stderr := msg;
     duration_seconds := duration; tests_passed := 0; tests_failed := 0;
     tests_skipped := 0; coverage_percent := None |}.

(** The two [except] clauses of [execute]. *)
Definition on_exception (e : exn) (duration : Z) : TestResult :=
  match e with
  | ContainerError m => error_result ("Container error: " ++ m) duration
  | _ => error_result ("Sandbox error: " ++ exn_str e) duration
  end.

(** [DockerSandbox.execute]. [None]: the call does not return. The container
    is stopped and removed in the [finally] clause on every path that
    returns; that does not change the result. [self.timeout] is not read. *)
Definition execute (self : DockerSandbox) (command : string)
    (code_files : list (string * string)) (env_vars : list (string * string))
    (d : Docker) : option (TestResult * Docker) :=
  if negb (_docker_available self) then
    Some (error_result
            "Docker is not available. Please ensure Docker Desktop is running on your system."
            0, d)
  else
    let call := {| call_image := image self;
                   call_command := "sh -c '" ++ command ++ "'";
                   call_files := code_files;
                   call_env := env_vars |} in
    let d' := record_call call d in
    match reply d (calls d) call with
    | Blocks => None
    | Raises e elapsed => Some (on_exception e elapsed, d')
    | Exits code out err elapsed =>
        let body :=
          let! stdout := decode out in
          let! stderr := decode err in
          let! result := _parse_test_output stdout stderr in
          Ret {| status := if code =? 0 then SUCCESS else FAILURE;
                 exit_code := code;
                 stdout := Sandbox.stdout result;
                 stderr := Sandbox.stderr result;
                 duration_seconds := elapsed;
                 tests_passed := tests_passed result;
                 tests_failed := tests_failed result;
                 tests_skipped := tests_skipped result;
                 coverage_percent := coverage_percent result |} in
        match body with
        | Ret r => Some (r, d')
        | Raise e => Some (on_exception e elapsed, d')
        end
    end.

(** *** What [TestResult.to_prompt] interpolates *)

Record TestPrompt : Type := mkTestPrompt {
  prompt_ok_icon : bool;                 (* the check mark, else the cross *)
  prompt_status : ExecutionStatus;
  prompt_exit_code : Z;
  prompt_duration : Z;
  prompt_passed : Z;
  prompt_failed : Z;
  prompt_skipped : Z;
  prompt_coverage : option Q;            (* the Coverage line, when shown *)
  prompt_output : string;
  prompt_errors : option string          (* the Errors block, when shown *)
}.

(** A Python string is true when it is not empty. *)
Definition truthy (s : string) : bool :=
  match s with EmptyString => false | _ => true end.

Definition to_prompt (r : TestResult) : TestPrompt :=
  {| prompt_ok_icon := ExecutionStatus_eqb (status r) SUCCESS;
     prompt_status := status r;
     prompt_exit_code := exit_code r;
     prompt_duration := duration_seconds r;
     prompt_passed := tests_passed r;
     prompt_failed := tests_failed r;
     prompt_skipped := tests_skipped r;
     prompt_coverage :=
       match coverage_percent r with
       | Some c => if Qeq_bool c 0 then None else Some c
       | None => None
       end;
     prompt_output := Str.take 3000 (stdout r);
     prompt_errors :=
       if truthy (stderr r) then Some (Str.take 1500 (stderr r)) else None |}.

(** [" && ".join(setup_commands) + f" && {command}"] when there are setup
    commands ([None] and the empty list are both false). *)
Definition with_setup (setup_commands : list string) (command : string) : string :=
  match setup_commands with
  | [] => command
  | _ => Str.join " && " setup_commands ++ " && " ++ command
  end.

(** *** [run_in_sandbox] *)

Inductive SandboxReport : Type :=
| DockerNotAvailable
| SandboxExecutionResult (passed : bool)   (* STATUS: PASSED, else FAILED *)
    (exit_code : Z) (duration : Z) (image : string)
    (output : string) (errors : option string).

Definition run_in_sandbox (command docker_image : string)
    (code_files : list (string * string)) (setup_commands : list string)
    (env_vars : list (string * string)) (timeout : Z) (memory_limit : string)
    (d : Docker) : option (SandboxReport * Docker) :=
  let sandbox := DockerSandbox_init docker_image timeout memory_limit default_cpu_limit d in
  if negb (_docker_available sandbox) then Some (DockerNotAvailable, d)
  else
    let full_command := with_setup setup_commands command in
    match execute sandbox full_command code_files env_vars d with
    | None => None
    | Some (result, d') =>
        let is_success :=
          ExecutionStatus_eqb (status result) SUCCESS && (exit_code result =? 0) in
        Some (SandboxExecutionResult is_success (exit_code result)
                (duration_seconds result) docker_image
                (Str.take 4000 (stdout result))
                (if truthy (stderr result)
                 then Some (Str.take 2000 (stderr result)) else None), d')
    end.

(** *** Cloning a branch: the command chain of the [*_on_branch] tools *)

Definition clone_url (github_token repo_name : string) : string :=
  if truthy github_token
  then "https://" ++ github_token ++ "@github.com/" ++ repo_name ++ ".git"
  else "https://github.com/" ++ repo_name ++ ".git".

Definition install_git : string :=
  "apt-get update -qq && apt-get install -y -qq git > /dev/null 2>&1 || apk add --no-cache git > /dev/null 2>&1 || true".

Definition clone_commands (github_token repo_name branch_name : string)
    (setup_commands : list string) : list string :=
  [install_git;
   "git clone --depth 1 --branch " ++ branch_name ++ " "
     ++ clone_url github_token repo_name ++ " /app/repo";
   "cd /app/repo"] ++ setup_commands.

Definition on_branch_command (github_token repo_name branch_name : string)
    (setup_commands : list string) (command : string) : string :=
  Str.join " && " (clone_commands github_token repo_name branch_name setup_commands)
    ++ " && cd /app/repo && " ++ command.

Definition token_env (github_token : string) : list (string * string) :=
  if truthy github_token then [("GITHUB_TOKEN", github_token)] else [].

(** [s.replace(github_token, "***") if github_token else s] *)
Definition redact (github_token s : string) : string :=
  if truthy github_token then Str.replace github_token "***" s else s.

(** *** Mutation testing *)

(** [(\d+)\s*word] and [Word:\s*(\d+)] *)
Definition count_before (word : string) : regex := seq [g 1 digits; spaces; lit word].
Definition count_after (label : string) : regex := seq [lit label; spaces; g 1 digits].

Definition mut_total_patterns : list regex :=
  [count_before "mutants"; count_after "Total:"; count_before "mutations"].
Definition mut_killed_patterns : list regex :=
  [count_after "Killed:"; count_before "killed"; count_before "detected"].
Definition mut_survived_patterns : list regex :=
  [count_after "Survived:"; count_before "survived"; count_before "undetected"].
(** [Mutation\s*[sS]core:\s*([\d.]+)%?] and [Score:\s*([\d.]+)%?] *)
Definition mut_score_patterns : list regex :=
  [seq [lit "Mutation"; spaces; Chr (Either (Lit "s"%char) (Lit "S"%char));
        lit "core:"; spaces; g 1 digits_dots; Opt (lit "%")];
   seq [lit "Score:"; spaces; g 1 digits_dots; Opt (lit "%")]].

(** [with\s+(\d+)\s+mutant] *)
Definition p_stryker_total : regex :=
  seq [lit "with"; spaces1; g 1 digits; spaces1; lit "mutant"].
(** [(\d+)/(\d+)\s+tested\s*\((\d+)\s+survived,?\s*(\d+)?\s*timed\s*out\)] *)
Definition p_stryker_tested : regex :=
  seq [g 1 digits; lit "/"; g 2 digits; spaces1; lit "tested"; spaces; lit "(";
       g 3 digits; spaces1; lit "survived"; Opt (lit ","); spaces;
       Opt (g 4 digits); spaces; lit "timed"; spaces; lit "out)"].
(** [Mutation\s+score[:\s]+(\d+(?:\.\d+)?)\s*%], IGNORECASE *)
Definition p_stryker_score : regex :=
  seq [lit "Mutation"; spaces1; lit "score";
       Plus (Chr (Either (Lit ":"%char) Space)); g 1 decimal; spaces; lit "%"].
Definition p_no_coverage : regex := lit "[NoCoverage]".

(** [for pattern in pattern_list: match = re.search(pattern, output,
    re.IGNORECASE); if match: ...; break] *)
Fixpoint first_search (ps : list regex) (s : string) : option Match :=
  match ps with
  | [] => None
  | p :: tl => match search true p s with
               | Some m => Some m
               | None => first_search tl s
               end
  end.

Definition first_int (ps : list regex) (s : string) (default : Z) : res Z :=
  match first_search ps s with
  | Some m => int_group m 1
  | None => Ret default
  end.

Definition first_float (ps : list regex) (s : string) (default : Q) : res Q :=
  match first_search ps s with
  | Some m => float_group m 1
  | None => Ret default
  end.

(** [(killed / total) * 100] *)
Definition percent (killed total : Z) : Q :=
  ((inject_Z killed / inject_Z total) * 100)%Q.

(** The numbers a mutation report shows. *)
Record MutationSummary : Type := mkMutationSummary {
  mut_passed : bool;               (* the status label is the passing one *)
  mut_score : Q;
  mut_required : Q;
  mut_total : Z;
  mut_killed : Z;
  mut_survived : Z;
  mut_no_coverage : Z;
  mut_timed_out : Z;
  mut_raw : string
}.

Inductive MutationReport : Type :=
| MutationDockerNotAvailable
| SkippedWithPrompt (baseline : TestPrompt)
    (* "## Mutation Testing Skipped", "Baseline tests failed." and the
       baseline's [to_prompt()] *)
| SkippedOnBranch (baseline_output : string) (baseline_errors : option string)
    (* "## Mutation Testing Skipped", "MUTATION_STATUS: SKIPPED", the
       baseline output and errors *)
| MutationResult (summary : MutationSummary)
    (* "## Mutation Testing Result", with "Mutation Score:" *)
| MutationBranchReport (branch_name : string) (summary : MutationSummary).
    (* "## Mutation Testing Report for Branch:", with "Mutation Score:" *)

(** The score a report shows, if it shows one. *)
Definition reported_score (r : MutationReport) : option Q :=
  match r with
  | MutationResult sm | MutationBranchReport _ sm => Some (mut_score sm)
  | _ => None
  end.

Definition states_skipped (r : MutationReport) : bool :=
  match r with
  | SkippedWithPrompt _ | SkippedOnBranch _ _ => true
  | _ => false
  end.

(** The pattern table of [run_mutation_tests], tried on the output in the
    order total, killed, survived, score. *)
Definition scan_mutmut (output : string) (total killed survived : Z) (score : Q)
  : res (Z * Z * Z * Q) :=
  let! total := first_int mut_total_patterns output total in
  let! killed := first_int mut_killed_patterns output killed in
  let! survived := first_int mut_survived_patterns output survived in
  let! score := first_float mut_score_patterns output score in
  Ret (total, killed, survived, score).

(** [if score == 0 and total > 0: score = (killed / total) * 100] *)
Definition simple_score (total killed : Z) (score : Q) : Q :=
  if Qeq_bool score 0 && (0 <? total) then percent killed total else score.

(** [run_mutation_tests]; the result is [None] when an [execute] does not
    return, and a raised exception when a captured score is no number. *)
Definition run_mutation_tests (code_files : list (string * string))
    (mutation_command docker_image : string) (setup_commands : list string)
    (test_command : string) (d : Docker) : option (res MutationReport * Docker) :=
  let sandbox := DockerSandbox_init docker_image 900 default_memory_limit default_cpu_limit d in
  if negb (_docker_available sandbox) then Some (Ret MutationDockerNotAvailable, d)
  else
    let baseline_cmd := with_setup setup_commands test_command in
    match execute sandbox baseline_cmd code_files [] d with
    | None => None
    | Some (test_result, d1) =>
        if negb (ExecutionStatus_eqb (status test_result) SUCCESS)
        then Some (Ret (SkippedWithPrompt (to_prompt test_result)), d1)
        else
          let mutation_cmd := with_setup setup_commands mutation_command in
          match execute sandbox mutation_cmd code_files [] d1 with
          | None => None
          | Some (mutation_result, d2) =>
              let output := stdout mutation_result ++ stderr mutation_result in
              Some (
                (let! '(total, killed, survived, score) :=
                   scan_mutmut output 0 0 0 0%Q in
                 let score := simple_score total killed score in
                 Ret (MutationResult
                        {| mut_passed := survived =? 0;
                           mut_score := score;
                           mut_required := 0;
                           mut_total := total;
                           mut_killed := killed;
                           mut_survived := survived;
                           mut_no_coverage := 0;
                           mut_timed_out := 0;
                           mut_raw := Str.take 3000 output |})), d2)
          end
    end.

(** The scanning half of the parse in [run_mutation_tests_on_branch]: total,
    killed, survived, timed out, no coverage, and the score found in the
    output (0.0 when there is none). *)
Definition scan_mutation_output (combined : string)
  : res (Z * Z * Z * Z * Z * Q) :=
  let total := 0 in
  let killed := 0 in
  let survived := 0 in
  let timed_out := 0 in
  let score := 0%Q in
  (* Stryker *)
  let! total :=
    match search false p_stryker_total combined with
    | Some m => int_group m 1
    | None => Ret total
    end in
  let! '(total, killed, survived, timed_out) :=
    match search false p_stryker_tested combined with
    | Some m =>
        let! tested := int_group m 1 in
        let! total := (if negb (total =? 0) then Ret total else int_group m 2) in
        let! survived := int_group m 3 in
        let! timed_out :=
          match group 4 (groups m) with
          | Some t => if truthy t then int_group m 4 else Ret 0
          | None => Ret 0
          end in
        Ret (total, tested - survived - timed_out, survived, timed_out)
    | None => Ret (total, killed, survived, timed_out)
    end in
  let! score :=
    match search true p_stryker_score combined with
    | Some m => float_group m 1
    | None => Ret score
    end in
  let no_coverage := findall_len p_no_coverage combined in
  (* mutmut *)
  let! '(total, killed, survived, score) :=
    (if total =? 0 then scan_mutmut combined total killed survived score
     else Ret (total, killed, survived, score)) in
  Ret (total, killed, survived, timed_out, no_coverage, score).

(** [if score == 0 and total > 0:
       effective_total = total - no_coverage if no_coverage > 0 else total
       if effective_total > 0: score = (killed / effective_total) * 100] *)
Definition derive_score (total killed no_coverage : Z) (score : Q) : Q :=
  if Qeq_bool score 0 && (0 <? total) then
    let effective_total := if 0 <? no_coverage then total - no_coverage else total in
    if 0 <? effective_total then percent killed effective_total else score
  else score.

Definition parse_mutation_output (combined : string)
  : res (Z * Z * Z * Z * Z * Q) :=
  let! '(total, killed, survived, timed_out, no_coverage, score) :=
    scan_mutation_output combined in
  Ret (total, killed, survived, timed_out, no_coverage,
       derive_score total killed no_coverage score).

Definition run_mutation_tests_on_branch (github_token : string)
    (repo_name branch_name mutation_command docker_image : string)
    (setup_commands : list string) (test_command : string)
    (min_mutation_score : Q) (timeout : Z) (d : Docker)
  : option (res MutationReport * Docker) :=
  let sandbox := DockerSandbox_init docker_image timeout "2g" default_cpu_limit d in
  if negb (_docker_available sandbox) then Some (Ret MutationDockerNotAvailable, d)
  else
    let baseline_command :=
      on_branch_command github_token repo_name branch_name setup_commands test_command in
    match execute sandbox baseline_command [] (token_env github_token) d with
    | None => None
    | Some (baseline_result, d1) =>
        if negb (exit_code baseline_result =? 0) then
          let stdout := redact github_token (stdout baseline_result) in
          let stderr := redact github_token (stderr baseline_result) in
          Some (Ret (SkippedOnBranch (Str.take 3000 stdout)
                       (if truthy stderr then Some (Str.take 1500 stderr) else None)),
                d1)
        else
          let full_command :=
            on_branch_command github_token repo_name branch_name setup_commands
              mutation_command in
          match execute sandbox full_command [] (token_env github_token) d1 with
          | None => None
          | Some (result, d2) =>
              let stdout := redact github_token (stdout result) in
              let stderr := redact github_token (stderr result) in
              let combined := stdout ++ Str.nl ++ stderr in
              Some (
                (let! '(total, killed, survived, timed_out, no_coverage, score) :=
                   parse_mutation_output combined in
                 let mutation_passed := Qle_bool min_mutation_score score in
                 Ret (MutationBranchReport branch_name
                        {| mut_passed := mutation_passed;
                           mut_score := score;
                           mut_required := min_mutation_score;
                           mut_total := total;
                           mut_killed := killed;
                           mut_survived := survived;
                           mut_no_coverage := no_coverage;
                           mut_timed_out := timed_out;
                           mut_raw := Str.take 4000 combined |})), d2)
          end
    end.

(** *** Output that no pattern recognises *)

(** No test-count and no coverage pattern matches the combined output. *)
Definition unmatched (combined : string) : Prop :=
  Forall (fun p => Re.search false p combined = None)
         (count_patterns ++ marker_patterns ++ coverage_patterns).

(** No mutation pattern matches the combined output. *)
Definition mutation_unmatched (combined : string) : Prop :=
  Forall (fun p => Re.search false p combined = None)
         [p_stryker_total; p_stryker_tested; p_no_coverage]
  /\ Forall (fun p => Re.search true p combined = None)
         (p_stryker_score :: mut_total_patterns ++ mut_killed_patterns
            ++ mut_survived_patterns ++ mut_score_patterns).

End Sandbox.

(** ** The remote-repository gateway ([github_tools.py]) *)

Module Github.

(** *** The hosting platform, as far as the branch tools observe it

    A repository maps branch names to trees, a tree maps file paths to
    contents. A commit is identified with the tree it holds, so the SHA of a
    branch head is its tree. Every call made through the repository handle
    is logged. [client = _get_client(); repo = client.get_repo(repo_name)]
    obtains the handle; the functions below take the repository it denotes. *)

Inductive Op : Type :=
| OpGetBranch (branch : string)
| OpCreateGitRef (ref : string)
| OpGetContents (path ref : string)
| OpUpdateFile (path branch : string)
| OpCreateFile (path branch : string).

Record Repository : Type := mkRepository {
  branches : gmap string (gmap string string);
  oplog : list Op
}.

Definition log_op (o : Op) (repo : Repository) : Repository :=
  {| branches := branches repo; oplog := oplog repo ++ [o] |}.

Definition set_branch (name : string) (t : gmap string string)
    (repo : Repository) : Repository :=
  {| branches := <[name := t]> (branches repo); oplog := oplog repo |}.

(** A path is a directory of a tree when some file lies below it; the empty
    path is the root. *)
Definition below (dir file : string) : bool :=
  match Str.strip_prefix (dir ++ "/") file with
  | Some _ => true
  | None => false
  end.

Definition is_dir (t : gmap string string) (path : string) : bool :=
  match path with
  | EmptyString => true
  | _ => existsb (fun kv => below path (fst kv)) (map_to_list t)
  end.

Inductive Contents : Type :=
| ContentFile (text : string)
| ContentList (entries : list string).

(** [repo.get_branch(branch)]: the head of the branch *)
Definition get_branch (branch : string) (repo : Repository)
  : res (gmap string string) * Repository :=
  let repo' := log_op (OpGetBranch branch) repo in
  match branches repo !! branch with
  | Some t => (Ret t, repo')
  | None => (Raise (GithubException "Branch not found"), repo')
  end.

(** [repo.create_git_ref(ref, sha)] *)
Definition create_git_ref (ref : string) (sha : gmap string string)
    (repo : Repository) : res unit * Repository :=
  let repo' := log_op (OpCreateGitRef ref) repo in
  match Str.strip_prefix "refs/heads/" ref with
  | None => (Raise (GithubException "Reference name is not valid"), repo')
  | Some name =>
      match branches repo !! name with
      | Some _ => (Raise (GithubException "Reference already exists"), repo')
      | None => (Ret tt, set_branch name sha repo')
      end
  end.

(** [repo.get_contents(path, ref)] *)
Definition get_contents (path ref : string) (repo : Repository)
  : res Contents * Repository :=
  let repo' := log_op (OpGetContents path ref) repo in
  match branches repo !! ref with
  | None => (Raise (GithubException ("No commit found for the ref " ++ ref)), repo')
  | Some t =>
      match t !! path with
      | Some text => (Ret (ContentFile text), repo')
      | None =>
          if is_dir t path
          then (Ret (ContentList
                       (map fst (filter (fun kv => below path (fst kv) = true)
                                        (map_to_list t)))), repo')
          else (Raise (GithubException "Not Found"), repo')
      end
  end.

(** [repo.update_file(path, message, content, sha, branch)] *)
Definition update_file (path content branch : string) (repo : Repository)
  : res unit * Repository :=
  let repo' := log_op (OpUpdateFile path branch) repo in
  match branches repo !! branch with
  | None => (Raise (GithubException ("Branch " ++ branch ++ " not found")), repo')
  | Some t =>
      match t !! path with
      | None => (Raise (GithubException "Not Found"), repo')
      | Some _ => (Ret tt, set_branch branch (<[path := content]> t) repo')
      end
  end.

(** [repo.create_file(path, message, content, branch)] *)
Definition create_file (path content branch : string) (repo : Repository)
  : res unit * Repository :=
  let repo' := log_op (OpCreateFile path branch) repo in
  match branches repo !! branch with
  | None => (Raise (GithubException ("Branch " ++ branch ++ " not found")), repo')
  | Some t =>
      match t !! path with
      | Some _ => (Raise (GithubException "Invalid request: sha wasn't supplied."), repo')
      | None => (Ret tt, set_branch branch (<[path := content]> t) repo')
      end
  end.

(** *** What the branch tools return *)

Inductive BranchReport : Type :=
| ErrorEmptyFileChanges
    (* "ERROR: file_changes cannot be empty. ..." *)
| ErrorNoContent (path : string)
    (* "ERROR: File '{path}' has no content or content is too short. ..." *)
| ErrorCreatingBranch (error_msg : string)
    (* "Error creating branch: {error_msg}" *)
| ErrorIsDirectory (file_path branch_name : string)
    (* "ERROR: '{file_path}' is a directory in the repo (ref='{branch_name}'), ..." *)
| Error (error_msg : string)
    (* "Error: {error_msg}" *)
| SuccessPushed (branch_status : string) (files_created files_updated : list string)
    (* "SUCCESS: Branch {branch_status} and {total_files} file(s) pushed!" *)
| SuccessCreated (branch_name base_branch : string)
    (* "SUCCESS: Branch created!" *)
| AlreadyExists (branch_name repo_name : string).
    (* "Branch '{branch_name}' already exists in {repo_name}. Use a different
        name or push directly to it." *)


(** [not content or len(content.strip()) < 10] *)
Definition too_short (content : string) : bool :=
  negb (Sandbox.truthy content) || (String.length (Str.strip content) <? 10)%nat.

(** The validation loop over [file_changes.items()]. *)
Fixpoint first_too_short (file_changes : list (string * string)) : option string :=
  match file_changes with
  | [] => None
  | (path, content) :: tl =>
      if too_short content then Some path else first_too_short tl
  end.

(** Step 3 of [create_branch_with_files]: the loop that pushes the files.
    [inl report]: the loop returned early; [Raise]: a GithubException left
    the loop. *)
Fixpoint push_files (file_changes : list (string * string)) (branch_name : string)
    (files_created files_updated : list string) (repo : Repository)
  : res (BranchReport + list string * list string) * Repository :=
  match file_changes with
  | [] => (Ret (inr (files_created, files_updated)), repo)
  | (file_path, content) :: tl =>
      let create repo :=
        match create_file file_path content branch_name repo with
        | (Ret _, repo') =>
            push_files tl branch_name (files_created ++ [file_path]) files_updated repo'
        | (Raise e, repo') => (Raise e, repo')
        end in
      match get_contents file_path branch_name repo with
      | (Ret (ContentList _), repo1) =>
          (Ret (inl (ErrorIsDirectory file_path branch_name)), repo1)
      | (Ret (ContentFile _), repo1) =>
          match update_file file_path content branch_name repo1 with
          | (Ret _, repo2) =>
              push_files tl branch_name files_created (files_updated ++ [file_path]) repo2
          | (Raise (GithubException _), repo2) => create repo2
          | (Raise e, repo2) => (Raise e, repo2)
          end
      | (Raise (GithubException _), repo1) => create repo1
      | (Raise e, repo1) => (Raise e, repo1)
      end
  end.

Definition create_branch_with_files (repo_name branch_name : string)
    (file_changes : list (string * string)) (commit_message base_branch : string)
    (repo : Repository) : res BranchReport * Repository :=
  match file_changes with
  | [] => (Ret ErrorEmptyFileChanges, repo)
  | _ =>
      match first_too_short file_changes with
      | Some path => (Ret (ErrorNoContent path), repo)
      | None =>
          (* the outer [try] *)
          let outer (r : res BranchReport * Repository) :=
            match r with
            | (Raise (GithubException error_msg), repo') => (Ret (Error error_msg), repo')
            | _ => r
            end in
          outer
            match get_branch base_branch repo with
            | (Raise e, repo1) => (Raise e, repo1)
            | (Ret base_sha, repo1) =>
                let step2 :=
                  match create_git_ref ("refs/heads/" ++ branch_name) base_sha repo1 with
                  | (Ret _, repo2) => (Ret (inr "created"), repo2)
                  | (Raise (GithubException error_msg), repo2) =>
                      if Str.contains "Reference already exists" error_msg
                      then (Ret (inr "already existed"), repo2)
                      else (Ret (inl (ErrorCreatingBranch error_msg)), repo2)
                  | (Raise e, repo2) => (Raise e, repo2)
                  end in
                match step2 with
                | (Raise e, repo2) => (Raise e, repo2)
                | (Ret (inl report), repo2) => (Ret report, repo2)
                | (Ret (inr branch_status), repo2) =>
                    match push_files file_changes branch_name [] [] repo2 with
                    | (Raise e, repo3) => (Raise e, repo3)
                    | (Ret (inl report), repo3) => (Ret report, repo3)
                    | (Ret (inr (files_created, files_updated)), repo3) =>
                        (Ret (SuccessPushed branch_status files_created files_updated),
                         repo3)
                    end
                end
            end
      end
  end.

Definition create_branch (repo_name branch_name base_branch : string)
    (repo : Repository) : res BranchReport * Repository :=
  let handler (e : exn) (repo' : Repository) :=
    match e with
    | GithubException error_msg =>
        if Str.contains "Reference already exists" error_msg
        then (Ret (AlreadyExists branch_name repo_name), repo')
        else (Ret (ErrorCreatingBranch error_msg), repo')
    | _ => (Raise e, repo')
    end in
  match get_branch base_branch repo with
  | (Raise e, repo1) => handler e repo1
  | (Ret base_sha, repo1) =>
      match create_git_ref ("refs/heads/" ++ branch_name) base_sha repo1 with
      | (Raise e, repo2) => handler e repo2
      | (Ret _, repo2) => (Ret (SuccessCreated branch_name base_branch), repo2)
      end
  end.

End Github.

(** ** CI status and the CI monitor ([github_tools.py], [ci_tools.py]) *)

Module CI.

Inductive CIStatus : Type :=
| PENDING | QUEUED | IN_PROGRESS | SUCCESS | FAILURE | CANCELLED | UNKNOWN.

(** [CIStatus.X.value] *)
Definition value (s : CIStatus) : string :=
  match s with
  | PENDING => "pending"
  | QUEUED => "queued"
  | IN_PROGRESS => "in_progress"
  | SUCCESS => "success"
  | FAILURE => "failure"
  | CANCELLED => "cancelled"
  | UNKNOWN => "unknown"
  end.

(** One workflow run of the commit; [conclusion] is [None] until it has one. *)
Record WorkflowRun : Type := mkRun {
  run_status : string;
  run_conclusion : option string
}.

(** [commit.get_combined_status()] *)
Record CombinedStatus : Type := mkCombined {
  total_count : Z;
  state : string
}.

(** What the platform answers about one commit at one instant: the listing
    of its workflow runs, its combined status (each may raise instead), and
    what [get_ci_failure_logs] and the failed-jobs extraction return. *)
Record CIView : Type := mkView {
  workflow_runs : res (list WorkflowRun);
  combined_status : res CombinedStatus;
  failure_logs : string;
  failed_job_names : list string
}.

Definition conclusion_is (c : string) (r : WorkflowRun) : bool :=
  match run_conclusion r with
  | Some c' => String.eqb c' c
  | None => false
  end.

(** The [for run in runs] loop of [get_ci_status], on the three flags. *)
Fixpoint scan_runs (runs : list WorkflowRun) (all_completed any_failed any_cancelled : bool)
  : bool * bool * bool :=
  match runs with
  | [] => (all_completed, any_failed, any_cancelled)
  | run :: tl =>
      if negb (String.eqb (run_status run) "completed")
      then scan_runs tl false any_failed any_cancelled
      else if conclusion_is "failure" run || conclusion_is "timed_out" run
      then scan_runs tl all_completed true any_cancelled
      else if conclusion_is "cancelled" run
      then scan_runs tl all_completed any_failed true
      else scan_runs tl all_completed any_failed any_cancelled
  end.

(** The fallback of [get_ci_status]: the combined status, then "pending". *)
Definition combined_fallback (v : CIView) : string :=
  match combined_status v with
  | Ret st =>
      if 0 <? total_count st then
        if String.eqb (state st) "success" then value SUCCESS
        else if String.eqb (state st) "pending" then value PENDING
        else if String.eqb (state st) "failure" then value FAILURE
        else state st
      else value PENDING
  | Raise _ => value PENDING
  end.

(** [get_ci_status]. [_get_client()] gives the process-wide client and
    [get_repo] its cached handle, which every caller below has obtained
    before; both queries sit in a [try] whose [except Exception] passes. So
    the function raises nothing: it maps what the platform shows to a
    status. [runs.totalCount] is the length of the listing. *)
Definition get_ci_status (v : CIView) : string :=
  match workflow_runs v with
  | Ret (run :: tl) =>
      let '(all_completed, any_failed, any_cancelled) :=
        scan_runs (run :: tl) true false false in
      if negb all_completed then value IN_PROGRESS
      else if any_failed then value FAILURE
      else if any_cancelled then value CANCELLED
      else value SUCCESS
  | Ret [] => combined_fallback v
  | Raise _ => combined_fallback v
  end.

(** The resolution over the native runs, in the words of the
    specification: in progress unless every run reports completed; failure
    if any completed run concluded failure or timed_out; else cancelled if
    any run was cancelled; else success. *)
Definition completed (r : WorkflowRun) : bool := String.eqb (run_status r) "completed".

Definition concluded_failure (r : WorkflowRun) : bool :=
  completed r && (conclusion_is "failure" r || conclusion_is "timed_out" r).

Definition native_status (runs : list WorkflowRun) : string :=
  if negb (forallb completed runs) then "in_progress"
  else if existsb concluded_failure runs then "failure"
  else if existsb (conclusion_is "cancelled") runs then "cancelled"
  else "success".


(** [status in {success, failure, cancelled}] *)
Definition is_terminal (status : string) : bool :=
  String.eqb status (value SUCCESS) || String.eqb status (value FAILURE)
  || String.eqb status (value CANCELLED).

(** *** The clock and the platform during a monitoring run

    Tick [i] is the i-th call of [get_ci_status]: the platform shows
    [view i] and the call takes [latency i] seconds. [pull] is what
    [repo.get_pull(pr_number)] gives: the head SHA, or an exception. *)
Record World : Type := mkWorld {
  pull : res string;
  view : nat -> CIView;
  latency : nat -> Z
}.

(** **** [monitor_ci_for_pr] *)

Inductive CIReport : Type :=
| ReportPassed (duration : Z)                       (* "CI_STATUS: PASSED" *)
| ReportFailed (duration : Z) (failed_jobs : list string) (logs : string)
                                                    (* "CI_STATUS: FAILED" *)
| ReportCancelled (duration : Z)                    (* "CI_STATUS: CANCELLED" *)
| ReportTimeout (last_status : option string) (waited : Z).
                                                    (* "CI_STATUS: TIMEOUT" *)

(** [try: status = get_ci_status(...) except Exception: status = None];
    [get_ci_status] raises nothing, so a status always comes back. *)
Definition guarded_status (v : CIView) : option string := Some (get_ci_status v).

(** The [while True] loop, [fuel] iterations of it; [elapsed] is
    [time.time() - start_time] at the top of iteration [i]. *)
Fixpoint monitor_loop (w : World) (timeout_seconds poll_interval : Z)
    (fuel : nat) (i : nat) (elapsed : Z) : option CIReport :=
  match fuel with
  | O => None
  | S fuel' =>
      let status := guarded_status (view w i) in
      let done :=
        match status with
        | Some s => is_terminal s
        | None => false
        end in
      if done then
        match status with
        | Some s =>
            if String.eqb s (value SUCCESS) then Some (ReportPassed elapsed)
            else if String.eqb s (value FAILURE)
            then Some (ReportFailed elapsed (failed_job_names (view w i))
                         (Str.take 2000 (failure_logs (view w i))))
            else Some (ReportCancelled elapsed)
        | None => None
        end
      else if timeout_seconds <=? elapsed then Some (ReportTimeout status elapsed)
      else monitor_loop w timeout_seconds poll_interval fuel' (S i)
             (elapsed + latency w i + poll_interval)
  end.

Definition monitor_ci_for_pr (w : World) (timeout_seconds poll_interval : Z)
    (fuel : nat) : option (res CIReport) :=
  match pull w with
  | Raise e => Some (Raise e)
  | Ret _ =>
      match monitor_loop w timeout_seconds poll_interval fuel 0 0 with
      | Some r => Some (Ret r)
      | None => None
      end
  end.

(** **** [CIMonitor.monitor_pr] *)





(** **** [wait_for_ci_completion] *)

Inductive WaitReport : Type :=
| WaitStatus (status : string) (logs : option string)
    (* "CI_STATUS: {status.upper()}", with the failure logs on failure *)
| WaitTimeout (timeout_seconds : Z)
    (* "CI_STATUS: TIMEOUT (exceeded {timeout_seconds}s)" *)
| WaitError (msg : string).
    (* "CI_STATUS: ERROR - {msg}" *)

Fixpoint wait_loop (w : World) (timeout_seconds poll_interval : Z)
    (fuel : nat) (i : nat) (elapsed : Z) : option WaitReport :=
  match fuel with
  | O => None
  | S fuel' =>
      if elapsed <? timeout_seconds then
        let status := get_ci_status (view w i) in
        if is_terminal status then
          if String.eqb status (value FAILURE)
          then Some (WaitStatus status (Some (failure_logs (view w i))))
          else Some (WaitStatus status None)
        else wait_loop w timeout_seconds poll_interval fuel' (S i)
               (elapsed + latency w i + poll_interval)
      else Some (WaitTimeout timeout_seconds)
  end.

Definition wait_for_ci_completion (w : World) (timeout_seconds poll_interval : Z)
    (fuel : nat) : option (res WaitReport) :=
  match pull w with
  | Raise (GithubException msg) => Some (Ret (WaitError msg))
  | Raise e => Some (Raise e)
  | Ret _ =>
      match wait_loop w timeout_seconds poll_interval fuel 0 0 with
      | Some r => Some (Ret r)
      | None => None
      end
  end.

End CI.

(** ** What a match of a regular expression is

    The relation that [Re.run] implements: [Matches icase r s c s' c'] says
    that [r] matches a prefix of [s], leaves [s'], and turns the captured
    groups [c] into [c']. *)

Module ReSpec.

Import Re.

Inductive Matches (icase : bool) : regex -> string -> caps -> string -> caps -> Prop :=
| MEps s c : Matches icase Eps s c s c
| MChr cl a s c :
    cmatch icase cl a = true -> Matches icase (Chr cl) (String a s) c s c
| MSeq r1 r2 s c s1 c1 s2 c2 :
    Matches icase r1 s c s1 c1 -> Matches icase r2 s1 c1 s2 c2 ->
    Matches icase (Seq r1 r2) s c s2 c2
| MStarEnd greedy r s c : Matches icase (Star greedy r) s c s c
| MStarMore greedy r s c s1 c1 s2 c2 :
    Matches icase r s c s1 c1 -> Matches icase (Star greedy r) s1 c1 s2 c2 ->
    Matches icase (Star greedy r) s c s2 c2
| MOptSome r s c s' c' : Matches icase r s c s' c' -> Matches icase (Opt r) s c s' c'
| MOptNone r s c : Matches icase (Opt r) s c s c
| MGroup n r s c s' c' :
    Matches icase r s c s' c' ->
    Matches icase (Group n r) s c s' ((n, consumed s s') :: c').

Definition cclass_eqb : cclass -> cclass -> bool :=
  fix eqb (a b : cclass) : bool :=
    match a, b with
    | Lit x, Lit y => Ascii.eqb x y
    | Dot, Dot | Digit, Digit | Space, Space => true
    | Either a1 a2, Either b1 b2 => eqb a1 b1 && eqb a2 b2
    | _, _ => false
    end.

Fixpoint regex_eqb (a b : regex) : bool :=
  match a, b with
  | Eps, Eps => true
  | Chr x, Chr y => cclass_eqb x y
  | Seq a1 a2, Seq b1 b2 => regex_eqb a1 b1 && regex_eqb a2 b2
  | Star g1 a1, Star g2 b1 => Bool.eqb g1 g2 && regex_eqb a1 b1
  | Opt a1, Opt b1 => regex_eqb a1 b1
  | Group n a1, Group m b1 => (n =? m)%nat && regex_eqb a1 b1
  | _, _ => false
  end.

(** Every capturing group of [r] has a body that [f] accepts. *)
Fixpoint all_groups (f : regex -> bool) (r : regex) : bool :=
  match r with
  | Eps | Chr _ => true
  | Seq r1 r2 => all_groups f r1 && all_groups f r2
  | Star _ r1 | Opt r1 => all_groups f r1
  | Group _ r1 => f r1 && all_groups f r1
  end.

(** The loop of [Re.run] on a star, by name. *)
Definition star_loop {R : Type}
    (step : string -> caps -> (string -> caps -> option R) -> option R)
    (greedy : bool) (k : string -> caps -> option R)
  : nat -> string -> caps -> option R :=
  fix loop (fuel : nat) (s : string) (c : caps) {struct fuel} : option R :=
    match fuel with
    | O => k s c
    | S fuel' =>
        let more :=
          step s c
            (fun s' c' =>
               if (String.length s' <? String.length s)%nat
               then loop fuel' s' c' else None) in
        if greedy
        then match more with Some x => Some x | None => k s c end
        else match k s c with Some x => Some x | None => more end
    end.

(** Group [n] takes part in every match of [r]. *)
Fixpoint binds (n : nat) (r : regex) : bool :=
  match r with
  | Eps | Chr _ | Star _ _ | Opt _ => false
  | Seq r1 r2 => binds n r1 || binds n r2
  | Group m r1 => (m =? n)%nat || binds n r1
  end.

(** Every star of [r] repeats a single character class, as all stars of
    the tool-output patterns do. *)
Fixpoint star_chars (r : regex) : bool :=
  match r with
  | Eps | Chr _ => true
  | Seq r1 r2 => star_chars r1 && star_chars r2
  | Star _ (Chr _) => true
  | Star _ _ => false
  | Opt r1 | Group _ r1 => star_chars r1
  end.

(** [q] matches wherever [p] does, possibly later in the text. *)
Definition covers (icase : bool) (q p : regex) : Prop :=
  forall s0 s' c', Matches icase p s0 [] s' c' ->
    exists pre s1 s'' c'', s0 = pre ++ s1 /\ Matches icase q s1 [] s'' c''.

End ReSpec.

(** ** What the groups of the tool-output patterns hold *)

Module Captures.

Import Re ReSpec.

(** Every group of [r] is [(\d+)]. *)
Definition captures_digits (r : regex) : bool :=
  all_groups (fun body => regex_eqb body Sandbox.digits) r.

(** Every group of [r] is [(\d+)] or [(\d+(?:\.\d+)?)]. *)
Definition captures_numbers (r : regex) : bool :=
  all_groups (fun body => regex_eqb body Sandbox.digits
                          || regex_eqb body Sandbox.decimal) r.

(** A non-empty string of decimal digits. *)
Definition is_digit_string (t : string) : Prop :=
  t <> EmptyString /\ Str.all_digits t = true.

(** What [float] turns into a number that is not negative. *)
Definition is_number_string (t : string) : Prop :=
  exists q, Str.float t = Some q /\ (0 <= q)%Q.

(** The message of the only exception the parsers let through. *)
Definition float_error : exn := ValueError "could not convert string to float".

End Captures.


(** ** The other sandbox tools ([sandbox_tools.py]) *)

Module Tools.

Import Re Sandbox.

(** *** Coverage patterns of the coverage tools, all tried with
    [re.IGNORECASE] *)

(** [All files\s*\|\s*[\d.]+\s*\|\s*[\d.]+\s*\|\s*[\d.]+\s*\|\s*([\d.]+)] *)
Definition p_nyc_table : regex :=
  seq [lit "All files"; spaces; lit "|"; spaces; digits_dots; spaces;
       lit "|"; spaces; digits_dots; spaces; lit "|"; spaces; digits_dots; spaces;
       lit "|"; spaces; g 1 digits_dots].
(** [Coverage:\s*([\d.]+)%] and [coverage:\s*([\d.]+)%] *)
Definition p_coverage_upper : regex :=
  seq [lit "Coverage:"; spaces; g 1 digits_dots; lit "%"].
Definition p_coverage_lower : regex :=
  seq [lit "coverage:"; spaces; g 1 digits_dots; lit "%"].
(** [(\d+(?:\.\d+)?)\s*%\s*coverage] *)
Definition p_percent_coverage : regex :=
  seq [g 1 decimal; spaces; lit "%"; spaces; lit "coverage"].
(** [total:\s*\(statements\)\s*([\d.]+)%] *)
Definition p_go_total : regex :=
  seq [lit "total:"; spaces; lit "(statements)"; spaces; g 1 digits_dots; lit "%"].
(** [coverage:\s*([\d.]+)%\s*of\s*statements] *)
Definition p_go_of_statements : regex :=
  seq [lit "coverage:"; spaces; g 1 digits_dots; lit "%"; spaces; lit "of"; spaces;
       lit "statements"].
(** [Line coverage:\s*([\d.]+)%] *)
Definition p_jacoco : regex :=
  seq [lit "Line coverage:"; spaces; g 1 digits_dots; lit "%"].
(** [Lines:\s*([\d.]+)%] *)
Definition p_c8_lines : regex :=
  seq [lit "Lines:"; spaces; g 1 digits_dots; lit "%"].

(** The pattern list of [run_tests_with_coverage]. *)
Definition sandbox_coverage_patterns : list regex :=
  [p_cov_total; p_nyc_table; p_coverage_upper; p_coverage_lower; p_percent_coverage].

(** The pattern list of [run_coverage_on_branch]. *)
Definition branch_coverage_patterns : list regex :=
  [p_cov_total; p_cov_all_files; p_cov_statements; p_cov_lines; p_nyc_table;
   p_go_total; p_go_of_statements; p_coverage_upper; p_coverage_lower;
   p_percent_coverage; p_jacoco; p_c8_lines].

(** The patterns of the two lists that can decide: the others only match
    where an earlier pattern of their list matches. *)
Definition sandbox_live_patterns : list regex :=
  [p_cov_total; p_nyc_table; p_coverage_upper; p_percent_coverage].
Definition branch_live_patterns : list regex :=
  [p_cov_total; p_cov_all_files; p_cov_statements; p_cov_lines;
   p_go_total; p_go_of_statements; p_coverage_upper; p_percent_coverage].

(** [coverage = None
     for pattern in patterns:
         match = re.search(pattern, text, re.IGNORECASE)
         if match: coverage = float(match.group(1)); break] *)
Definition find_coverage (patterns : list regex) (text : string) : res (option Q) :=
  match first_search patterns text with
  | Some m => let! v := float_group m 1 in Ret (Some v)
  | None => Ret None
  end.

(** *** [run_tests_in_sandbox] *)

Inductive TestsReport : Type :=
| TestsDockerNotAvailable
| TestsPrompt (prompt : TestPrompt).     (* [result.to_prompt()] *)

Definition run_tests_in_sandbox (code_files : list (string * string))
    (test_command docker_image : string) (setup_commands : list string)
    (timeout : Z) (d : Docker) : option (TestsReport * Docker) :=
  let sandbox :=
    DockerSandbox_init docker_image timeout default_memory_limit default_cpu_limit d in
  if negb (_docker_available sandbox) then Some (TestsDockerNotAvailable, d)
  else
    let full_command := with_setup setup_commands test_command in
    match execute sandbox full_command code_files [] d with
    | None => None
    | Some (result, d') => Some (TestsPrompt (to_prompt result), d')
    end.

(** *** [run_tests_with_coverage] *)

Inductive CoverageVerdict : Type :=
| CoveragePassed (coverage : Q)      (* "COVERAGE_STATUS: PASSED" *)
| CoverageFailed (coverage : Q)      (* "COVERAGE_STATUS: FAILED" *)
| CoverageUnknown.                   (* "COVERAGE_STATUS: UNKNOWN" *)

Inductive CoverageReport : Type :=
| CoverageDockerNotAvailable
| CoveragePrompt (prompt : TestPrompt) (verdict : CoverageVerdict)
    (test_command coverage_command : string).

Definition run_tests_with_coverage (code_files : list (string * string))
    (test_command coverage_command docker_image : string)
    (setup_commands : list string) (min_coverage : Q) (d : Docker)
  : option (res CoverageReport * Docker) :=
  let sandbox :=
    DockerSandbox_init docker_image 600 default_memory_limit default_cpu_limit d in
  if negb (_docker_available sandbox) then Some (Ret CoverageDockerNotAvailable, d)
  else
    let full_command := with_setup setup_commands coverage_command in
    match execute sandbox full_command code_files [] d with
    | None => None
    | Some (result, d') =>
        let prompt := to_prompt result in
        Some (
          (let! coverage := find_coverage sandbox_coverage_patterns (stdout result) in
           let verdict :=
             match coverage with
             | Some c => if Qle_bool min_coverage c then CoveragePassed c
                         else CoverageFailed c
             | None => CoverageUnknown
             end in
           Ret (CoveragePrompt prompt verdict test_command coverage_command)), d')
    end.

(** *** [lint_code] *)

Inductive LintReport : Type :=
| LintDockerNotAvailable
| LintingPassed                          (* "Linting Passed: No issues found." *)
| LintingIssues (issues : string) (errors : option string).
                                         (* "LINT_STATUS: ISSUES_FOUND" *)

Definition lint_code (code_files : list (string * string))
    (lint_command docker_image : string) (setup_commands : list string)
    (d : Docker) : option (LintReport * Docker) :=
  let sandbox :=
    DockerSandbox_init docker_image 120 default_memory_limit default_cpu_limit d in
  if negb (_docker_available sandbox) then Some (LintDockerNotAvailable, d)
  else
    let full_command := with_setup setup_commands lint_command in
    match execute sandbox full_command code_files [] d with
    | None => None
    | Some (result, d') =>
        if exit_code result =? 0 then Some (LintingPassed, d')
        else Some (LintingIssues (Str.take 3000 (stdout result))
                     (if truthy (stderr result)
                      then Some (Str.take 1000 (stderr result)) else None), d')
    end.

(** *** The tools that clone a branch

    [github_token = os.getenv("GITHUB_TOKEN", "")] is a parameter. *)

Inductive BranchLintReport : Type :=
| BranchLintDockerNotAvailable
| BranchLintPassed (branch_name repo_name docker_image : string) (duration : Z)
    (output : option string)
    (* "LINT_STATUS: PASSED"; without output the report says "(no output)" *)
| BranchLintIssues (branch_name repo_name docker_image : string)
    (exit_code duration : Z) (output : string) (errors : option string).
    (* "LINT_STATUS: ISSUES_FOUND" *)

Definition lint_code_on_branch (github_token : string)
    (repo_name branch_name lint_command docker_image : string)
    (setup_commands : list string) (timeout : Z) (d : Docker)
  : option (BranchLintReport * Docker) :=
  let sandbox := DockerSandbox_init docker_image timeout "1g" default_cpu_limit d in
  if negb (_docker_available sandbox) then Some (BranchLintDockerNotAvailable, d)
  else
    let full_command :=
      on_branch_command github_token repo_name branch_name setup_commands lint_command in
    match execute sandbox full_command [] (token_env github_token) d with
    | None => None
    | Some (result, d') =>
        let stdout := redact github_token (stdout result) in
        let stderr := redact github_token (stderr result) in
        let is_success := exit_code result =? 0 in
        if is_success then
          Some (BranchLintPassed branch_name repo_name docker_image
                  (duration_seconds result)
                  (if truthy (Str.strip stdout) then Some (Str.take 2000 stdout)
                   else None), d')
        else
          Some (BranchLintIssues branch_name repo_name docker_image
                  (exit_code result) (duration_seconds result)
                  (Str.take 4000 stdout)
                  (if truthy stderr then Some (Str.take 2000 stderr) else None), d')
    end.

(** The first command of [run_tests_on_branch]: a string literal of three
    lines. *)
Definition install_git_lines : string :=
  Str.nl ++ "        apt-get update -qq && apt-get install -y -qq git > /dev/null 2>&1 ||"
  ++ Str.nl ++ "        apk add --no-cache git > /dev/null 2>&1 || yum install -y git > /dev/null 2>&1 || true"
  ++ Str.nl ++ "        ".

Inductive BranchTestsReport : Type :=
| BranchTestsDockerNotAvailable
| BranchTestResults (passed : bool)      (* TEST_STATUS: PASSED, else FAILED *)
    (branch_name repo_name docker_image : string) (exit_code duration : Z)
    (tests_passed tests_failed tests_skipped : Z)
    (output : string) (errors : option string).

Definition run_tests_on_branch (github_token : string)
    (repo_name branch_name test_command docker_image : string)
    (setup_commands : list string) (timeout : Z) (d : Docker)
  : option (BranchTestsReport * Docker) :=
  let sandbox := DockerSandbox_init docker_image timeout "2g" default_cpu_limit d in
  if negb (_docker_available sandbox) then Some (BranchTestsDockerNotAvailable, d)
  else
    let commands :=
      List.app
        [install_git_lines;
         "git clone --depth 1 --branch " ++ branch_name ++ " "
           ++ clone_url github_token repo_name ++ " /app/repo";
         "cd /app/repo"]
        setup_commands in
    let full_command :=
      Str.join " && " commands ++ " && cd /app/repo && " ++ test_command in
    match execute sandbox full_command [] (token_env github_token) d with
    | None => None
    | Some (result, d') =>
        let stdout := redact github_token (stdout result) in
        let stderr := redact github_token (stderr result) in
        let is_success :=
          ExecutionStatus_eqb (status result) SUCCESS && (exit_code result =? 0) in
        Some (BranchTestResults is_success branch_name repo_name docker_image
                (exit_code result) (duration_seconds result)
                (tests_passed result) (tests_failed result) (tests_skipped result)
                (Str.take 4000 stdout)
                (if truthy stderr then Some (Str.take 2000 stderr) else None), d')
    end.

Inductive BranchCoverageReport : Type :=
| BranchCoverageDockerNotAvailable
| BranchCoverage (passed : bool)         (* COVERAGE_STATUS: PASSED, else FAILED *)
    (branch_name repo_name docker_image : string)
    (coverage_str : option Q)            (* the figure, or "UNKNOWN" *)
    (coverage_passed : bool)             (* the mark behind it, and COVERAGE_GATE *)
    (min_coverage : Q) (exit_code duration : Z)
    (tests_passed tests_failed tests_skipped : Z)
    (output : string) (errors : option string).

Definition run_coverage_on_branch (github_token : string)
    (repo_name branch_name coverage_command docker_image : string)
    (setup_commands : list string) (min_coverage : Q) (timeout : Z) (d : Docker)
  : option (res BranchCoverageReport * Docker) :=
  let sandbox := DockerSandbox_init docker_image timeout "2g" default_cpu_limit d in
  if negb (_docker_available sandbox) then Some (Ret BranchCoverageDockerNotAvailable, d)
  else
    let full_command :=
      on_branch_command github_token repo_name branch_name setup_commands
        coverage_command in
    match execute sandbox full_command [] (token_env github_token) d with
    | None => None
    | Some (result, d') =>
        let stdout := redact github_token (stdout result) in
        let stderr := redact github_token (stderr result) in
        let combined := stdout ++ Str.nl ++ stderr in
        Some (
          (let! coverage := find_coverage branch_coverage_patterns combined in
           let tests_ok := exit_code result =? 0 in
           let coverage_passed :=
             match coverage with
             | Some c => Qle_bool min_coverage c
             | None => false
             end in
           let coverage_str :=
             match coverage with
             | Some c => if Qeq_bool c 0 then None else Some c
             | None => None
             end in
           Ret (BranchCoverage (tests_ok && coverage_passed) branch_name repo_name
                  docker_image coverage_str coverage_passed min_coverage
                  (exit_code result) (duration_seconds result)
                  (tests_passed result) (tests_failed result) (tests_skipped result)
                  (Str.take 4000 stdout)
                  (if truthy stderr then Some (Str.take 2000 stderr) else None))), d')
    end.

(** *** What a report shows of the container's output *)

Definition shown (output : string) (errors : option string) : list string :=
  match errors with
  | Some e => [output; e]
  | None => [output]
  end.

Definition lint_texts (r : BranchLintReport) : list string :=
  match r with
  | BranchLintDockerNotAvailable => []
  | BranchLintPassed _ _ _ _ (Some output) => [output]
  | BranchLintPassed _ _ _ _ None => []
  | BranchLintIssues _ _ _ _ _ output errors => shown output errors
  end.

Definition tests_texts (r : BranchTestsReport) : list string :=
  match r with
  | BranchTestsDockerNotAvailable => []
  | BranchTestResults _ _ _ _ _ _ _ _ _ output errors => shown output errors
  end.

Definition coverage_texts (r : BranchCoverageReport) : list string :=
  match r with
  | BranchCoverageDockerNotAvailable => []
  | BranchCoverage _ _ _ _ _ _ _ _ _ _ _ _ output errors => shown output errors
  end.

Definition mutation_texts (r : MutationReport) : list string :=
  match r with
  | SkippedOnBranch output errors => shown output errors
  | MutationBranchReport _ sm => [mut_raw sm]
  | _ => []
  end.

(** None of the texts contains the token. *)
Definition hidden (tok : string) (texts : list string) : Prop :=
  Forall (fun t => Str.contains tok t = false) texts.

(** A string without the character [c]. *)
Fixpoint lacks (c : ascii) (s : string) : bool :=
  match s with
  | EmptyString => true
  | String a s' => negb (Ascii.eqb a c) && lacks c s'
  end.

End Tools.


(** ** Pushing to and reading from a branch ([github_tools.py]) *)

Module Gateway.

Import Github.

Inductive PushReport : Type :=
| PushSuccess (branch_name : string) (files_created files_updated : list string)
    (* "SUCCESS: Files pushed to branch '{branch_name}'!" *)
| PushStopped (report : BranchReport)
    (* the message about a directory, returned from inside the loop *)
| PushError (error_msg : string).
    (* "Error pushing files: {error_msg}" *)

(** [push_files_to_branch]: the loop of [create_branch_with_files], without
    its validation and without creating the branch. *)
Definition push_files_to_branch (repo_name branch_name : string)
    (file_changes : list (string * string)) (commit_message : string)
    (repo : Repository) : res PushReport * Repository :=
  match push_files file_changes branch_name [] [] repo with
  | (Ret (inl report), repo') => (Ret (PushStopped report), repo')
  | (Ret (inr (files_created, files_updated)), repo') =>
      (Ret (PushSuccess branch_name files_created files_updated), repo')
  | (Raise (GithubException error_msg), repo') => (Ret (PushError error_msg), repo')
  | (Raise e, repo') => (Raise e, repo')
  end.

Inductive FileReport : Type :=
| FileText (content : string)
| FileIsDirectory (file_path : string)
    (* "Error: {file_path} is a directory, not a file." *)
| FileError (file_path error_msg : string).
    (* "Error reading {file_path}: {error_msg}" *)

(** [get_file_content]; both [except] clauses give the same message. *)
Definition get_file_content (repo_name file_path ref : string) (repo : Repository)
  : FileReport * Repository :=
  match get_contents file_path ref repo with
  | (Ret (ContentList _), repo') => (FileIsDirectory file_path, repo')
  | (Ret (ContentFile text), repo') => (FileText text, repo')
  | (Raise e, repo') => (FileError file_path (exn_str e), repo')
  end.

(** Between [repo] and [repo'] nothing changed but, on branch [b], the
    paths [ps]; no branch was removed, and [b] was not created. *)
Definition only_touched (b : string) (ps : list string) (repo repo' : Repository)
  : Prop :=
  (forall b', b' <> b -> branches repo' !! b' = branches repo !! b')
  /\ (branches repo !! b = None -> branches repo' !! b = None)
  /\ (forall t, branches repo !! b = Some t ->
        exists t', branches repo' !! b = Some t'
                   /\ forall p, p ∉ ps -> t' !! p = t !! p).

(** The paths of [file_changes] that are files of [t], and those that are
    not. *)
Definition present (t : gmap string string) (file_changes : list (string * string))
  : list string :=
  List.filter (fun p => bool_decide (is_Some (t !! p))) file_changes.*1.
Definition absent (t : gmap string string) (file_changes : list (string * string))
  : list string :=
  List.filter (fun p => negb (bool_decide (is_Some (t !! p)))) file_changes.*1.

(** [file_changes] can be pushed onto the tree [t]: no path twice, none a
    directory of [t], none below another. *)
Definition pushable (t : gmap string string) (file_changes : list (string * string))
  : Prop :=
  NoDup file_changes.*1
  /\ (forall p, p ∈ file_changes.*1 -> is_dir t p = false)
  /\ (forall p q, p ∈ file_changes.*1 -> q ∈ file_changes.*1 -> below p q = false).

End Gateway.


(** ** The polls of a monitoring run, one by one *)

Module Polling.

Import CI.






End Polling.


(** ** The worker pool and the orchestrator ([parallel_squads.py]) *)

Module Squads.






(** [f"async_worker_{task.issue_number}"] *)
Definition async_worker_id (issue_number : Z) : string :=
  "async_worker_" ++ pretty issue_number.












End Squads.


(** ** What is reported about a failure ([github_tools.py], [ci_tools.py]) *)

Module FailureDetails.

Import CI.

Record Step : Type := mkStep {
  step_name : string;
  step_conclusion : option string
}.

Record Job : Type := mkJob {
  job_name : string;
  job_conclusion : option string;
  steps : list Step
}.

(** A workflow run with its name and what [run.jobs()] gives. *)
Record DetailedRun : Type := mkDetailedRun {
  run : WorkflowRun;
  run_name : string;
  jobs : res (list Job)
}.

Definition failed (conclusion : option string) : bool :=
  match conclusion with
  | Some c => String.eqb c "failure"
  | None => false
  end.

Inductive FailureLogs : Type :=
| WorkflowLogs (workflow : string) (failed_jobs : list (string * list string))
    (* "**Workflow:** {run.name}", then each failed job with its failed steps *)
| NoFailureDetails
    (* "No failure details found." *)
| LogsError (msg : string).
    (* "Error retrieving logs: {msg}" *)

Definition failed_steps (j : Job) : list string :=
  List.map step_name (List.filter (fun s => failed (step_conclusion s)) (steps j)).

(** [get_ci_failure_logs], on the listing of the runs of the commit: the
    first run whose conclusion is failure, and only that one. *)
Definition get_ci_failure_logs (listing : res (list DetailedRun)) : FailureLogs :=
  match listing with
  | Raise e => LogsError (exn_str e)
  | Ret runs =>
      match List.find (fun r => failed (run_conclusion (run r))) runs with
      | Some r =>
          match jobs r with
          | Ret js =>
              WorkflowLogs (run_name r)
                (List.map (fun j => (job_name j, failed_steps j))
                          (List.filter (fun j => failed (job_conclusion j)) js))
          | Raise e => LogsError (exn_str e)
          end
      | None => NoFailureDetails
      end
  end.

(** The loop of [_extract_failed_jobs] and [_extract_failed_jobs_for_sha]:
    an exception ends it, and what was collected so far is returned. *)
Fixpoint collect_failed (runs : list DetailedRun) (acc : list string) : list string :=
  match runs with
  | [] => acc
  | r :: tl =>
      if failed (run_conclusion (run r)) then
        match jobs r with
        | Ret js =>
            collect_failed tl
              (acc ++ List.map (fun j => run_name r ++ "/" ++ job_name j)
                        (List.filter (fun j => failed (job_conclusion j)) js))
        | Raise _ => acc
        end
      else collect_failed tl acc
  end.

Definition _extract_failed_jobs (listing : res (list DetailedRun)) : list string :=
  match listing with
  | Ret runs => collect_failed runs []
  | Raise _ => []
  end.

(** What [get_ci_status] reads of the same listing. *)
Definition runs_of (listing : res (list DetailedRun)) : res (list WorkflowRun) :=
  match listing with
  | Ret runs => Ret (List.map run runs)
  | Raise e => Raise e
  end.

End FailureDetails.


(** ** The list of assigned issues ([github_tools.py]) *)

Module Issues.

(** An issue as the platform lists it. Pull requests come in the same
    listing, with [pull_request] set. *)
Record ApiIssue : Type := mkApiIssue {
  api_number : Z;
  api_title : string;
  api_body : option string;
  api_labels : list string;
  api_assignees : list string;
  api_created_at : string;       (* [issue.created_at.isoformat()] *)
  api_pull_request : bool
}.

Record IssueData : Type := mkIssueData {
  number : Z;
  title : string;
  body : string;
  labels : list string;
  assignees : list string;
  created_at : string;
  priority : string
}.

(** ["high" if any(p in labels_list for p in ["critical", "urgent", "P0", "P1"])
     else "normal"] *)
Definition priority_of (labels_list : list string) : string :=
  if existsb (fun p => existsb (String.eqb p) labels_list)
             ["critical"; "urgent"; "P0"; "P1"]
  then "high" else "normal".

Definition issue_data (issue : ApiIssue) : IssueData :=
  {| number := api_number issue;
     title := api_title issue;
     body := match api_body issue with Some b => b | None => EmptyString end;
     labels := api_labels issue;
     assignees := api_assignees issue;
     created_at := api_created_at issue;
     priority := priority_of (api_labels issue) |}.

(** The loop over the listing: pull requests are skipped. *)
Definition collect (issues : list ApiIssue) : list IssueData :=
  List.map issue_data (List.filter (fun i => negb (api_pull_request i)) issues).

(** The sort key [(0 if x.priority == "high" else 1, x.created_at)] and the
    comparison of two keys: tuples compare by their first components, then
    by their second; strings compare character by character. *)
Definition rank (x : IssueData) : Z :=
  if String.eqb (priority x) "high" then 0 else 1.

Definition key_compare (a b : IssueData) : comparison :=
  match rank a ?= rank b with
  | Eq => String.compare (created_at a) (created_at b)
  | c => c
  end.

(** [list.sort] is stable: an element goes before the first one that is
    greater, so behind those that are equal. *)
Fixpoint insert (x : IssueData) (l : list IssueData) : list IssueData :=
  match l with
  | [] => [x]
  | y :: tl =>
      match key_compare x y with
      | Lt => x :: y :: tl
      | _ => y :: insert x tl
      end
  end.

Definition sort (l : list IssueData) : list IssueData :=
  fold_left (fun acc x => insert x acc) l [].

Inductive IssuesReport : Type :=
| NoIssuesAssigned (user repo_name : string)
    (* "No issues assigned to {user} in {repo_name}." *)
| IssuesAssigned (user : string) (issues : list IssueData)
    (* "## Issues Assigned to {user}", then each issue's [to_prompt()] *)
| ErrorFetchingIssues (msg : string)
    (* "Error fetching issues: {msg}" *)
| ErrorFetchingAssigned (msg : string).
    (* "Error fetching assigned issues: {msg}" *)

(** [get_my_assigned_issues], on what [repo.get_issues(...)] lists. *)
Definition get_my_assigned_issues (current_user repo_name : string)
    (listing : res (list ApiIssue)) : IssuesReport :=
  match listing with
  | Raise (GithubException msg) => ErrorFetchingIssues msg
  | Raise e => ErrorFetchingAssigned (exn_str e)
  | Ret issues =>
      match collect issues with
      | [] => NoIssuesAssigned current_user repo_name
      | issue_list => IssuesAssigned current_user (sort issue_list)
      end
  end.

(** [a] may stand before [b] in the report: [a] is high and [b] is not, or
    they have the same priority and [a] was not created after [b]. *)
Definition may_precede (a b : IssueData) : Prop :=
  rank a < rank b
  \/ (rank a = rank b /\ String.compare (created_at a) (created_at b) <> Gt).

End Issues.


(** ** Environment templates ([github_tools.py]) *)

Module Env.

Import Github.

(** [c.upper()], restricted to ASCII. *)
Definition upper_char (c : ascii) : ascii :=
  let n := nat_of_ascii c in
  if ((97 <=? n) && (n <=? 122))%nat then ascii_of_nat (n - 32) else c.

Fixpoint upper (s : string) : string :=
  match s with
  | EmptyString => EmptyString
  | String c s' => String (upper_char c) (upper s')
  end.

(** [s.split("\n")] *)
Fixpoint split_lines (s : string) : list string :=
  match s with
  | EmptyString => [EmptyString]
  | String c s' =>
      if Ascii.eqb c Str.newline then EmptyString :: split_lines s'
      else match split_lines s' with
           | line :: tl => String c line :: tl
           | [] => [String c EmptyString]
           end
  end.

(** [line.split("=")[0]] *)
Fixpoint before_equals (line : string) : string :=
  match line with
  | EmptyString => EmptyString
  | String c s' => if Ascii.eqb c "=" then EmptyString else String c (before_equals s')
  end.

Definition starts_with (p s : string) : bool :=
  match Str.strip_prefix p s with Some _ => true | None => false end.

(** [line = line.strip()
     if line and not line.startswith("#") and "=" in line:
         var_name = line.split("=")[0].strip()] *)
Definition env_var_of (line : string) : option string :=
  let line := Str.strip line in
  if Sandbox.truthy line && negb (starts_with "#" line) && Str.contains "=" line
  then Some (Str.strip (before_equals line))
  else None.

Definition parse_env (content : string) : list string :=
  omap env_var_of (split_lines content).

(** The secrets and variables of the repository, as
    [repo.get_secrets()] and [repo.get_variables()] list them; each listing
    may raise instead. *)
Record Settings : Type := mkSettings {
  secrets_listing : res (list string);
  variables_listing : res (list (string * string))
}.

(** [try: secrets = [s.name for s in repo.get_secrets()]
     except Exception: secrets = []] *)
Definition secrets_of (st : Settings) : list string :=
  match secrets_listing st with
  | Ret names => names
  | Raise _ => []
  end.

(** [try: variables = {v.name: v.value for v in repo.get_variables()}
     except Exception: variables = {}]; in a dict the last value of a key
    stays. *)
Definition variables_of (st : Settings) : gmap string string :=
  match variables_listing st with
  | Ret pairs => list_to_map (reverse pairs)
  | Raise _ => ∅
  end.

Definition is_secret (st : Settings) (name : string) : bool :=
  existsb (String.eqb name) (secrets_of st).

(** The loop over the template names: the first file that can be read is
    taken; a GithubException goes on to the next name. A directory of that
    name has no [encoding], which is an AttributeError. *)
Fixpoint find_template (template_files : list string) (ref : string)
    (repo : Repository) : res (option (string * string)) * Repository :=
  match template_files with
  | [] => (Ret None, repo)
  | template_file :: tl =>
      match get_contents template_file ref repo with
      | (Ret (ContentFile text), repo') => (Ret (Some (template_file, text)), repo')
      | (Ret (ContentList _), repo') =>
          (Raise (OtherException "'list' object has no attribute 'encoding'"), repo')
      | (Raise (GithubException _), repo') => find_template tl ref repo'
      | (Raise e, repo') => (Raise e, repo')
      end
  end.

(** *** [get_env_template] *)

Inductive Availability : Type :=
| AsSecret                     (* "Available as GitHub Secret" *)
| AsVariable (value : string)  (* "Available as GitHub Variable: `{value}`" *)
| NotAvailable.                (* "Not found in secrets/variables" *)

Inductive TemplateReport : Type :=
| NoTemplate
    (* "No environment template file found (.env.example, .env.template, etc.)" *)
| Template (found_file env_content : string) (mapping : list (string * Availability))
| TemplateError (msg : string).
    (* "Error reading environment template: {msg}" *)

Definition template_files : list string :=
  [".env.example"; ".env.template"; ".env.sample"; "env.example"; ".env.test.example"].

Definition availability (st : Settings) (var : string) : Availability :=
  if is_secret st var then AsSecret
  else match variables_of st !! var with
       | Some value => AsVariable value
       | None => NotAvailable
       end.

Definition get_env_template (repo_name ref : string) (st : Settings)
    (repo : Repository) : TemplateReport * Repository :=
  match find_template template_files ref repo with
  | (Raise e, repo') => (TemplateError (exn_str e), repo')
  | (Ret None, repo') => (NoTemplate, repo')
  | (Ret (Some (found_file, env_content)), repo') =>
      if negb (Sandbox.truthy env_content) then (NoTemplate, repo')
      else (Template found_file env_content
              (List.map (fun var => (var, availability st var)) (parse_env env_content)),
            repo')
  end.

(** *** [build_env_from_github] *)

(** [d[k] = v] on a dict kept in insertion order. *)
Fixpoint dict_set (k v : string) (d : list (string * string)) : list (string * string) :=
  match d with
  | [] => [(k, v)]
  | (k', v') :: tl =>
      if String.eqb k' k then (k, v) :: tl else (k', v') :: dict_set k v tl
  end.

Record EnvConfig : Type := mkEnvConfig {
  from_secrets : list (string * string);     (* env var -> secret name *)
  from_variables : list (string * string);   (* env var -> value *)
  missing : list string
}.

(** Where the value of an env var comes from: the if-chain of the loop. *)
Inductive Source : Type :=
| FromSecret (secret_name : string)
| FromVariable (value : string)
| Missing.

Definition classify (st : Settings) (var : string) : Source :=
  if is_secret st var then FromSecret var
  else if is_secret st (upper var) then FromSecret (upper var)
  else match variables_of st !! var with
       | Some value => FromVariable value
       | None =>
           match variables_of st !! upper var with
           | Some value => FromVariable value
           | None => Missing
           end
       end.

Definition add_var (st : Settings) (config : EnvConfig) (var : string) : EnvConfig :=
  match classify st var with
  | FromSecret name =>
      {| from_secrets := dict_set var name (from_secrets config);
         from_variables := from_variables config; missing := missing config |}
  | FromVariable value =>
      {| from_secrets := from_secrets config;
         from_variables := dict_set var value (from_variables config);
         missing := missing config |}
  | Missing =>
      {| from_secrets := from_secrets config;
         from_variables := from_variables config;
         missing := missing config ++ [var] |}
  end.

Definition build_config (st : Settings) (env_vars : list string) : EnvConfig :=
  fold_left (add_var st) env_vars
    {| from_secrets := []; from_variables := []; missing := [] |}.

Inductive BuildReport : Type :=
| EnvConfiguration (config : EnvConfig)
    (* "**Environment Configuration for Tests:**" and the three parts *)
| BuildError (msg : string).
    (* "Error building env config: {msg}" *)

Definition build_template_files : list string :=
  [".env.example"; ".env.template"; ".env.sample"].

Definition build_env_from_github (repo_name ref : string) (st : Settings)
    (repo : Repository) : BuildReport * Repository :=
  match find_template build_template_files ref repo with
  | (Raise e, repo') => (BuildError (exn_str e), repo')
  | (Ret None, repo') => (EnvConfiguration (build_config st []), repo')
  | (Ret (Some (_, decoded)), repo') =>
      (EnvConfiguration (build_config st (parse_env decoded)), repo')
  end.

(** Every variable seen so far is in the part of the configuration that
    its source names, and in no other; no variable is in a dict twice. *)
Definition sorted_out (st : Settings) (seen : list string) (config : EnvConfig) : Prop :=
  (forall var name, (var, name) ∈ from_secrets config
                    <-> var ∈ seen /\ classify st var = FromSecret name)
  /\ (forall var value, (var, value) ∈ from_variables config
                        <-> var ∈ seen /\ classify st var = FromVariable value)
  /\ (forall var, var ∈ missing config <-> var ∈ seen /\ classify st var = Missing)
  /\ NoDup (from_secrets config).*1
  /\ NoDup (from_variables config).*1.

End Env.


(** ** Scripted daemons, repositories and runs *)

Module Scenarios.

Import Sandbox.

(** The baseline run passes; the mutation run prints [second]. *)
Definition passing_then (second : string) : Docker :=
  {| daemon_up := true;
     reply := fun history _ =>
                match history with
                | [] => Exits 0 (Text "3 passed") NoData 2
                | _ => Exits 0 (Text second) NoData 40
                end;
     calls := [] |}.


(** A failing command whose error message quotes the clone URL. *)
Definition quotes_clone_url : Docker :=
  {| daemon_up := true;
     reply := fun _ _ =>
                Exits 128 (Text "Cloning into /app/repo")
                  (Text "fatal: unable to access https://ghp_s3cret@github.com/acme/widgets.git")
                  3;
     calls := [] |}.

(** A coverage line with a version number where the figure should be. *)
Definition malformed_coverage : Docker :=
  {| daemon_up := true;
     reply := fun _ _ => Exits 0 (Text "Coverage: 7.4.1% (coverage.py)") NoData 5;
     calls := [] |}.

(** A repository with a main branch and a feature branch. *)
Definition trunk : gmap string string :=
  <["README.md" := "# Widgets"]> (<["src/app.py" := "print('hi')"]> ∅).
Definition feature : gmap string string :=
  <["src/app.py" := "print('hello')"]> ∅.
Definition repository : Github.Repository :=
  {| Github.branches := <["main" := trunk]> (<["fix-42" := feature]> ∅);
     Github.oplog := [] |}.


(** Two completed runs: the build passed, the tests ran into the time
    limit of the platform. *)
Definition timed_out_runs : list FailureDetails.DetailedRun :=
  [FailureDetails.mkDetailedRun (CI.mkRun "completed" (Some "success")) "build"
     (Ret [FailureDetails.mkJob "compile" (Some "success") []]);
   FailureDetails.mkDetailedRun (CI.mkRun "completed" (Some "timed_out")) "tests"
     (Ret [FailureDetails.mkJob "unit" (Some "cancelled") []])].

(** Two failed runs. *)
Definition two_failed_runs : list FailureDetails.DetailedRun :=
  [FailureDetails.mkDetailedRun (CI.mkRun "completed" (Some "failure")) "lint"
     (Ret [FailureDetails.mkJob "ruff" (Some "failure")
             [FailureDetails.mkStep "checkout" (Some "success");
              FailureDetails.mkStep "ruff check" (Some "failure")]]);
   FailureDetails.mkDetailedRun (CI.mkRun "completed" (Some "failure")) "tests"
     (Ret [FailureDetails.mkJob "unit" (Some "failure") []])].

(** Three issues and a pull request, as the platform lists them. *)
Definition issue_listing : list Issues.ApiIssue :=
  [Issues.mkApiIssue 5 "Add dark mode" None ["enhancement"] ["dev"]
     "2024-03-01T09:00:00+00:00" false;
   Issues.mkApiIssue 4 "Bump deps" (Some "automated") [] ["dev"]
     "2024-01-15T09:00:00+00:00" true;
   Issues.mkApiIssue 3 "Typo in README" None ["docs"] ["dev"]
     "2024-01-02T09:00:00+00:00" false;
   Issues.mkApiIssue 7 "Login fails" (Some "500 on POST /login") ["bug"; "P1"] ["dev"]
     "2024-02-01T09:00:00+00:00" false].

(** A repository whose [.env.example] is empty and whose [.env.template]
    names two variables. *)
Definition env_repository : Github.Repository :=
  {| Github.branches :=
       <["main" := <[".env.example" := EmptyString]>
                     (<[".env.template" := "DB_URL=postgres://localhost/app
API_KEY="]> ∅)]> ∅;
     Github.oplog := [] |}.

(** A mutmut summary. *)
Definition mutmut_summary : Docker :=
  passing_then "12 mutants, 9 killed, 3 survived".

End Scenarios.

(** ** Sample environments

    Concrete daemons, used to run the sandbox tools on definite inputs. *)

Module Samples.

Import Sandbox.

(** A daemon that answers every execution the same way. *)
Definition docker_always (r : Reply) : Docker :=
  {| daemon_up := true; reply := fun _ _ => r; calls := [] |}.

(** A daemon whose answer depends on how many executions came before. *)
Definition docker_script (first later : Reply) : Docker :=
  {| daemon_up := true;
     reply := fun history _ => match history with [] => first | _ => later end;
     calls := [] |}.

Definition docker_down : Docker :=
  {| daemon_up := false; reply := fun _ _ => Blocks; calls := [] |}.

(** A sandbox told to allow one second. *)
Definition one_second_sandbox : DockerSandbox :=
  DockerSandbox_init "python:3.12-slim" 1 default_memory_limit default_cpu_limit
    (docker_always Blocks).

(** [sleep 5] finishes normally after five seconds. *)
Definition sleeps_five_seconds : Docker := docker_always (Exits 0 NoData NoData 5).

(** A test run that exits with code 1. *)
Definition failing_tests : Docker :=
  docker_always (Exits 1 (Text "1 failed, 3 passed") (Text "AssertionError") 2).


(** Stryker output with two mutants that no test covers and no score line. *)
Definition stryker_no_score : string :=
  "with 10 mutant(s)" ++ Str.nl ++ "8/10 tested (2 survived, 0 timed out)"
    ++ Str.nl ++ "[NoCoverage] a.ts:1" ++ Str.nl ++ "[NoCoverage] b.ts:2".



(** A commit with two finished workflow runs, one of them failed. *)
Definition one_run_failed : CI.CIView :=
  {| CI.workflow_runs :=
       Ret [CI.mkRun "completed" (Some "success"); CI.mkRun "completed" (Some "failure")];
     CI.combined_status := Ret (CI.mkCombined 1 "success");
     CI.failure_logs := "**Workflow:** tests";
     CI.failed_job_names := ["tests/unit"] |}.

(** A commit on which neither source has anything. *)
Definition no_ci : CI.CIView :=
  {| CI.workflow_runs := Ret [];
     CI.combined_status := Ret (CI.mkCombined 0 "pending");
     CI.failure_logs := "No failure details found.";
     CI.failed_job_names := [] |}.


(** A commit whose only workflow run is [status], with [conclusion]. *)
Definition single_run (status : string) (conclusion : option string) : CI.CIView :=
  {| CI.workflow_runs := Ret [CI.mkRun status conclusion];
     CI.combined_status := Ret (CI.mkCombined 0 "pending");
     CI.failure_logs := "No failure details found.";
     CI.failed_job_names := [] |}.

(** A run that is seen in progress twice and green on the third poll;
    queries take no time. *)
Definition green_on_third_poll : CI.World :=
  {| CI.pull := Ret "0a1b2c3d";
     CI.view := fun i => if (i <? 2)%nat then single_run "in_progress" None
                         else single_run "completed" (Some "success");
     CI.latency := fun _ => 0 |}.


End Samples.

(** ** Properties of the sandbox executor *)

Section SandboxProperties.

Import Sandbox.

(** *** The parser on concrete tool output *)

Example parse_pytest_with_coverage :
  _parse_test_output "12 passed, 2 failed" "TOTAL 100 20 80%"
  = Ret {| status := SUCCESS; exit_code := 0; stdout := "12 passed, 2 failed";
           stderr := "TOTAL 100 20 80%"; duration_seconds := 0;
           tests_passed := 12; tests_failed := 2; tests_skipped := 0;
           coverage_percent := Some (inject_Z 80) |}.
Proof. vm_compute. reflexivity. Qed.

(** Contributions add up: the Jest summary line also matches the pytest
    patterns, and Maven's "Skipped:" also matches the dotnet pattern. *)
Example parse_jest_counts_twice :
  exists r,
    _parse_test_output "Tests: 3 passed, 1 failed, 4 total" EmptyString = Ret r
    /\ tests_passed r = 6 /\ tests_failed r = 2.
Proof. eexists. split; [vm_compute; reflexivity | split; reflexivity]. Qed.

Example parse_maven :
  exists r,
    _parse_test_output "Tests run: 10, Failures: 1, Errors: 2, Skipped: 3" EmptyString = Ret r
    /\ tests_passed r = 4 /\ tests_failed r = 3 /\ tests_skipped r = 6.
Proof. eexists. split; [vm_compute; reflexivity | repeat split; reflexivity]. Qed.

Example parse_go_markers :
  exists r,
    _parse_test_output ("--- PASS: TestA" ++ Str.nl ++ "--- PASS: TestB" ++ Str.nl
                          ++ "--- FAIL: TestC")
      "coverage: 85.5% of statements" = Ret r
    /\ tests_passed r = 2 /\ tests_failed r = 1
    /\ coverage_percent r = Some (855 # 10).
Proof. eexists. split; [vm_compute; reflexivity | repeat split; reflexivity]. Qed.

(** A captured number with two dots makes [float] raise; inside [execute]
    the exception becomes an ERROR result. *)
Example parse_raises_on_bad_float :
  raises (_parse_test_output "All files | 1.2.3" EmptyString).
Proof. vm_compute. exact I. Qed.

Example execute_turns_parse_error_into_error :
  exists r d',
    execute Samples.one_second_sandbox "npm test" [] []
      (Samples.docker_always (Exits 0 (Text "All files | 1.2.3") NoData 2))
    = Some (r, d')
    /\ status r = ERROR /\ exit_code r = -1.
Proof. eexists. eexists. split; [vm_compute; reflexivity | split; reflexivity]. Qed.

(** A mutation run whose baseline passes and whose Stryker output has no
    score line: 8 of 10 mutants tested, 2 survived, 2 without coverage. *)
Example mutation_run_on_branch :
  exists sm d',
    run_mutation_tests_on_branch EmptyString "acme/widgets" "fix-42" "npx stryker run" "node:22"
      ["npm install"] "npm test" 60 900
      (Samples.docker_script (Exits 0 (Text "Tests: 5 passed, 5 total") NoData 3)
         (Exits 0 (Text Samples.stryker_no_score) NoData 40))
    = Some (Ret (MutationBranchReport "fix-42" sm), d')
    /\ mut_total sm = 10 /\ mut_killed sm = 6 /\ mut_no_coverage sm = 2
    /\ (mut_score sm == 75)%Q /\ mut_passed sm = true
    /\ length (calls d') = 2%nat.
Proof.
  eexists. eexists. split; [vm_compute; reflexivity |].
  repeat split; reflexivity.
Qed.

Example no_daemon_no_run :
  run_mutation_tests [] "mutmut run" "python:3.12-slim" [] "pytest" Samples.docker_down
  = Some (Ret MutationDockerNotAvailable, Samples.docker_down).
Proof. reflexivity. Qed.

(** *** Status and exit code *)

Lemma on_exception_error e duration :
  status (on_exception e duration) = ERROR /\ exit_code (on_exception e duration) = -1.
Proof. destruct e; split; reflexivity. Qed.

(** Every result of [execute] is one of three kinds. *)
Lemma execute_cases self command code_files env_vars d r d' :
  execute self command code_files env_vars d = Some (r, d') ->
  (status r = ERROR /\ exit_code r = -1)
  \/ (status r = SUCCESS /\ exit_code r = 0)
  \/ (status r = FAILURE /\ exit_code r <> 0).
Proof.
  unfold execute. destruct (_docker_available self); simpl.
  - destruct (reply d (calls d) _) as [e el | code out err el |]; [| | discriminate].
    + intros [= <- _]. left. apply on_exception_error.
    + destruct (decode out) as [so | e]; simpl;
        [destruct (decode err) as [se | e]; simpl;
         [destruct (_parse_test_output so se) as [pr | e]; simpl |] |];
        intros [= <- _]; try (left; apply on_exception_error).
      right. simpl. destruct (code =? 0) eqn:Hc.
      * left. apply Z.eqb_eq in Hc. auto.
      * right. apply Z.eqb_neq in Hc. auto.
  - intros [= <- _]. left. split; reflexivity.
Qed.

(** [execute] never produces the status [TIMEOUT]. *)
Lemma execute_never_timeout self command code_files env_vars d r d' :
  execute self command code_files env_vars d = Some (r, d') -> status r <> TIMEOUT.
Proof.
  intros H. destruct (execute_cases _ _ _ _ _ _ _ H) as [[E _] | [[E _] | [E _]]];
    rewrite E; discriminate.
Qed.

(** The [timeout] field has no influence on [execute]. *)
Lemma execute_timeout_irrelevant img t1 t2 mem cpu avail command code_files env_vars d :
  execute (mkDockerSandbox img t1 mem cpu avail) command code_files env_vars d
  = execute (mkDockerSandbox img t2 mem cpu avail) command code_files env_vars d.
Proof. reflexivity. Qed.

(** The PASSED label of [run_in_sandbox] follows the exit code. *)
Lemma run_in_sandbox_label command docker_image code_files setup_commands env_vars
    timeout memory_limit d passed code duration img output errors d' :
  run_in_sandbox command docker_image code_files setup_commands env_vars timeout
    memory_limit d
  = Some (SandboxExecutionResult passed code duration img output errors, d') ->
  (passed = true <-> code = 0).
Proof.
  unfold run_in_sandbox. destruct (negb _); [discriminate |].
  destruct (execute _ _ _ _ _) as [[r d1] |] eqn:E; [| discriminate].
  intros [= <- <- _ _ _ _ _].
  destruct (execute_cases _ _ _ _ _ _ _ E) as [[Es Ec] | [[Es Ec] | [Es Ec]]];
    rewrite Es, ?Ec; simpl; split; intros; auto; try discriminate; try lia.
Qed.

(** C1. Every result returned by [DockerSandbox.execute] has status success
    exactly when its exit code is 0, and a non-zero exit code comes with
    status failure or error, never success; the PASSED label that the
    wrapper [run_in_sandbox] derives from the result follows the exit code
    in the same way. *)
Theorem execute_success_iff_exit_zero :
  (forall self command code_files env_vars d r d',
     execute self command code_files env_vars d = Some (r, d') ->
     (status r = SUCCESS <-> exit_code r = 0)
     /\ (exit_code r <> 0 -> status r = FAILURE \/ status r = ERROR))
  /\ (forall command docker_image code_files setup_commands env_vars timeout
             memory_limit d passed code duration img output errors d',
        run_in_sandbox command docker_image code_files setup_commands env_vars
          timeout memory_limit d
        = Some (SandboxExecutionResult passed code duration img output errors, d') ->
        (passed = true <-> code = 0)).
Proof.
  split.
  - intros self command code_files env_vars d r d' H.
    destruct (execute_cases _ _ _ _ _ _ _ H) as [[Es Ec] | [[Es Ec] | [Es Ec]]];
      rewrite Es; repeat split; try (rewrite Ec); intros; auto;
      try discriminate; try lia; try contradiction.
  - intros. eapply run_in_sandbox_label; eassumption.
Qed.

Lemma execute_success_iff_exit_zero_witness :
  (exists r d',
     execute Samples.one_second_sandbox "pytest" [] [] Samples.failing_tests = Some (r, d')
     /\ (status r = SUCCESS <-> exit_code r = 0)
     /\ exit_code r = 1 /\ status r = FAILURE)
  /\ (exists passed code duration img output errors d',
        run_in_sandbox "pytest" "python:3.12-slim" [] ["pip install pytest"] [] 300 "1g"
          Samples.failing_tests
        = Some (SandboxExecutionResult passed code duration img output errors, d')
        /\ (passed = true <-> code = 0) /\ code = 1).
Proof.
  split.
  - eexists. eexists. split; [vm_compute; reflexivity |].
    split; [| split; reflexivity].
    refine (proj1 (proj1 execute_success_iff_exit_zero Samples.one_second_sandbox
                     "pytest" [] [] Samples.failing_tests _ _ _)).
    vm_compute. reflexivity.
  - do 7 eexists. split; [vm_compute; reflexivity |].
    split; [| reflexivity].
    refine (proj2 execute_success_iff_exit_zero "pytest" "python:3.12-slim" []
              ["pip install pytest"] [] 300 "1g" Samples.failing_tests
              _ _ _ _ _ _ _ _).
    vm_compute. reflexivity.
Defined.

(** C2, on the code. A sandbox created with a timeout of one second runs a
    command that needs five: [execute] waits for it and reports success with
    a duration of five seconds; and when the command never finishes,
    [execute] never returns. No result carries the status timeout. *)
Theorem execute_outlasts_timeout :
  timeout Samples.one_second_sandbox = 1
  /\ (exists r d',
        execute Samples.one_second_sandbox "sleep 5" [] [] Samples.sleeps_five_seconds
        = Some (r, d')
        /\ status r = SUCCESS /\ duration_seconds r = 5)
  /\ execute Samples.one_second_sandbox "sleep infinity" [] []
       (Samples.docker_always Blocks) = None.
Proof.
  split; [reflexivity |]. split; [| reflexivity].
  eexists. eexists. split; [vm_compute; reflexivity |]. split; reflexivity.
Qed.

(** *** Output in which no pattern matches *)

Lemma search_none_inv icase p s :
  Re.search icase p s = None ->
  Re.match_at icase p s = None
  /\ (forall c s', s = String c s' -> Re.search icase p s' = None).
Proof.
  destruct s as [| c s']; simpl; destruct (Re.match_at icase p _); try discriminate.
  - intros _. split; [reflexivity | discriminate].
  - intros H. split; [reflexivity |]. intros c0 s0 [= _ <-]. exact H.
Qed.

Lemma search_none_count_fuel icase p fuel : forall s,
  Re.search icase p s = None -> Re.count_fuel fuel icase p s = 0%nat.
Proof.
  induction fuel as [| fuel IH]; intros s H; [reflexivity |].
  destruct (search_none_inv _ _ _ H) as [Hm Hs]. simpl. rewrite Hm.
  destruct s as [| c s']; [reflexivity |]. apply IH. apply (Hs c s'). reflexivity.
Qed.

Lemma search_none_findall p s :
  Re.search false p s = None -> findall_len p s = 0.
Proof.
  intros H. unfold findall_len, Re.findall_count.
  rewrite (search_none_count_fuel _ _ _ _ H). reflexivity.
Qed.

Ltac split_Forall H :=
  repeat match type of H with
         | Forall _ (_ :: _) =>
             let H1 := fresh "Hp" in
             let H2 := fresh "Hrest" in
             pose proof (Forall_inv H) as H1; cbv beta in H1;
             pose proof (Forall_inv_tail H) as H2;
             clear H; rename H2 into H
         end.

Lemma unmatched_parse stdout stderr :
  unmatched (stdout ++ Str.nl ++ stderr) ->
  _parse_test_output stdout stderr
  = Ret {| status := SUCCESS; exit_code := 0; stdout := stdout; stderr := stderr;
           duration_seconds := 0; tests_passed := 0; tests_failed := 0;
           tests_skipped := 0; coverage_percent := None |}.
Proof.
  unfold unmatched, count_patterns, marker_patterns, coverage_patterns.
  cbn [app]. intros H. split_Forall H.
  unfold _parse_test_output, add_count, try_coverage.
  repeat match goal with
         | Hs : Re.search false ?p _ = None |- _ =>
             first [rewrite (search_none_findall _ _ Hs) | idtac];
             first [rewrite Hs | idtac]; clear Hs
         end.
  reflexivity.
Qed.

Lemma mutation_unmatched_parse combined :
  mutation_unmatched combined ->
  parse_mutation_output combined = Ret (0, 0, 0, 0, 0, 0%Q).
Proof.
  unfold mutation_unmatched, mut_total_patterns, mut_killed_patterns,
    mut_survived_patterns, mut_score_patterns.
  cbn [app]. intros [H1 H2]. split_Forall H1. split_Forall H2.
  unfold parse_mutation_output, scan_mutation_output, scan_mutmut, first_int,
    first_float, mut_total_patterns, mut_killed_patterns, mut_survived_patterns,
    mut_score_patterns, first_search.
  repeat match goal with
         | Hs : Re.search false ?p _ = None |- _ =>
             first [rewrite (search_none_findall _ _ Hs) | idtac];
             first [rewrite Hs | idtac]; clear Hs
         | Hs : Re.search true ?p _ = None |- _ => rewrite Hs; clear Hs
         end.
  reflexivity.
Qed.

(** C3, as the code has it. When no test-count or coverage pattern matches
    the output, the parser raises nothing and reports the coverage as
    unknown ([None]); the three test counts are reported as 0. Likewise,
    when no mutation pattern matches, the mutation parse raises nothing and
    leaves every count and the score at 0. *)
Theorem unmatched_output_defaults :
  (forall stdout stderr,
     unmatched (stdout ++ Str.nl ++ stderr) ->
     exists r,
       _parse_test_output stdout stderr = Ret r
       /\ coverage_percent r = None
       /\ tests_passed r = 0 /\ tests_failed r = 0 /\ tests_skipped r = 0)
  /\ (forall combined,
        mutation_unmatched combined ->
        parse_mutation_output combined = Ret (0, 0, 0, 0, 0, 0%Q)).
Proof.
  split.
  - intros stdout stderr H. eexists. split; [apply unmatched_parse; exact H |].
    repeat split; reflexivity.
  - exact mutation_unmatched_parse.
Qed.

Lemma unmatched_done : unmatched ("done" ++ Str.nl ++ EmptyString).
Proof. repeat constructor. Qed.

Lemma mutation_unmatched_done : mutation_unmatched "done".
Proof. split; repeat constructor. Qed.

Lemma unmatched_output_defaults_witness :
  (exists r,
     _parse_test_output "done" EmptyString = Ret r
     /\ coverage_percent r = None
     /\ tests_passed r = 0 /\ tests_failed r = 0 /\ tests_skipped r = 0)
  /\ parse_mutation_output "done" = Ret (0, 0, 0, 0, 0, 0%Q).
Proof.
  split.
  - exact (proj1 unmatched_output_defaults "done" EmptyString unmatched_done).
  - exact (proj2 unmatched_output_defaults "done" mutation_unmatched_done).
Defined.

(** C3, as stated, fails on the test counts: the output "done" matches no
    pattern and the parser reports 0 passed tests for it, the same number it
    reports for the output "0 passed", where the zero was measured. *)
Lemma unmatched_count_is_zero_not_unknown :
  unmatched ("done" ++ Str.nl ++ EmptyString)
  /\ (exists r, _parse_test_output "done" EmptyString = Ret r /\ tests_passed r = 0)
  /\ Re.search false p_passed ("0 passed" ++ Str.nl ++ EmptyString) <> None
  /\ (exists r, _parse_test_output "0 passed" EmptyString = Ret r /\ tests_passed r = 0).
Proof.
  split; [exact unmatched_done |].
  split; [eexists; split; [vm_compute; reflexivity | reflexivity] |].
  split; [vm_compute; discriminate |].
  eexists; split; [vm_compute; reflexivity | reflexivity].
Qed.

(** *** The baseline of a mutation run *)

Lemma execute_calls self command code_files env_vars d r d' :
  _docker_available self = true ->
  execute self command code_files env_vars d = Some (r, d') ->
  calls d' = (calls d ++ [mkCall (image self) ("sh -c '" ++ command ++ "'")
                            code_files env_vars])%list.
Proof.
  unfold execute. intros ->. simpl.
  destruct (reply d (calls d) _) as [e el | code out err el |]; [| | discriminate].
  - intros [= _ <-]. reflexivity.
  - destruct (let! stdout := decode out in _); intros [= _ <-]; reflexivity.
Qed.

(** C4. When the baseline test command of a mutation run fails (the
    sandbox is up and the baseline execution ends with a status other than
    success), [run_mutation_tests] and [run_mutation_tests_on_branch] run
    nothing after the baseline: the report is the skipped one, it carries the
    baseline output, and it shows no mutation score. *)
Theorem failing_baseline_skips_mutation :
  (forall code_files mutation_command docker_image setup_commands test_command
          d r d1,
     daemon_up d = true ->
     execute (DockerSandbox_init docker_image 900 default_memory_limit
                default_cpu_limit d)
       (with_setup setup_commands test_command) code_files [] d = Some (r, d1) ->
     status r <> SUCCESS ->
     run_mutation_tests code_files mutation_command docker_image setup_commands
       test_command d
     = Some (Ret (SkippedWithPrompt (to_prompt r)), d1)
     /\ states_skipped (SkippedWithPrompt (to_prompt r)) = true
     /\ reported_score (SkippedWithPrompt (to_prompt r)) = None
     /\ prompt_output (to_prompt r) = Str.take 3000 (stdout r)
     /\ calls d1
        = (calls d ++ [mkCall docker_image
                         ("sh -c '" ++ with_setup setup_commands test_command ++ "'")
                         code_files []])%list)
  /\ (forall github_token repo_name branch_name mutation_command docker_image
             setup_commands test_command min_mutation_score timeout d r d1,
        daemon_up d = true ->
        execute (DockerSandbox_init docker_image timeout "2g" default_cpu_limit d)
          (on_branch_command github_token repo_name branch_name setup_commands
             test_command)
          [] (token_env github_token) d = Some (r, d1) ->
        status r <> SUCCESS ->
        let report :=
          SkippedOnBranch
            (Str.take 3000 (redact github_token (stdout r)))
            (if truthy (redact github_token (stderr r))
             then Some (Str.take 1500 (redact github_token (stderr r)))
             else None) in
        run_mutation_tests_on_branch github_token repo_name branch_name
          mutation_command docker_image setup_commands test_command
          min_mutation_score timeout d
        = Some (Ret report, d1)
        /\ states_skipped report = true
        /\ reported_score report = None
        /\ calls d1
           = (calls d ++ [mkCall docker_image
                            ("sh -c '"
                               ++ on_branch_command github_token repo_name branch_name
                                    setup_commands test_command ++ "'")
                            [] (token_env github_token)])%list).
Proof.
  split.
  - intros code_files mutation_command docker_image setup_commands test_command
      d r d1 Hup Hex Hst.
    pose proof (execute_calls
                  (DockerSandbox_init docker_image _ _ _ d) _ _ _ _ _ _ Hup Hex)
      as Hcalls.
    unfold run_mutation_tests. cbv zeta. rewrite Hex.
    unfold DockerSandbox_init. cbn [_docker_available]. rewrite Hup. cbn [negb].
    destruct (status r); try contradiction; simpl; repeat split; exact Hcalls.
  - intros github_token repo_name branch_name mutation_command docker_image
      setup_commands test_command min_mutation_score timeout d r d1 Hup Hex Hst.
    pose proof (execute_calls
                  (DockerSandbox_init docker_image _ _ _ d) _ _ _ _ _ _ Hup Hex)
      as Hcalls.
    assert (Hcode : (exit_code r =? 0) = false).
    { destruct (execute_cases _ _ _ _ _ _ _ Hex) as [[Es Ec] | [[Es Ec] | [Es Ec]]].
      - rewrite Ec. reflexivity.
      - contradiction.
      - apply Z.eqb_neq. exact Ec. }
    unfold run_mutation_tests_on_branch. cbv zeta. rewrite Hex.
    unfold DockerSandbox_init. cbn [_docker_available]. rewrite Hup. cbn [negb].
    rewrite Hcode. cbn [negb]. repeat split. exact Hcalls.
Qed.

Lemma failing_baseline_skips_mutation_witness :
  (exists r d1,
     run_mutation_tests [] "mutmut run" "python:3.12-slim" [] "pytest"
       Samples.failing_tests
     = Some (Ret (SkippedWithPrompt (to_prompt r)), d1)
     /\ exit_code r = 1
     /\ length (calls d1) = 1%nat)
  /\ (exists report d1,
        run_mutation_tests_on_branch "tok" "acme/widgets" "fix-42" "mutmut run"
          "python:3.12-slim" [] "pytest" 60 900 Samples.failing_tests
        = Some (Ret report, d1)
        /\ states_skipped report = true
        /\ reported_score report = None
        /\ length (calls d1) = 1%nat).
Proof.
  split.
  - eexists. eexists.
    assert (Hex : execute (DockerSandbox_init "python:3.12-slim" 900 default_memory_limit
                            default_cpu_limit Samples.failing_tests)
                    (with_setup [] "pytest") [] [] Samples.failing_tests
                  = Some (mkTestResult FAILURE 1 "1 failed, 3 passed" "AssertionError" 2
                            3 1 0 None,
                          record_call (mkCall "python:3.12-slim" "sh -c 'pytest'" [] [])
                            Samples.failing_tests))
      by (vm_compute; reflexivity).
    destruct (proj1 failing_baseline_skips_mutation [] "mutmut run" "python:3.12-slim"
                [] "pytest" Samples.failing_tests _ _ eq_refl Hex
                ltac:(discriminate))
      as (Hrun & _ & _ & _ & Hcalls).
    split; [exact Hrun |]. split; [reflexivity |]. reflexivity.
  - eexists. eexists.
    assert (Hex : execute (DockerSandbox_init "python:3.12-slim" 900 "2g"
                            default_cpu_limit Samples.failing_tests)
                    (on_branch_command "tok" "acme/widgets" "fix-42" [] "pytest")
                    [] (token_env "tok") Samples.failing_tests
                  = Some (mkTestResult FAILURE 1 "1 failed, 3 passed" "AssertionError" 2
                            3 1 0 None,
                          record_call
                            (mkCall "python:3.12-slim"
                               ("sh -c '"
                                  ++ on_branch_command "tok" "acme/widgets" "fix-42" []
                                       "pytest" ++ "'")
                               [] (token_env "tok"))
                            Samples.failing_tests))
      by (vm_compute; reflexivity).
    destruct (proj2 failing_baseline_skips_mutation "tok" "acme/widgets" "fix-42"
                "mutmut run" "python:3.12-slim" [] "pytest" 60%Q 900
                Samples.failing_tests _ _ eq_refl Hex ltac:(discriminate))
      as (Hrun & Hsk & Hsc & Hcalls).
    split; [exact Hrun |]. split; [exact Hsk |]. split; [exact Hsc |]. reflexivity.
Defined.

(** *** The mutation score *)



Lemma findall_len_nonneg p s : 0 <= findall_len p s.
Proof. unfold findall_len. lia. Qed.







End SandboxProperties.

(** ** Properties of the repository gateway *)

Section GatewayProperties.

Import Github.

Lemma strip_prefix_app p s : Str.strip_prefix p (p ++ s) = Some s.
Proof.
  induction p as [| a p IH]; simpl; [reflexivity |].
  rewrite Ascii.eqb_refl. exact IH.
Qed.





(** *** Pushing to a branch that already exists *)

Lemma below_self_longer p q : below p q = true -> p <> q.
Proof.
  unfold below. intros H ->.
  assert (forall a b, Str.strip_prefix (a ++ b) a = None \/ b = EmptyString) as Hgen.
  { induction a as [| c a IH]; intros b; simpl.
    - destruct b; [right; reflexivity | left; reflexivity].
    - rewrite Ascii.eqb_refl. apply IH. }
  destruct (Hgen q "/") as [E | E]; [rewrite E in H |]; discriminate.
Qed.

Lemma is_dir_insert (t : gmap string string) p c q :
  is_dir (<[p := c]> t) q = true -> is_dir t q = true \/ below q p = true.
Proof.
  unfold is_dir. destruct q as [| a q]; [left; reflexivity |].
  rewrite !existsb_exists. intros ([k v] & Hin & Hb).
  apply list_elem_of_In, elem_of_map_to_list in Hin.
  destruct (decide (k = p)) as [-> | Hne].
  - right. exact Hb.
  - rewrite lookup_insert_ne in Hin by congruence.
    left. exists (k, v). split; [| exact Hb].
    apply list_elem_of_In, elem_of_map_to_list. exact Hin.
Qed.

Lemma branches_log_op o repo : branches (log_op o repo) = branches repo.
Proof. reflexivity. Qed.

(** One iteration of the push loop, on a path that is no directory. *)
Lemma push_one file_path content branch_name repo (t : gmap string string) :
  branches repo !! branch_name = Some t ->
  is_dir t file_path = false ->
  exists repo',
    branches repo' = <[branch_name := <[file_path := content]> t]> (branches repo)
    /\ forall tl created updated,
         push_files ((file_path, content) :: tl) branch_name created updated repo
         = push_files tl branch_name
             (match t !! file_path with
              | Some _ => created
              | None => (created ++ [file_path])%list
              end)
             (match t !! file_path with
              | Some _ => (updated ++ [file_path])%list
              | None => updated
              end)
             repo'.
Proof.
  intros Hb Hd.
  destruct (t !! file_path) as [old |] eqn:Ef.
  - eexists. split; [| intros tl created updated; cbn [push_files];
      unfold get_contents; rewrite Hb, Ef;
      unfold update_file; rewrite branches_log_op, Hb, Ef; reflexivity].
    reflexivity.
  - eexists. split; [| intros tl created updated; cbn [push_files];
      unfold get_contents; rewrite Hb, Ef, Hd;
      unfold create_file; rewrite branches_log_op, Hb, Ef; reflexivity].
    reflexivity.
Qed.





End GatewayProperties.

(** ** Properties of the CI status and of the CI monitor *)

Section CIProperties.

Import CI.

Lemma scan_runs_flags runs : forall all_completed any_failed any_cancelled,
  scan_runs runs all_completed any_failed any_cancelled
  = (all_completed && forallb completed runs,
     any_failed || existsb concluded_failure runs,
     any_cancelled
     || existsb (fun r => completed r && negb (concluded_failure r)
                          && conclusion_is "cancelled" r) runs).
Proof.
  induction runs as [| r tl IH]; intros ac af an; cbn [scan_runs forallb existsb].
  - rewrite andb_true_r, !orb_false_r. reflexivity.
  - assert (Hr : concluded_failure r
                 = completed r
                   && (conclusion_is "failure" r || conclusion_is "timed_out" r))
      by reflexivity.
    assert (Hs : String.eqb (run_status r) "completed" = completed r) by reflexivity.
    rewrite Hr, Hs.
    destruct (completed r), (conclusion_is "failure" r),
      (conclusion_is "timed_out" r), (conclusion_is "cancelled" r);
      cbn [negb andb orb]; rewrite IH;
      destruct ac, af, an; reflexivity.
Qed.

Lemma cancelled_when_none_failed runs :
  forallb completed runs = true ->
  existsb concluded_failure runs = false ->
  existsb (fun r => completed r && negb (concluded_failure r)
                    && conclusion_is "cancelled" r) runs
  = existsb (conclusion_is "cancelled") runs.
Proof.
  induction runs as [| r tl IH]; [reflexivity |].
  cbn [forallb existsb]. intros Hc Hf.
  apply andb_true_iff in Hc as [Hc1 Hc2]. apply orb_false_iff in Hf as [Hf1 Hf2].
  rewrite Hc1, Hf1, (IH Hc2 Hf2). reflexivity.
Qed.

Lemma native_runs_status v runs :
  workflow_runs v = Ret runs -> runs <> [] -> get_ci_status v = native_status runs.
Proof.
  intros H Hne. unfold get_ci_status. rewrite H.
  destruct runs as [| r tl]; [contradiction |].
  rewrite scan_runs_flags. unfold native_status.
  cbn [andb orb]. destruct (forallb completed (r :: tl)) eqn:Ec; [| reflexivity].
  cbn [negb]. destruct (existsb concluded_failure (r :: tl)) eqn:Ef; [reflexivity |].
  rewrite (cancelled_when_none_failed _ Ec Ef). reflexivity.
Qed.

Lemma no_native_runs_fallback v :
  workflow_runs v = Ret [] \/ raises (workflow_runs v) ->
  get_ci_status v = combined_fallback v.
Proof.
  unfold get_ci_status. intros [-> | H]; [reflexivity |].
  destruct (workflow_runs v); [destruct H | reflexivity].
Qed.

(** C6. When workflow runs exist for the commit, the status is in_progress
    unless every run is completed, failure if a completed run concluded
    failure or timed_out, else cancelled if a run was cancelled, else
    success, whatever the combined commit status says; the combined status
    decides only when the listing of the runs is empty (or could not be
    had); and when that has no statuses either, the result is pending. *)
Theorem ci_status_resolution_order (v : CIView) :
  (forall runs, workflow_runs v = Ret runs -> runs <> [] ->
     get_ci_status v = native_status runs
     /\ forall other logs jobs,
          get_ci_status (mkView (Ret runs) other logs jobs) = get_ci_status v)
  /\ (workflow_runs v = Ret [] \/ raises (workflow_runs v) ->
      get_ci_status v = combined_fallback v)
  /\ (workflow_runs v = Ret [] \/ raises (workflow_runs v) ->
      (raises (combined_status v)
       \/ exists st, combined_status v = Ret st /\ total_count st <= 0) ->
      get_ci_status v = value PENDING).
Proof.
  split; [| split].
  - intros runs H Hne. split; [apply native_runs_status; assumption |].
    intros other logs jobs.
    rewrite (native_runs_status v runs H Hne).
    apply native_runs_status; [reflexivity | exact Hne].
  - apply no_native_runs_fallback.
  - intros H Hc. rewrite (no_native_runs_fallback v H). unfold combined_fallback.
    destruct Hc as [Hc | (st & -> & Hst)].
    + destruct (combined_status v); [destruct Hc | reflexivity].
    + assert ((0 <? total_count st) = false) as -> by (apply Z.ltb_ge; exact Hst).
      reflexivity.
Qed.

Lemma ci_status_resolution_order_witness :
  get_ci_status Samples.one_run_failed = "failure"
  /\ get_ci_status Samples.no_ci = "pending".
Proof.
  split.
  - destruct (proj1 (ci_status_resolution_order Samples.one_run_failed)
                [mkRun "completed" (Some "success"); mkRun "completed" (Some "failure")]
                eq_refl ltac:(discriminate)) as [H _].
    rewrite H. reflexivity.
  - apply (proj2 (proj2 (ci_status_resolution_order Samples.no_ci))).
    + left. reflexivity.
    + right. exists (mkCombined 0 "pending"). split; [reflexivity | simpl; lia].
Defined.

(** *** The polling loops *)



Section Loops.

Variable w : World.
Variables timeout poll_interval : Z.







(** Time moves on: every iteration takes at least one second. *)
Hypothesis progress : forall i, 0 < latency w i + poll_interval.
(** No query of the run yields a terminal status. *)
Hypothesis never_terminal : forall i, is_terminal (get_ci_status (view w i)) = false.




End Loops.




(** With statuses in_progress, in_progress, success and a poll interval of
    30 seconds, success is reported on the third poll, 60 seconds in. *)
Example success_on_third_poll :
  monitor_ci_for_pr Samples.green_on_third_poll 600 30 2 = None
  /\ monitor_ci_for_pr Samples.green_on_third_poll 600 30 3 = Some (Ret (ReportPassed 60))
  /\ wait_for_ci_completion Samples.green_on_third_poll 600 30 3
     = Some (Ret (WaitStatus "success" None)).
Proof. repeat split; reflexivity. Qed.



End CIProperties.

(** ** The matcher finds matches only *)

Section MatcherProperties.

Import Re ReSpec.

Lemma run_sound {R : Type} icase r : forall s c (k : string -> caps -> option R) x,
  run icase r s c k = Some x ->
  exists s' c', Matches icase r s c s' c' /\ k s' c' = Some x.
Proof.
  induction r as [| cl | r1 IH1 r2 IH2 | greedy r1 IH1 | r1 IH1 | n r1 IH1];
    intros s c k x H; cbn [run] in H.
  - exists s, c. split; [constructor | exact H].
  - destruct s as [| a s]; [discriminate |].
    destruct (cmatch icase cl a) eqn:E; [| discriminate].
    exists s, c. split; [constructor; exact E | exact H].
  - apply IH1 in H as (s1 & c1 & M1 & H). apply IH2 in H as (s2 & c2 & M2 & H).
    exists s2, c2. split; [econstructor; eassumption | exact H].
  - change (star_loop (run icase r1) greedy k (String.length s) s c = Some x) in H.
    revert H. generalize (String.length s) at 1. intros fuel. revert s c x.
    induction fuel as [| fuel IHf]; intros s c x H.
    + exists s, c. split; [constructor | exact H].
    + cbn [star_loop] in H. cbv zeta in H.
      assert (Hmore : forall y,
                 run icase r1 s c
                   (fun s' c' =>
                      if (String.length s' <? String.length s)%nat
                      then star_loop (run icase r1) greedy k fuel s' c'
                      else None) = Some y ->
                 exists s' c', Matches icase (Star greedy r1) s c s' c' /\ k s' c' = Some y).
      { intros y Hy. apply IH1 in Hy as (s1 & c1 & M1 & Hy).
        destruct (String.length s1 <? String.length s)%nat; [| discriminate].
        apply IHf in Hy as (s2 & c2 & M2 & Hy).
        exists s2, c2. split; [econstructor; eassumption | exact Hy]. }
      destruct greedy.
      * match type of H with
        | match ?m with _ => _ end = _ => destruct m as [y |] eqn:E
        end.
        -- injection H as <-. apply Hmore. reflexivity.
        -- exists s, c. split; [constructor | exact H].
      * destruct (k s c) as [y |] eqn:E.
        -- injection H as <-. exists s, c. split; [constructor | exact E].
        -- apply Hmore. exact H.
  - destruct (run icase r1 s c k) as [y |] eqn:E.
    + injection H as <-. apply IH1 in E as (s' & c' & M & E).
      exists s', c'. split; [constructor; exact M | exact E].
    + exists s, c. split; [apply MOptNone | exact H].
  - apply IH1 in H as (s' & c' & M & H).
    eexists. eexists. split; [constructor; exact M | exact H].
Qed.

Lemma string_app_assoc (a b c : string) : (a ++ b) ++ c = a ++ (b ++ c).
Proof. induction a as [| x a IH]; [reflexivity | exact (f_equal (String x) IH)]. Qed.

Lemma string_length_app (a b : string) :
  String.length (a ++ b) = (String.length a + String.length b)%nat.
Proof. induction a as [| x a IH]; [reflexivity | exact (f_equal S IH)]. Qed.

Lemma take_app (t s : string) : Str.take (String.length t) (t ++ s) = t.
Proof.
  induction t as [| x t IH]; [destruct s; reflexivity | exact (f_equal (String x) IH)].
Qed.

Lemma consumed_app t s' : consumed (t ++ s') s' = t.
Proof.
  unfold consumed. rewrite string_length_app.
  replace (String.length t + String.length s' - String.length s')%nat
    with (String.length t) by lia.
  apply take_app.
Qed.

(** A match consumes a prefix. *)
Lemma Matches_suffix icase r s c s' c' :
  Matches icase r s c s' c' -> exists t, s = t ++ s'.
Proof.
  induction 1 as [s c | cl a s c E | r1 r2 s c s1 c1 s2 c2 _ [t1 ->] _ [t2 ->]
                  | g r s c | g r s c s1 c1 s2 c2 _ [t1 ->] _ [t2 ->]
                  | r s c s' c' _ IH | r s c | n r s c s' c' _ IH].
  - exists EmptyString. reflexivity.
  - exists (String a EmptyString). reflexivity.
  - exists (t1 ++ t2). symmetry. apply string_app_assoc.
  - exists EmptyString. reflexivity.
  - exists (t1 ++ t2). symmetry. apply string_app_assoc.
  - exact IH.
  - exists EmptyString. reflexivity.
  - exact IH.
Qed.

(** What the groups of a pattern capture: when the body of every group
    only matches text with property [P], every captured text has it. *)
Lemma Matches_groups (f : regex -> bool) (P : string -> Prop) :
  (forall body, f body = true ->
     forall icase s c s' c', Matches icase body s c s' c' -> P (consumed s s')) ->
  forall icase r s c s' c',
    Matches icase r s c s' c' -> all_groups f r = true ->
    Forall (fun nt => P (snd nt)) c -> Forall (fun nt => P (snd nt)) c'.
Proof.
  intros Hf icase r s c s' c' M.
  induction M as [s c | cl a s c E | r1 r2 s c s1 c1 s2 c2 M1 IH1 M2 IH2
                  | g r s c | g r s c s1 c1 s2 c2 M1 IH1 M2 IH2
                  | r s c s' c' M IH | r s c | n r s c s' c' M IH];
    cbn [all_groups]; intros Hg Hc; try exact Hc.
  - apply andb_true_iff in Hg as [Hg1 Hg2]. auto.
  - apply IH2; [exact Hg |]. apply IH1; assumption.
  - auto.
  - apply andb_true_iff in Hg as [Hg1 Hg2].
    constructor; [exact (Hf r Hg1 icase s c s' c' M) | auto].
Qed.

(** A group that is bound stays bound, and the groups that take part in
    every match are bound after it. *)
Lemma Matches_binds icase n r s c s' c' :
  Matches icase r s c s' c' ->
  (forall t, group n c = Some t -> exists t', group n c' = Some t')
  /\ (binds n r = true -> exists t, group n c' = Some t).
Proof.
  induction 1 as [s c | cl a s c E | r1 r2 s c s1 c1 s2 c2 M1 [K1 B1] M2 [K2 B2]
                  | g r s c | g r s c s1 c1 s2 c2 M1 [K1 B1] M2 [K2 B2]
                  | r s c s' c' M [K B] | r s c | m r s c s' c' M [K B]];
    cbn [binds]; (split; [| try discriminate]); eauto.
  - intros t Ht. destruct (K1 t Ht) as [t1 Ht1]. eauto.
  - intros Hb. apply orb_true_iff in Hb as [Hb | Hb]; [| auto].
    destruct (B1 Hb) as [t1 Ht1]. eauto.
  - intros t Ht. destruct (K1 t Ht) as [t1 Ht1]. eauto.
  - intros t Ht. cbn [group]. destruct (m =? n)%nat; eauto.
  - intros Hb. cbn [group]. destruct (m =? n)%nat; [eauto |]. auto.
Qed.

Lemma group_In n c t : group n c = Some t -> In (n, t) c.
Proof.
  induction c as [| [i v] c IH]; cbn [group]; [discriminate |].
  destruct (i =? n)%nat eqn:E.
  - intros [= ->]. apply Nat.eqb_eq in E as ->. left. reflexivity.
  - intros H. right. auto.
Qed.

(** What [search] returns is a match at some position. *)
Lemma search_Matches icase r s m :
  search icase r s = Some m ->
  exists s0, Matches icase r s0 [] (rest m) (groups m)
             /\ whole m = consumed s0 (rest m).
Proof.
  induction s as [| a s IH]; cbn [search]; unfold match_at.
  - destruct (run icase r EmptyString [] _) as [m' |] eqn:E; [| discriminate].
    intros [= ->]. apply run_sound in E as (s' & c' & M & [= <-]).
    exists EmptyString. split; [exact M | reflexivity].
  - destruct (run icase r (String a s) [] _) as [m' |] eqn:E.
    + intros [= ->]. apply run_sound in E as (s' & c' & M & [= <-]).
      exists (String a s). split; [exact M | reflexivity].
    + exact IH.
Qed.

(** The groups of a match that [search] returns. *)
Lemma search_groups (f : regex -> bool) (P : string -> Prop) icase r s m n :
  (forall body, f body = true ->
     forall icase s c s' c', Matches icase body s c s' c' -> P (consumed s s')) ->
  all_groups f r = true ->
  search icase r s = Some m ->
  (forall t, group n (groups m) = Some t -> P t)
  /\ (binds n r = true -> exists t, group n (groups m) = Some t /\ P t).
Proof.
  intros Hf Hg Hs. apply search_Matches in Hs as (s0 & M & _).
  pose proof (Matches_groups f P Hf _ _ _ _ _ _ M Hg (List.Forall_nil _)) as Hall.
  assert (Hget : forall t, group n (groups m) = Some t -> P t).
  { intros t Ht. apply group_In in Ht.
    rewrite List.Forall_forall in Hall. exact (Hall _ Ht). }
  split; [exact Hget |].
  intros Hb. destruct (proj2 (Matches_binds _ n _ _ _ _ _ M) Hb) as [t Ht].
  exists t. split; [exact Ht | auto].
Qed.

(** *** Digits and decimals *)

Lemma cclass_eqb_eq a : forall b, cclass_eqb a b = true -> a = b.
Proof.
  induction a as [x | | | | a1 IH1 a2 IH2]; intros [y | | | | b1 b2];
    cbn [cclass_eqb]; try discriminate; try reflexivity.
  - intros H. apply Ascii.eqb_eq in H as ->. reflexivity.
  - intros H. apply andb_true_iff in H as [H1 H2].
    rewrite (IH1 _ H1), (IH2 _ H2). reflexivity.
Qed.

Lemma regex_eqb_eq a : forall b, regex_eqb a b = true -> a = b.
Proof.
  induction a as [| x | a1 IH1 a2 IH2 | g a1 IH1 | a1 IH1 | n a1 IH1];
    intros [| y | b1 b2 | g' b1 | b1 | m b1]; cbn [regex_eqb];
    try discriminate; try reflexivity; intros H.
  - apply cclass_eqb_eq in H as ->. reflexivity.
  - apply andb_true_iff in H as [H1 H2]. rewrite (IH1 _ H1), (IH2 _ H2). reflexivity.
  - apply andb_true_iff in H as [H1 H2]. apply Bool.eqb_prop in H1 as ->.
    rewrite (IH1 _ H2). reflexivity.
  - rewrite (IH1 _ H). reflexivity.
  - apply andb_true_iff in H as [H1 H2]. apply Nat.eqb_eq in H1 as ->.
    rewrite (IH1 _ H2). reflexivity.
Qed.

Lemma all_digits_app a b :
  Str.all_digits (a ++ b) = Str.all_digits a && Str.all_digits b.
Proof.
  induction a as [| x a IH]; simpl; [reflexivity |].
  rewrite IH, andb_assoc. reflexivity.
Qed.

Lemma star_digit_text icase g s c s' c' :
  Matches icase (Star g (Chr Digit)) s c s' c' ->
  c' = c /\ exists t, s = t ++ s' /\ Str.all_digits t = true.
Proof.
  intros M. remember (Star g (Chr Digit)) as r eqn:Er.
  induction M as [| | | g0 r0 s c | g0 r0 s c s1 c1 s2 c2 M1 _ M2 IH2 | | |];
    try discriminate.
  - split; [reflexivity |]. exists EmptyString. split; reflexivity.
  - injection Er as -> ->. inversion M1 as [| cl a s0 c0 E | | | | | |]; subst.
    destruct (IH2 eq_refl) as [-> (t & -> & Ht)].
    split; [reflexivity |]. exists (String a t). split; [reflexivity |].
    simpl. simpl in E. rewrite E, Ht. reflexivity.
Qed.

(** [\d+] matches a non-empty string of digits and captures nothing. *)
Lemma digits_text icase s c s' c' :
  Matches icase Sandbox.digits s c s' c' ->
  c' = c /\ exists a t, s = String a t ++ s' /\ Str.all_digits (String a t) = true.
Proof.
  unfold Sandbox.digits, Plus. intros M.
  inversion M as [| | r1 r2 s0 c0 s1 c1 s2 c2 M1 M2 | | | | |]; subst.
  inversion M1 as [| cl a s0 c0 E | | | | | |]; subst.
  apply star_digit_text in M2 as [-> (t & -> & Ht)].
  split; [reflexivity |]. exists a, t. split; [reflexivity |].
  simpl. simpl in E. rewrite E, Ht. reflexivity.
Qed.

Lemma digit_value_nonneg a : Str.is_digit a = true -> 0 <= Str.digit_value a.
Proof.
  unfold Str.is_digit, Str.digit_value. intros H.
  apply andb_true_iff in H as [H _]. apply Nat.leb_le in H. lia.
Qed.

Lemma digits_value_nonneg t : forall acc,
  Str.all_digits t = true -> 0 <= acc -> 0 <= Str.digits_value acc t.
Proof.
  induction t as [| a t IH]; intros acc H Hacc; simpl; [exact Hacc |].
  simpl in H. apply andb_true_iff in H as [Ha Ht].
  apply IH; [exact Ht |]. pose proof (digit_value_nonneg a Ha). lia.
Qed.

(** [int] accepts what [\d+] matches, and the value is not negative. *)
Lemma int_of_digits a t :
  Str.all_digits (String a t) = true ->
  exists v, Str.int (String a t) = Some v /\ 0 <= v.
Proof.
  intros H. unfold Str.int. rewrite H. eexists. split; [reflexivity |].
  apply digits_value_nonneg; [exact H | lia].
Qed.

Lemma int_nonneg t v : Str.int t = Some v -> 0 <= v.
Proof.
  unfold Str.int. destruct t as [| a t]; [discriminate |].
  destruct (Str.all_digits (String a t)) eqn:E; [| discriminate].
  intros [= <-]. apply (digits_value_nonneg (String a t) 0 E). lia.
Qed.

End MatcherProperties.


(** ** What the patterns capture *)

Section CaptureProperties.

Import Re ReSpec Captures Sandbox.

Lemma digit_not_dot a : Str.is_digit a = true -> Ascii.eqb a "."%char = false.
Proof. destruct a as [[] [] [] [] [] [] [] []]; intros H; try discriminate H; reflexivity. Qed.

Lemma lit_dot icase a : cmatch icase (Lit "."%char) a = true -> a = "."%char.
Proof.
  destruct icase; destruct a as [[] [] [] [] [] [] [] []]; intros H;
    try discriminate H; reflexivity.
Qed.

Lemma split_dot_digits t : Str.all_digits t = true -> Str.split_dot t = (t, None).
Proof.
  induction t as [| a t IH]; [reflexivity |]. cbn [Str.all_digits Str.split_dot].
  intros H. apply andb_true_iff in H as [Ha Ht].
  rewrite (digit_not_dot a Ha), (IH Ht). reflexivity.
Qed.

Lemma split_dot_decimal t u :
  Str.all_digits t = true -> Str.split_dot (t ++ String "." u) = (t, Some u).
Proof.
  induction t as [| a t IH]; [reflexivity |]. cbn [Str.all_digits].
  intros H. apply andb_true_iff in H as [Ha Ht].
  change (String a t ++ String "." u) with (String a (t ++ String "." u)).
  cbn [Str.split_dot]. rewrite (digit_not_dot a Ha), (IH Ht). reflexivity.
Qed.

Lemma float_of_digits t : is_digit_string t -> is_number_string t.
Proof.
  intros [Hne Hd]. unfold is_number_string, Str.float.
  rewrite (split_dot_digits t Hd). destruct t as [| a t]; [contradiction |].
  rewrite Hd. eexists. split; [reflexivity |].
  unfold Qle, inject_Z. cbn [Qnum Qden].
  pose proof (digits_value_nonneg (String a t) 0 Hd). lia.
Qed.

Lemma float_of_decimal t u :
  is_digit_string t -> is_digit_string u -> is_number_string (t ++ String "." u).
Proof.
  intros [Hne Ht] [_ Hu]. unfold is_number_string, Str.float.
  rewrite (split_dot_decimal t u Ht), Ht, Hu.
  destruct t as [| a t]; [contradiction |]. cbn [String.length Nat.add Nat.eqb negb andb].
  eexists. split; [reflexivity |].
  unfold Qle. cbn [Qnum Qden].
  assert (Hd : Str.all_digits (String a t ++ u) = true)
    by (rewrite all_digits_app, Ht, Hu; reflexivity).
  pose proof (digits_value_nonneg _ 0 Hd). lia.
Qed.

(** [(\d+)] captures a non-empty string of digits. *)
Lemma digits_captured icase s c s' c' :
  Matches icase digits s c s' c' -> is_digit_string (consumed s s').
Proof.
  intros M. apply digits_text in M as [_ (a & t & -> & H)].
  rewrite consumed_app. split; [discriminate | exact H].
Qed.

(** [(\d+(?:\.\d+)?)] captures what [float] accepts. *)
Lemma decimal_captured icase s c s' c' :
  Matches icase decimal s c s' c' -> is_number_string (consumed s s').
Proof.
  unfold decimal. intros M.
  inversion M as [| | r1 r2 s0 c0 s1 c1 s2 c2 M1 M2 | | | | |]; subst.
  apply digits_text in M1 as [-> (a & t & -> & H)].
  inversion M2 as [| | | | | r s0 c0 s2 c2 M3 | r s0 c0 |]; subst.
  - inversion M3 as [| | r1 r2 s0 c0 s2 c2 s3 c3 M4 M5 | | | | |]; subst.
    cbn [lit] in M4.
    inversion M4 as [| | r1 r2 s0 c0 s4 c4 s5 c5 M6 M7 | | | | |]; subst.
    inversion M6 as [| cl x s0 c0 E | | | | | |]; subst.
    inversion M7; subst. apply lit_dot in E as ->.
    apply digits_text in M5 as [_ (b & u & -> & Hu)].
    replace (String a t ++ String "." (String b u ++ s'))
      with ((String a t ++ String "." (String b u)) ++ s')
      by (rewrite string_app_assoc; reflexivity).
    rewrite consumed_app.
    apply float_of_decimal; (split; [discriminate | assumption]).
  - rewrite consumed_app. apply float_of_digits. split; [discriminate | exact H].
Qed.

Lemma digits_body body :
  regex_eqb body digits = true ->
  forall icase s c s' c', Matches icase body s c s' c' -> is_digit_string (consumed s s').
Proof. intros H. apply regex_eqb_eq in H as ->. exact digits_captured. Qed.

Lemma number_body body :
  regex_eqb body digits || regex_eqb body decimal = true ->
  forall icase s c s' c', Matches icase body s c s' c' -> is_number_string (consumed s s').
Proof.
  intros H icase s c s' c' M. apply orb_true_iff in H as [H | H];
    apply regex_eqb_eq in H as ->.
  - apply float_of_digits. exact (digits_captured _ _ _ _ _ M).
  - exact (decimal_captured _ _ _ _ _ M).
Qed.

(** [int(match.group(n))] on a [(\d+)] group that takes part in every
    match returns a number that is not negative. *)
Lemma int_group_ok icase p s m n :
  captures_digits p = true -> binds n p = true ->
  search icase p s = Some m ->
  exists v, int_group m n = Ret v /\ 0 <= v.
Proof.
  intros Hc Hb Hs.
  destruct (search_groups _ _ icase p s m n digits_body Hc Hs) as [_ Hn].
  destruct (Hn Hb) as (t & Ht & Hne & Hd). unfold int_group. rewrite Ht.
  destruct t as [| a t]; [contradiction |].
  destruct (int_of_digits a t Hd) as (v & -> & Hv). eauto.
Qed.

(** The same for a group that may be left out, like [(\d+)?]. *)
Lemma int_group_bound icase p s m n t :
  captures_digits p = true -> search icase p s = Some m ->
  group n (groups m) = Some t ->
  exists v, int_group m n = Ret v /\ 0 <= v.
Proof.
  intros Hc Hs Ht.
  destruct (search_groups _ _ icase p s m n digits_body Hc Hs) as [Hn _].
  destruct (Hn t Ht) as [Hne Hd]. unfold int_group. rewrite Ht.
  destruct t as [| a t]; [contradiction |].
  destruct (int_of_digits a t Hd) as (v & -> & Hv). eauto.
Qed.

(** [float(match.group(n))] on a number group returns. *)
Lemma float_group_ok icase p s m n :
  captures_numbers p = true -> binds n p = true ->
  search icase p s = Some m ->
  exists q, float_group m n = Ret q /\ (0 <= q)%Q.
Proof.
  intros Hc Hb Hs.
  destruct (search_groups _ _ icase p s m n number_body Hc Hs) as [_ Hn].
  destruct (Hn Hb) as (t & Ht & q & Hq & H0). unfold float_group.
  rewrite Ht, Hq. eauto.
Qed.

(** [float(match.group(n))] raises nothing but [ValueError], and that only
    on a captured text that is no number. *)
Lemma float_group_raises icase p s m e :
  binds 1 p = true -> search icase p s = Some m ->
  float_group m 1 = Raise e ->
  e = float_error
  /\ exists t, group 1 (groups m) = Some t /\ Str.float t = None.
Proof.
  intros Hb Hs. apply search_Matches in Hs as (s0 & M & _).
  destruct (proj2 (Matches_binds _ 1 _ _ _ _ _ M) Hb) as [t Ht].
  unfold float_group. rewrite Ht. destruct (Str.float t) eqn:E; [discriminate |].
  intros [= <-]. split; [reflexivity | eauto].
Qed.

Lemma add_count_ok p s acc :
  captures_digits p = true -> binds 1 p = true ->
  exists v, add_count p s acc = Ret v /\ acc <= v.
Proof.
  intros Hc Hb. unfold add_count. destruct (search false p s) as [m |] eqn:E.
  - destruct (int_group_ok _ _ _ _ 1 Hc Hb E) as (v & -> & Hv).
    cbn [bind]. eexists. split; [reflexivity | lia].
  - exists acc. split; [reflexivity | lia].
Qed.

Lemma first_int_ok ps s default :
  Forall (fun p => captures_digits p = true /\ binds 1 p = true) ps ->
  exists v, first_int ps s default = Ret v /\ (0 <= default -> 0 <= v).
Proof.
  intros Hps. unfold first_int.
  destruct (first_search ps s) as [m |] eqn:E; [| eauto].
  induction Hps as [| p ps [Hc Hb] _ IH]; cbn [first_search] in E; [discriminate |].
  destruct (search true p s) as [m' |] eqn:Es.
  - injection E as ->. destruct (int_group_ok _ _ _ _ 1 Hc Hb Es) as (v & -> & Hv). eauto.
  - exact (IH E).
Qed.

End CaptureProperties.


(** ** What the output parsers never do *)

Section ParserProperties.

Import Re ReSpec Captures Sandbox.

Ltac count_step :=
  match goal with
  | |- context [add_count ?p ?s ?acc] =>
      let v := fresh "v" in
      let E := fresh "E" in
      let Hv := fresh "Hv" in
      destruct (add_count_ok p s acc eq_refl eq_refl) as (v & E & Hv);
      rewrite E; cbn [bind]
  end.

Ltac int_step :=
  match goal with
  | Es : search ?ic ?p ?s = Some ?m |- context [int_group ?m ?n] =>
      let v := fresh "v" in
      let E := fresh "E" in
      let Hv := fresh "Hv" in
      destruct (int_group_ok ic p s m n eq_refl eq_refl Es) as (v & E & Hv);
      rewrite E; cbn [bind]
  end.

Ltac float_step :=
  match goal with
  | Es : search ?ic ?p ?s = Some ?m |- context [float_group ?m ?n] =>
      let v := fresh "q" in
      let E := fresh "E" in
      let Hv := fresh "Hq" in
      destruct (float_group_ok ic p s m n eq_refl eq_refl Es) as (v & E & Hv);
      rewrite E; cbn [bind]
  end.

(** The two ways [_parse_test_output] ends. *)
Lemma parse_cases out err :
  (exists p f s cov,
      _parse_test_output out err
      = Ret {| status := SUCCESS; exit_code := 0; stdout := out; stderr := err;
               duration_seconds := 0; tests_passed := p; tests_failed := f;
               tests_skipped := s; coverage_percent := cov |}
      /\ 0 <= f /\ 0 <= s)
  \/ (_parse_test_output out err = Raise float_error
      /\ search false p_cov_total (out ++ Str.nl ++ err) = None
      /\ exists p m t,
           In p [p_cov_all_files; p_cov_statements; p_cov_lines]
           /\ search false p (out ++ Str.nl ++ err) = Some m
           /\ group 1 (groups m) = Some t /\ Str.float t = None).
Proof.
  unfold _parse_test_output. cbv zeta.
  set (combined := out ++ Str.nl ++ err).
  pose proof (findall_len_nonneg p_go_fail combined) as Hgf.
  pose proof (findall_len_nonneg p_go_skip combined) as Hgs.
  repeat count_step.
  match goal with
  | |- (exists p f s cov, bind ?m _ = _ /\ _) \/ _ =>
      assert (Hm : exists p f s, m = Ret (p, f, s) /\ 0 <= f /\ 0 <= s)
  end.
  { destruct (search false p_maven combined) as [m |] eqn:Es;
      [repeat int_step |]; do 3 eexists; (split; [reflexivity | lia]). }
  destruct Hm as (p1 & f1 & s1 & -> & Hf1 & Hs1). cbn [bind].
  match goal with
  | |- (exists p f s cov, bind ?m _ = _ /\ _) \/ _ =>
      assert (Hm : exists p f s, m = Ret (p, f, s) /\ 0 <= f /\ 0 <= s)
  end.
  { destruct (search false p_cargo combined) as [m |] eqn:Es;
      [repeat int_step |]; do 3 eexists; (split; [reflexivity | lia]). }
  destruct Hm as (p2 & f2 & s2 & -> & Hf2 & Hs2). cbn [bind].
  repeat count_step.
  destruct (search false p_cov_total combined) as [m |] eqn:Et.
  { float_step. cbn [try_coverage bind]. left. do 4 eexists.
    split; [reflexivity | lia]. }
  cbn [bind try_coverage].
  destruct (search false p_cov_all_files combined) as [m |] eqn:Ec1.
  { destruct (float_group m 1) as [q | e] eqn:Ef; cbn [bind try_coverage].
    - left. do 4 eexists. split; [reflexivity | lia].
    - right. apply (float_group_raises false p_cov_all_files combined m e eq_refl Ec1)
        in Ef as [-> (t & Ht & Hn)].
      split; [reflexivity |]. split; [reflexivity |].
      exists p_cov_all_files, m, t. cbn [In]. auto. }
  cbn [bind try_coverage].
  destruct (search false p_cov_statements combined) as [m |] eqn:Ec2.
  { destruct (float_group m 1) as [q | e] eqn:Ef; cbn [bind try_coverage].
    - left. do 4 eexists. split; [reflexivity | lia].
    - right. apply (float_group_raises false p_cov_statements combined m e eq_refl Ec2)
        in Ef as [-> (t & Ht & Hn)].
      split; [reflexivity |]. split; [reflexivity |].
      exists p_cov_statements, m, t. cbn [In]. auto. }
  cbn [bind try_coverage].
  destruct (search false p_cov_lines combined) as [m |] eqn:Ec3.
  { destruct (float_group m 1) as [q | e] eqn:Ef; cbn [bind try_coverage].
    - left. do 4 eexists. split; [reflexivity | lia].
    - right. apply (float_group_raises false p_cov_lines combined m e eq_refl Ec3)
        in Ef as [-> (t & Ht & Hn)].
      split; [reflexivity |]. split; [reflexivity |].
      exists p_cov_lines, m, t. cbn [In]. auto. }
  cbn [bind try_coverage].
  destruct (search false p_cov_go combined) as [m |] eqn:Ec4.
  { float_step. cbn [try_coverage bind]. left. do 4 eexists.
    split; [reflexivity | lia]. }
  cbn [bind try_coverage].
  destruct (search false p_cov_tarpaulin combined) as [m |] eqn:Ec5.
  { float_step. left. do 4 eexists. split; [reflexivity | lia]. }
  cbn [bind]. left. do 4 eexists. split; [reflexivity | lia].
Qed.



(** X2: the failed and skipped counts of every result that [execute]
    returns are not negative. *)
Theorem execute_counts_never_negative self command code_files env_vars d r d' :
  execute self command code_files env_vars d = Some (r, d') ->
  0 <= tests_failed r /\ 0 <= tests_skipped r.
Proof.
  unfold execute. destruct (_docker_available self); cbn [negb].
  - destruct (reply d (calls d) _) as [e el | code out err el |]; [| | discriminate].
    + intros [= <- _]. destruct e; cbn; lia.
    + destruct (decode out) as [so | e]; cbn [bind];
        [destruct (decode err) as [se | e]; cbn [bind] |].
      * destruct (parse_cases so se) as [(p & f & s & cov & -> & Hf & Hs) | (-> & _)];
          cbn [bind]; intros [= <- _]; cbn; lia.
      * intros [= <- _]. destruct e; cbn; lia.
      * intros [= <- _]. destruct e; cbn; lia.
  - intros [= <- _]. cbn. lia.
Qed.

Lemma execute_counts_never_negative_witness :
  exists r d',
    execute Samples.one_second_sandbox "mvn test" [] [] Samples.failing_tests = Some (r, d')
    /\ 0 <= tests_failed r /\ 0 <= tests_skipped r.
Proof.
  eexists. eexists. split; [vm_compute; reflexivity |].
  refine (execute_counts_never_negative Samples.one_second_sandbox "mvn test" [] []
            Samples.failing_tests _ _ _).
  vm_compute. reflexivity.
Defined.

(** *** The mutation reports *)

Lemma first_search_In ps s m :
  first_search ps s = Some m -> exists p, In p ps /\ search true p s = Some m.
Proof.
  induction ps as [| p ps IH]; cbn [first_search]; [discriminate |].
  destruct (search true p s) as [m' |] eqn:E.
  - intros [= ->]. exists p. split; [left; reflexivity | exact E].
  - intros H. destruct (IH H) as (p' & Hin & Hs). exists p'. split; [right |]; assumption.
Qed.

Lemma first_float_raises ps s default e :
  Forall (fun p => binds 1 p = true) ps ->
  first_float ps s default = Raise e ->
  e = float_error
  /\ exists p m t, In p ps /\ search true p s = Some m
                   /\ group 1 (groups m) = Some t /\ Str.float t = None.
Proof.
  intros Hps. unfold first_float.
  destruct (first_search ps s) as [m |] eqn:E; [| discriminate].
  apply first_search_In in E as (p & Hin & Hs). intros Hf.
  rewrite List.Forall_forall in Hps.
  destruct (float_group_raises true p s m e (Hps p Hin) Hs Hf) as [-> (t & Ht & Hn)].
  split; [reflexivity |]. exists p, m, t. auto.
Qed.

Ltac first_int_step :=
  match goal with
  | |- context [first_int ?ps ?s ?dflt] =>
      let v := fresh "v" in
      let E := fresh "E" in
      let Hv := fresh "Hv" in
      let H := fresh "H" in
      assert (H : Forall (fun p => captures_digits p = true /\ binds 1 p = true) ps)
        by (repeat constructor);
      destruct (first_int_ok ps s dflt H) as (v & E & Hv);
      rewrite E; cbn [bind]; clear H
  end.

(** The two ways the pattern table of [run_mutation_tests] ends. *)
Lemma scan_mutmut_cases output total killed survived score :
  (exists t k s sc, scan_mutmut output total killed survived score = Ret (t, k, s, sc)
                    /\ (0 <= total -> 0 <= t) /\ (0 <= killed -> 0 <= k)
                    /\ (0 <= survived -> 0 <= s))
  \/ (scan_mutmut output total killed survived score = Raise float_error
      /\ exists p m t, In p mut_score_patterns /\ search true p output = Some m
                       /\ group 1 (groups m) = Some t /\ Str.float t = None).
Proof.
  unfold scan_mutmut. repeat first_int_step.
  destruct (first_float mut_score_patterns output score) as [sc | e] eqn:Ef; cbn [bind].
  - left. do 4 eexists. split; [reflexivity | auto].
  - right. apply first_float_raises in Ef as [-> Hr]; [| repeat constructor].
    split; [reflexivity | exact Hr].
Qed.

(** The two ways the scan of [run_mutation_tests_on_branch] ends. *)
Lemma scan_mutation_cases combined :
  (exists t k s to nc sc,
      scan_mutation_output combined = Ret (t, k, s, to, nc, sc)
      /\ 0 <= t /\ 0 <= s /\ 0 <= to /\ 0 <= nc)
  \/ (scan_mutation_output combined = Raise float_error
      /\ exists p m t, In p mut_score_patterns /\ search true p combined = Some m
                       /\ group 1 (groups m) = Some t /\ Str.float t = None).
Proof.
  unfold scan_mutation_output. cbv zeta.
  pose proof (findall_len_nonneg p_no_coverage combined) as Hnc.
  match goal with
  | |- (exists t k s to nc sc, bind ?m _ = _ /\ _) \/ _ =>
      assert (Hm : exists t, m = Ret t /\ 0 <= t)
  end.
  { destruct (search false p_stryker_total combined) as [m |] eqn:Es;
      [int_step |]; eexists; (split; [reflexivity | lia]). }
  destruct Hm as (t0 & -> & Ht0). cbn [bind].
  match goal with
  | |- (exists t k s to nc sc, bind ?m _ = _ /\ _) \/ _ =>
      assert (Hm : exists t k s to, m = Ret (t, k, s, to)
                                    /\ 0 <= t /\ 0 <= s /\ 0 <= to)
  end.
  { destruct (search false p_stryker_tested combined) as [m |] eqn:Es.
    - int_step. destruct (t0 =? 0); cbn [negb]; [int_step | cbn [bind]]; int_step;
        (destruct (group 4 (groups m)) as [t4 |] eqn:G4;
         [destruct (truthy t4);
          [destruct (int_group_bound false p_stryker_tested combined m 4 t4
                       eq_refl Es G4) as (v4 & -> & Hv4) |] |]);
        cbn [bind]; do 4 eexists; (split; [reflexivity | lia]).
    - do 4 eexists. split; [reflexivity | lia]. }
  destruct Hm as (t1 & k1 & s1 & to1 & -> & Ht1 & Hs1 & Hto1). cbn [bind].
  match goal with
  | |- (exists t k s to nc sc, bind ?m _ = _ /\ _) \/ _ =>
      assert (Hm : exists sc, m = Ret sc)
  end.
  { destruct (search true p_stryker_score combined) as [m |] eqn:Es;
      [float_step |]; eexists; reflexivity. }
  destruct Hm as (sc1 & ->). cbn [bind].
  destruct (t1 =? 0) eqn:Hz.
  - apply Z.eqb_eq in Hz as ->.
    destruct (scan_mutmut_cases combined 0 k1 s1 sc1) as
      [(t & k & s & sc & -> & Ht & Hk & Hs) | (-> & Hr)]; cbn [bind].
    + left. do 6 eexists. split; [reflexivity | lia].
    + right. split; [reflexivity | exact Hr].
  - cbn [bind]. left. do 6 eexists. split; [reflexivity | lia].
Qed.



(** X4: the numbers of mutants that the mutation reports show are not
    negative: total, killed and survived for [run_mutation_tests]; total,
    survived, timed out and not covered for [run_mutation_tests_on_branch]. *)
Theorem mutation_counts_never_negative :
  (forall code_files mutation_command docker_image setup_commands test_command d sm d',
      run_mutation_tests code_files mutation_command docker_image setup_commands
        test_command d = Some (Ret (MutationResult sm), d') ->
      0 <= mut_total sm /\ 0 <= mut_killed sm /\ 0 <= mut_survived sm)
  /\ (forall github_token repo_name branch_name mutation_command docker_image
             setup_commands test_command min_mutation_score timeout d b sm d',
        run_mutation_tests_on_branch github_token repo_name branch_name
          mutation_command docker_image setup_commands test_command
          min_mutation_score timeout d = Some (Ret (MutationBranchReport b sm), d') ->
        0 <= mut_total sm /\ 0 <= mut_survived sm
        /\ 0 <= mut_timed_out sm /\ 0 <= mut_no_coverage sm).
Proof.
  split.
  - intros code_files mutation_command docker_image setup_commands test_command d sm d'.
    unfold run_mutation_tests. cbv zeta.
    destruct (negb _); [discriminate |].
    destruct (execute _ _ _ _ d) as [[r1 d1] |]; [| discriminate].
    destruct (negb _); [discriminate |].
    destruct (execute _ _ _ _ d1) as [[r2 d2] |]; [| discriminate].
    destruct (scan_mutmut_cases (stdout r2 ++ stderr r2) 0 0 0 0%Q)
      as [(t & k & s & sc & -> & Ht & Hk & Hs) | (-> & _)]; cbn [bind];
      [| discriminate].
    intros [= <- _]. cbn. lia.
  - intros github_token repo_name branch_name mutation_command docker_image
           setup_commands test_command min_mutation_score timeout d b sm d'.
    unfold run_mutation_tests_on_branch. cbv zeta.
    destruct (negb _); [discriminate |].
    destruct (execute _ _ _ _ d) as [[r1 d1] |]; [| discriminate].
    destruct (negb _); [discriminate |].
    destruct (execute _ _ _ _ d1) as [[r2 d2] |]; [| discriminate].
    unfold parse_mutation_output.
    match goal with
    | |- context [scan_mutation_output ?c] =>
        destruct (scan_mutation_cases c)
          as [(t & k & s & to & nc & sc & -> & Ht & Hs & Hto & Hnc) | (-> & _)]
    end; cbn [bind]; [| discriminate].
    intros [= _ <- _]. cbn. lia.
Qed.

Lemma mutation_counts_never_negative_witness :
  exists sm d',
    run_mutation_tests [] "mutmut run" "python:3.12-slim" [] "pytest"
      Scenarios.mutmut_summary = Some (Ret (MutationResult sm), d')
    /\ mut_total sm = 12 /\ mut_killed sm = 9 /\ mut_survived sm = 3
    /\ 0 <= mut_total sm /\ 0 <= mut_killed sm /\ 0 <= mut_survived sm.
Proof.
  eexists. eexists. split; [vm_compute; reflexivity |].
  split; [reflexivity |]. split; [reflexivity |]. split; [reflexivity |].
  refine (proj1 mutation_counts_never_negative [] "mutmut run" "python:3.12-slim" []
            "pytest" Scenarios.mutmut_summary _ _ _).
  vm_compute. reflexivity.
Defined.

End ParserProperties.


(** ** The token never shows in a report *)

Section RedactionProperties.

Import Re Sandbox Tools.

Lemma contains_eq sub s :
  Str.contains sub s
  = match Str.strip_prefix sub s with
    | Some _ => true
    | None => match s with
              | EmptyString => false
              | String _ s' => Str.contains sub s'
              end
    end.
Proof. destruct s; reflexivity. Qed.

Lemma strip_prefix_length p : forall s r,
  Str.strip_prefix p s = Some r ->
  String.length s = (String.length p + String.length r)%nat.
Proof.
  induction p as [| a p IH]; intros s r; cbn [Str.strip_prefix].
  - intros [= ->]. reflexivity.
  - destruct s as [| b s]; [discriminate |].
    destruct (Ascii.eqb a b); [| discriminate].
    intros H. cbn [String.length]. rewrite (IH _ _ H). reflexivity.
Qed.

(** A prefix without ['*'] of a redacted text is a prefix of the text. *)
Lemma prefix_of_redacted tok fuel : forall s u r,
  lacks "*" u = true ->
  Str.strip_prefix u (Str.replace_fuel fuel tok "***" s) = Some r ->
  exists r', Str.strip_prefix u s = Some r'.
Proof.
  induction fuel as [| fuel IH]; intros s u r Hu; cbn [Str.replace_fuel]; [eauto |].
  destruct u as [| a u]; [cbn [Str.strip_prefix]; eauto |].
  cbn [lacks] in Hu. apply andb_true_iff in Hu as [Ha Hu].
  destruct (Str.strip_prefix tok s) as [rest |] eqn:E.
  - change ("***" ++ Str.replace_fuel fuel tok "***" rest)
      with (String "*" ("**" ++ Str.replace_fuel fuel tok "***" rest)).
    cbn [Str.strip_prefix]. destruct (Ascii.eqb a "*"); discriminate.
  - destruct s as [| c s]; cbn [Str.strip_prefix]; [discriminate |].
    destruct (Ascii.eqb a c); [| discriminate]. exact (IH s u r Hu).
Qed.

Lemma contains_star tok x :
  tok <> EmptyString -> lacks "*" tok = true ->
  Str.contains tok (String "*" x) = Str.contains tok x.
Proof.
  intros Hne Hl. rewrite (contains_eq tok (String "*" x)).
  destruct tok as [| a tok]; [contradiction |].
  cbn [lacks] in Hl. apply andb_true_iff in Hl as [Ha _].
  cbn [Str.strip_prefix]. destruct (Ascii.eqb a "*"); [discriminate | reflexivity].
Qed.

Lemma replace_fuel_hides tok :
  tok <> EmptyString -> lacks "*" tok = true ->
  forall fuel s, (String.length s < fuel)%nat ->
    Str.contains tok (Str.replace_fuel fuel tok "***" s) = false.
Proof.
  intros Hne Hl. induction fuel as [| fuel IH]; intros s Hlen; [lia |].
  destruct (Str.strip_prefix tok s) as [rest |] eqn:E.
  - cbn [Str.replace_fuel]. rewrite E.
    change ("***" ++ Str.replace_fuel fuel tok "***" rest)
      with (String "*" (String "*" (String "*" (Str.replace_fuel fuel tok "***" rest)))).
    rewrite !contains_star by assumption. apply IH.
    apply strip_prefix_length in E. destruct tok; [contradiction |].
    cbn [String.length] in E. lia.
  - rewrite contains_eq.
    destruct (Str.strip_prefix tok (Str.replace_fuel (S fuel) tok "***" s)) as [r |] eqn:Er.
    + destruct (prefix_of_redacted tok (S fuel) s tok r Hl Er) as [r' Hr'].
      rewrite E in Hr'. discriminate.
    + cbn [Str.replace_fuel]. rewrite E. destruct s as [| c s]; [reflexivity |].
      apply IH. cbn [String.length] in Hlen. lia.
Qed.

Lemma strip_prefix_take p : forall n x r,
  Str.strip_prefix p (Str.take n x) = Some r -> exists r', Str.strip_prefix p x = Some r'.
Proof.
  induction p as [| a p IH]; intros n x r; cbn [Str.strip_prefix]; [eauto |].
  destruct n as [| n], x as [| b x]; cbn [Str.take]; try discriminate.
  destruct (Ascii.eqb a b); [| discriminate]. apply IH.
Qed.

(** What a text does not contain, its prefixes do not contain. *)
Lemma contains_take tok : forall x n,
  tok <> EmptyString -> Str.contains tok x = false -> Str.contains tok (Str.take n x) = false.
Proof.
  intros x n Hne. revert n. induction x as [| b x IH]; intros n H.
  - destruct n; exact H.
  - destruct n as [| n].
    + cbn [Str.take]. destruct tok; [contradiction | reflexivity].
    + rewrite contains_eq in H. rewrite contains_eq.
      destruct (Str.strip_prefix tok (String b x)) eqn:E; [discriminate |].
      destruct (Str.strip_prefix tok (Str.take (S n) (String b x))) as [r |] eqn:Et.
      * apply strip_prefix_take in Et as [r' Hr']. rewrite E in Hr'. discriminate.
      * cbn [Str.take]. apply IH. exact H.
Qed.

Lemma strip_prefix_junction c tok : forall a b r,
  lacks c tok = true ->
  Str.strip_prefix tok (a ++ String c b) = Some r ->
  exists r', Str.strip_prefix tok a = Some r'.
Proof.
  induction tok as [| x tok IH]; intros a b r Hl; cbn [Str.strip_prefix]; [eauto |].
  cbn [lacks] in Hl. apply andb_true_iff in Hl as [Hx Hl].
  destruct a as [| y a].
  - change (EmptyString ++ String c b) with (String c b). cbn [Str.strip_prefix].
    destruct (Ascii.eqb x c); [discriminate Hx | discriminate].
  - change (String y a ++ String c b) with (String y (a ++ String c b)).
    cbn [Str.strip_prefix].
    destruct (Ascii.eqb x y); [| discriminate]. apply IH. exact Hl.
Qed.

(** Two texts without the token, joined by a character that is not in the
    token, do not contain it. *)
Lemma contains_junction c tok a b :
  tok <> EmptyString -> lacks c tok = true ->
  Str.contains tok a = false -> Str.contains tok b = false ->
  Str.contains tok (a ++ String c b) = false.
Proof.
  intros Hne Hl Ha Hb. induction a as [| y a IH].
  - change (EmptyString ++ String c b) with (String c b).
    rewrite contains_eq.
    destruct (Str.strip_prefix tok (String c b)) as [r |] eqn:E; [| exact Hb].
    destruct (strip_prefix_junction c tok EmptyString b r Hl E) as [r' Hr'].
    destruct tok; [contradiction | discriminate].
  - rewrite contains_eq in Ha.
    destruct (Str.strip_prefix tok (String y a)) eqn:E; [discriminate |].
    rewrite contains_eq.
    destruct (Str.strip_prefix tok (String y a ++ String c b)) as [r |] eqn:Ej.
    + apply strip_prefix_junction in Ej as [r' Hr']; [| exact Hl].
      rewrite E in Hr'. discriminate.
    + change (String y a ++ String c b) with (String y (a ++ String c b)).
      apply IH. exact Ha.
Qed.

(** [s.replace(tok, "***")] leaves no [tok]. *)
Lemma replace_hides tok s :
  tok <> EmptyString -> lacks "*" tok = true ->
  Str.contains tok (Str.replace tok "***" s) = false.
Proof.
  intros Hne Hl. unfold Str.replace. destruct tok as [| a tok]; [contradiction |].
  apply replace_fuel_hides; [exact Hne | exact Hl | lia].
Qed.

(** Every piece that a report cuts from a cleaned text is free of the
    token. *)
Lemma redacted_prefix_hides tok n s :
  tok <> EmptyString -> lacks "*" tok = true ->
  Str.contains tok (Str.take n (redact tok s)) = false.
Proof.
  intros Hne Hl. apply contains_take; [exact Hne |]. unfold redact.
  destruct (truthy tok) eqn:E; [apply replace_hides; assumption |].
  destruct tok; [contradiction | discriminate].
Qed.

(** X5: the replacement that the branch tools apply to the output,
    [s.replace(github_token, "***") if github_token else s], leaves no
    occurrence of a token that is not empty and has no ['*']. *)
Theorem redact_removes_token tok s :
  tok <> EmptyString -> lacks "*" tok = true ->
  Str.contains tok (redact tok s) = false.
Proof.
  intros Hne Hl. unfold redact.
  destruct (truthy tok) eqn:E; [apply replace_hides; assumption |].
  destruct tok; [contradiction | discriminate].
Qed.

Lemma redact_removes_token_witness :
  Str.contains "ghp_s3cret"
    (redact "ghp_s3cret" "fatal: https://ghp_s3cret@github.com/acme/widgets.git")
  = false.
Proof. apply redact_removes_token; [discriminate | reflexivity]. Defined.

(** A token with a ['*'] can show again after the replacement. *)
Example redact_can_leave_starred_token :
  Str.contains "*a" (redact "*a" "*a*aa") = true.
Proof. reflexivity. Qed.

Local Opaque Str.take.

Lemma shown_hidden tok n m out err :
  tok <> EmptyString -> lacks "*" tok = true ->
  hidden tok (shown (Str.take n (redact tok out))
                (if truthy (redact tok err)
                 then Some (Str.take m (redact tok err)) else None)).
Proof.
  intros Hne Hl.
  destruct (truthy (redact tok err)); repeat constructor;
    apply redacted_prefix_hides; assumption.
Qed.

(** X6: what the tools that clone a branch show of the container's output
    and errors does not contain the token, when the token is not empty and
    has no ['*'] and no line break. *)
Theorem branch_reports_hide_token tok :
  tok <> EmptyString -> lacks "*" tok = true -> lacks Str.newline tok = true ->
  (forall repo_name branch_name lint_command docker_image setup_commands timeout d r d',
      lint_code_on_branch tok repo_name branch_name lint_command docker_image
        setup_commands timeout d = Some (r, d') ->
      hidden tok (lint_texts r))
  /\ (forall repo_name branch_name test_command docker_image setup_commands timeout
             d r d',
        run_tests_on_branch tok repo_name branch_name test_command docker_image
          setup_commands timeout d = Some (r, d') ->
        hidden tok (tests_texts r))
  /\ (forall repo_name branch_name coverage_command docker_image setup_commands
             min_coverage timeout d r d',
        run_coverage_on_branch tok repo_name branch_name coverage_command docker_image
          setup_commands min_coverage timeout d = Some (Ret r, d') ->
        hidden tok (coverage_texts r))
  /\ (forall repo_name branch_name mutation_command docker_image setup_commands
             test_command min_mutation_score timeout d r d',
        run_mutation_tests_on_branch tok repo_name branch_name mutation_command
          docker_image setup_commands test_command min_mutation_score timeout d
        = Some (Ret r, d') ->
        hidden tok (mutation_texts r)).
Proof.
  intros Hne Hl Hnl.
  pose proof (fun n x => redacted_prefix_hides tok n x Hne Hl) as Hred.
  split; [| split; [| split]].
  - intros repo_name branch_name lint_command docker_image setup_commands timeout d r d'.
    unfold lint_code_on_branch. cbv zeta.
    destruct (negb _); [intros [= <- _]; constructor |].
    destruct (execute _ _ _ _ d) as [[res d1] |]; [| discriminate].
    destruct (exit_code res =? 0).
    + destruct (truthy (Str.strip _)); intros [= <- _]; repeat constructor.
      apply Hred.
    + intros [= <- _]. apply shown_hidden; assumption.
  - intros repo_name branch_name test_command docker_image setup_commands timeout d r d'.
    unfold run_tests_on_branch. cbv zeta.
    destruct (negb _); [intros [= <- _]; constructor |].
    destruct (execute _ _ _ _ d) as [[res d1] |]; [| discriminate].
    intros [= <- _]. apply shown_hidden; assumption.
  - intros repo_name branch_name coverage_command docker_image setup_commands
           min_coverage timeout d r d'.
    unfold run_coverage_on_branch. cbv zeta.
    destruct (negb _); [intros [= <- _]; constructor |].
    destruct (execute _ _ _ _ d) as [[res d1] |]; [| discriminate].
    destruct (find_coverage _ _) as [cov | e]; cbn [bind]; [| discriminate].
    intros [= <- _]. apply shown_hidden; assumption.
  - intros repo_name branch_name mutation_command docker_image setup_commands
           test_command min_mutation_score timeout d r d'.
    unfold run_mutation_tests_on_branch. cbv zeta.
    destruct (negb _); [intros [= <- _]; constructor |].
    destruct (execute _ _ _ _ d) as [[r1 d1] |]; [| discriminate].
    destruct (negb _).
    + intros [= <- _]. apply shown_hidden; assumption.
    + destruct (execute _ _ _ _ d1) as [[r2 d2] |]; [| discriminate].
      destruct (parse_mutation_output _) as [[[[[[t k] sv] to] nc] sc] | e];
        cbn [bind]; [| discriminate].
      intros [= <- _]. repeat constructor. cbn [mut_raw].
      apply contains_take; [exact Hne |].
      assert (Hwhole : forall x, Str.contains tok (redact tok x) = false).
      { intros x. unfold redact. destruct (truthy tok) eqn:E;
          [apply replace_hides; assumption |].
        destruct tok; [contradiction | discriminate]. }
      apply (contains_junction Str.newline); auto.
Qed.

Lemma branch_reports_hide_token_witness :
  exists r d',
    lint_code_on_branch "ghp_s3cret" "acme/widgets" "fix-42" "ruff check ."
      "python:3.12-slim" [] 120 Scenarios.quotes_clone_url = Some (r, d')
    /\ lint_texts r = ["Cloning into /app/repo";
                       "fatal: unable to access https://***@github.com/acme/widgets.git"]
    /\ hidden "ghp_s3cret" (lint_texts r).
Proof.
  eexists. eexists. split; [vm_compute; reflexivity |].
  split; [vm_compute; reflexivity |].
  refine (proj1 (branch_reports_hide_token "ghp_s3cret" _ _ _) "acme/widgets" "fix-42"
            "ruff check ." "python:3.12-slim" [] 120 Scenarios.quotes_clone_url _ _ _);
    [discriminate | reflexivity | reflexivity | vm_compute; reflexivity].
Defined.

End RedactionProperties.


(** ** The matcher finds every match *)

Section MatcherCompleteness.

Import Re ReSpec Sandbox Tools.

Lemma run_star_eq {R : Type} icase greedy r s c (k : string -> caps -> option R) :
  run icase (Star greedy r) s c k
  = star_loop (run icase r) greedy k (String.length s) s c.
Proof. reflexivity. Qed.

Lemma run_complete {R : Type} icase r s c s' c' :
  Matches icase r s c s' c' -> star_chars r = true ->
  forall k : string -> caps -> option R, k s' c' <> None -> run icase r s c k <> None.
Proof.
  induction 1 as [s c | cl a s c E | r1 r2 s c s1 c1 s2 c2 M1 IH1 M2 IH2
                  | g r s c | g r s c s1 c1 s2 c2 M1 IH1 M2 IH2
                  | r s c s' c' M IH | r s c | n r s c s' c' M IH];
    intros Hs k Hk.
  - exact Hk.
  - cbn [run]. rewrite E. exact Hk.
  - cbn [star_chars] in Hs. apply andb_true_iff in Hs as [Hs1 Hs2].
    cbn [run]. apply IH1; [exact Hs1 |]. apply IH2; assumption.
  - rewrite run_star_eq. destruct (String.length s); cbn [star_loop]; [exact Hk |].
    cbv zeta. destruct g.
    + destruct (run icase r s c _); [discriminate | exact Hk].
    + destruct (k s c); [discriminate | contradiction].
  - destruct r as [| cl | | | |]; try discriminate Hs.
    inversion M1 as [| cl' a s0 c0 E | | | | | |]; subst.
    specialize (IH2 Hs k Hk). rewrite run_star_eq in IH2.
    rewrite run_star_eq. cbn [String.length star_loop]. cbv zeta.
    cbn [run]. rewrite E.
    replace (String.length s1 <? S (String.length s1))%nat with true
      by (symmetry; apply Nat.ltb_lt; lia).
    destruct g.
    + destruct (star_loop _ true k (String.length s1) s1 c1); [discriminate | contradiction].
    + destruct (k (String a s1) c1); [discriminate | exact IH2].
  - cbn [run]. cbn [star_chars] in Hs. specialize (IH Hs k Hk).
    destruct (run icase r s c k); [discriminate | contradiction].
  - cbn [run]. destruct (run icase r s c k); [discriminate | exact Hk].
  - cbn [run]. cbn [star_chars] in Hs. apply IH; [exact Hs | exact Hk].
Qed.

Lemma search_at_suffix icase r s0 :
  match_at icase r s0 <> None -> forall pre, search icase r (pre ++ s0) <> None.
Proof.
  intros H pre. induction pre as [| a pre IH].
  - change (EmptyString ++ s0) with s0. destruct s0; cbn [search];
      destruct (match_at icase r _); try discriminate; contradiction.
  - change (String a pre ++ s0) with (String a (pre ++ s0)). cbn [search].
    destruct (match_at icase r (String a (pre ++ s0))); [discriminate | exact IH].
Qed.

(** [search] finds a match whenever the pattern matches somewhere. *)
Lemma search_complete icase r pre s0 s' c' :
  star_chars r = true -> Matches icase r s0 [] s' c' ->
  search icase r (pre ++ s0) <> None.
Proof.
  intros Hs M. apply search_at_suffix. unfold match_at.
  apply (run_complete icase r s0 [] s' c' M Hs). discriminate.
Qed.

Lemma search_Matches_at icase r s m :
  search icase r s = Some m ->
  exists pre s0, s = pre ++ s0 /\ Matches icase r s0 [] (rest m) (groups m).
Proof.
  induction s as [| a s IH]; cbn [search]; unfold match_at.
  - destruct (run icase r EmptyString [] _) as [m' |] eqn:E; [| discriminate].
    intros [= ->]. apply run_sound in E as (s' & c' & M & [= <-]).
    exists EmptyString, EmptyString. split; [reflexivity | exact M].
  - destruct (run icase r (String a s) [] _) as [m' |] eqn:E.
    + intros [= ->]. apply run_sound in E as (s' & c' & M & [= <-]).
      exists EmptyString, (String a s). split; [reflexivity | exact M].
    + intros H. destruct (IH H) as (pre & s0 & -> & M).
      exists (String a pre), s0. split; [reflexivity | exact M].
Qed.

Lemma covered_search icase q p s :
  covers icase q p -> star_chars q = true ->
  search icase q s = None -> search icase p s = None.
Proof.
  intros Hc Hs Hq. destruct (search icase p s) as [m |] eqn:E; [| reflexivity].
  apply search_Matches_at in E as (pre & s0 & -> & M).
  destruct (Hc _ _ _ M) as (pre' & s1 & s'' & c'' & -> & M').
  exfalso. rewrite <- string_app_assoc in Hq.
  exact (search_complete icase q _ s1 s'' c'' Hs M' Hq).
Qed.

Lemma first_search_None_In ps s q :
  first_search ps s = None -> In q ps -> search true q s = None.
Proof.
  induction ps as [| p ps IH]; cbn [first_search In]; [contradiction |].
  destruct (search true p s) eqn:E; [discriminate |].
  intros H [<- | Hin]; [exact E | exact (IH H Hin)].
Qed.

(** A pattern after one that covers it can be left out of the list. *)
Lemma first_search_skip q p a b s :
  In q a -> covers true q p -> star_chars q = true ->
  first_search (a ++ p :: b) s = first_search (a ++ b) s.
Proof.
  intros Hin Hc Hs.
  assert (H : first_search a s = None -> search true p s = None).
  { intros Hn. apply (covered_search true q p s Hc Hs).
    exact (first_search_None_In a s q Hn Hin). }
  clear Hin. induction a as [| x a IH]; cbn [app first_search].
  - rewrite (H eq_refl). reflexivity.
  - cbn [first_search] in H. destruct (search true x s); [reflexivity | exact (IH H)].
Qed.

(** *** Patterns that never decide *)

Lemma Matches_seq icase r1 r2 s c s' c' :
  Matches icase (Seq r1 r2) s c s' c' ->
  exists s1 c1, Matches icase r1 s c s1 c1 /\ Matches icase r2 s1 c1 s' c'.
Proof. intros M. inversion M; subst; eauto. Qed.

Lemma Matches_lit_caps icase w : forall s c s' c',
  Matches icase (lit w) s c s' c' -> c' = c.
Proof.
  induction w as [| x w IH]; intros s c s' c' M; cbn [lit] in M.
  - inversion M; reflexivity.
  - apply Matches_seq in M as (s1 & c1 & M1 & M2).
    inversion M1; subst. exact (IH _ _ _ _ M2).
Qed.

Lemma Matches_lit_split icase a b : forall s c s' c',
  Matches icase (lit (a ++ b)) s c s' c' ->
  exists mid, Matches icase (lit a) s c mid c /\ Matches icase (lit b) mid c s' c'.
Proof.
  induction a as [| x a IH]; intros s c s' c' M.
  - exists s. split; [constructor | exact M].
  - change (lit (String x a ++ b)) with (Seq (Chr (Lit x)) (lit (a ++ b))) in M.
    apply Matches_seq in M as (s1 & c1 & M1 & M2).
    assert (c1 = c) by (inversion M1; reflexivity). subst c1.
    destruct (IH _ _ _ _ M2) as (mid & Ma & Mb).
    exists mid. split; [| exact Mb]. cbn [lit]. econstructor; eassumption.
Qed.

(** Under [re.IGNORECASE] the two generic patterns are the same. *)
Lemma lit_coverage_upper s c s' c' :
  Matches true (lit "coverage:") s c s' c' -> Matches true (lit "Coverage:") s c s' c'.
Proof.
  intros M. change (lit "coverage:") with (Seq (Chr (Lit "c")) (lit "overage:")) in M.
  apply Matches_seq in M as (s1 & c1 & M1 & M2).
  change (lit "Coverage:") with (Seq (Chr (Lit "C")) (lit "overage:")).
  econstructor; [| exact M2]. inversion M1 as [| cl a s0 c0 E | | | | | |]; subst.
  constructor. exact E.
Qed.

Lemma covers_here icase q p :
  (forall s0 s' c', Matches icase p s0 [] s' c' ->
     exists s'' c'', Matches icase q s0 [] s'' c'') ->
  covers icase q p.
Proof.
  intros H s0 s' c' M. destruct (H _ _ _ M) as (s'' & c'' & M').
  exists EmptyString, s0, s'', c''. split; [reflexivity | exact M'].
Qed.

Lemma nyc_table_covered : covers true p_cov_all_files p_nyc_table.
Proof.
  apply covers_here. intros s0 s' c' M.
  unfold p_nyc_table in M. cbn [seq] in M.
  apply Matches_seq in M as (s1 & c1 & M1 & M).
  apply Matches_seq in M as (s2 & c2 & M2 & M).
  apply Matches_seq in M as (s3 & c3 & M3 & M).
  apply Matches_seq in M as (s4 & c4 & M4 & M).
  apply Matches_seq in M as (s5 & c5 & M5 & _).
  exists s5, ((1%nat, consumed s4 s5) :: c5).
  unfold p_cov_all_files. cbn [seq].
  repeat (econstructor; [eassumption |]). constructor. exact M5.
Qed.

Lemma coverage_lower_covered : covers true p_coverage_upper p_coverage_lower.
Proof.
  apply covers_here. intros s0 s' c' M.
  unfold p_coverage_lower in M. cbn [seq] in M.
  apply Matches_seq in M as (s1 & c1 & M1 & M).
  exists s', c'. unfold p_coverage_upper. cbn [seq].
  econstructor; [exact (lit_coverage_upper _ _ _ _ M1) | exact M].
Qed.

Lemma jacoco_covered : covers true p_coverage_upper p_jacoco.
Proof.
  intros s0 s' c' M. unfold p_jacoco in M. cbn [seq] in M.
  apply Matches_seq in M as (s1 & c1 & M1 & M).
  change (lit "Line coverage:") with (lit ("Line " ++ "coverage:")) in M1.
  apply Matches_lit_split in M1 as (mid & Ma & Mb).
  destruct (Matches_suffix _ _ _ _ _ _ Ma) as [pre ->].
  exists pre, mid, s', c'. split; [reflexivity |].
  unfold p_coverage_upper. cbn [seq].
  econstructor; [exact (lit_coverage_upper _ _ _ _ Mb) | exact M].
Qed.

Lemma c8_lines_covered : covers true p_cov_lines p_c8_lines.
Proof.
  apply covers_here. intros s0 s' c' M.
  unfold p_c8_lines in M. cbn [seq] in M.
  apply Matches_seq in M as (s1 & c1 & M1 & M).
  change (lit "Lines:") with (lit ("Lines" ++ ":")) in M1.
  apply Matches_lit_split in M1 as (mid & Ma & Mb).
  exists s', c'. unfold p_cov_lines. cbn [seq].
  econstructor; [exact Ma |]. econstructor; [apply MStarEnd |].
  econstructor; [exact Mb | exact M].
Qed.

Ltac skip_pattern q p a b Hc :=
  etransitivity;
  [exact (first_search_skip q p a b _ ltac:(cbn [In]; auto 10) Hc eq_refl) | cbn [app]].

Lemma branch_patterns_skip text :
  first_search branch_coverage_patterns text = first_search branch_live_patterns text.
Proof.
  unfold branch_coverage_patterns, branch_live_patterns.
  skip_pattern p_cov_all_files p_nyc_table
    [p_cov_total; p_cov_all_files; p_cov_statements; p_cov_lines]
    [p_go_total; p_go_of_statements; p_coverage_upper; p_coverage_lower;
     p_percent_coverage; p_jacoco; p_c8_lines] nyc_table_covered.
  skip_pattern p_coverage_upper p_coverage_lower
    [p_cov_total; p_cov_all_files; p_cov_statements; p_cov_lines;
     p_go_total; p_go_of_statements; p_coverage_upper]
    [p_percent_coverage; p_jacoco; p_c8_lines] coverage_lower_covered.
  skip_pattern p_coverage_upper p_jacoco
    [p_cov_total; p_cov_all_files; p_cov_statements; p_cov_lines;
     p_go_total; p_go_of_statements; p_coverage_upper; p_percent_coverage]
    [p_c8_lines] jacoco_covered.
  skip_pattern p_cov_lines p_c8_lines
    [p_cov_total; p_cov_all_files; p_cov_statements; p_cov_lines;
     p_go_total; p_go_of_statements; p_coverage_upper; p_percent_coverage]
    (@nil regex) c8_lines_covered.
  reflexivity.
Qed.

Lemma sandbox_patterns_skip text :
  first_search sandbox_coverage_patterns text = first_search sandbox_live_patterns text.
Proof.
  unfold sandbox_coverage_patterns, sandbox_live_patterns.
  skip_pattern p_coverage_upper p_coverage_lower
    [p_cov_total; p_nyc_table; p_coverage_upper] [p_percent_coverage]
    coverage_lower_covered.
  reflexivity.
Qed.

(** X7: four of the twelve coverage patterns of [run_coverage_on_branch]
    never decide the figure (the NYC table with four columns, the lower-case
    [coverage:], [Line coverage:] and [Lines:]), and one of the five of
    [run_tests_with_coverage] (the lower-case [coverage:]): wherever one of
    them matches, an earlier pattern of the list matches, so the figure parsed
    with the full list is the one parsed without them. *)
Theorem coverage_patterns_that_never_decide text :
  find_coverage branch_coverage_patterns text = find_coverage branch_live_patterns text
  /\ find_coverage sandbox_coverage_patterns text
     = find_coverage sandbox_live_patterns text.
Proof.
  unfold find_coverage.
  rewrite branch_patterns_skip, sandbox_patterns_skip. split; reflexivity.
Qed.

(** *** The coverage tools *)

Lemma find_coverage_cases ps text :
  Forall (fun p => binds 1 p = true) ps ->
  (exists cov, find_coverage ps text = Ret cov)
  \/ (find_coverage ps text = Raise Captures.float_error
      /\ exists p m t, In p ps /\ search true p text = Some m
                       /\ group 1 (groups m) = Some t /\ Str.float t = None).
Proof.
  intros Hps. unfold find_coverage.
  destruct (first_search ps text) as [m |] eqn:E; [| left; eauto].
  destruct (float_group m 1) as [q | e] eqn:Ef; cbn [bind]; [left; eauto |].
  right. apply first_search_In in E as (p & Hin & Hs).
  rewrite List.Forall_forall in Hps.
  destruct (float_group_raises true p text m e (Hps p Hin) Hs Ef) as [-> (t & Ht & Hn)].
  split; [reflexivity |]. exists p, m, t. auto.
Qed.

(** X8: the two coverage tools let no exception through but the ValueError
    that float() raises on a captured figure that is no number. *)
Theorem coverage_tools_raise_only_on_malformed_figure :
  (forall code_files test_command coverage_command docker_image setup_commands
          min_coverage d e d',
      run_tests_with_coverage code_files test_command coverage_command docker_image
        setup_commands min_coverage d = Some (Raise e, d') ->
      e = Captures.float_error)
  /\ (forall github_token repo_name branch_name coverage_command docker_image
             setup_commands min_coverage timeout d e d',
        run_coverage_on_branch github_token repo_name branch_name coverage_command
          docker_image setup_commands min_coverage timeout d = Some (Raise e, d') ->
        e = Captures.float_error).
Proof.
  split.
  - intros code_files test_command coverage_command docker_image setup_commands
           min_coverage d e d'.
    unfold run_tests_with_coverage. cbv zeta.
    destruct (negb _); [discriminate |].
    destruct (execute _ _ _ _ d) as [[r1 d1] |]; [| discriminate].
    destruct (find_coverage_cases sandbox_coverage_patterns (stdout r1))
      as [[cov ->] | [-> _]]; [repeat constructor | |]; cbn [bind]; [discriminate |].
    intros [= <- _]. reflexivity.
  - intros github_token repo_name branch_name coverage_command docker_image
           setup_commands min_coverage timeout d e d'.
    unfold run_coverage_on_branch. cbv zeta.
    destruct (negb _); [discriminate |].
    destruct (execute _ _ _ _ d) as [[r1 d1] |]; [| discriminate].
    match goal with
    | |- context [find_coverage ?ps ?t] =>
        destruct (find_coverage_cases ps t) as [[cov ->] | [-> _]];
          [repeat constructor | |]
    end; cbn [bind]; [discriminate |].
    intros [= <- _]. reflexivity.
Qed.

Lemma coverage_tools_raise_only_on_malformed_figure_witness :
  (exists d',
      run_tests_with_coverage [] "pytest" "pytest --cov=." "python:3.12-slim" [] 80%Q
        Scenarios.malformed_coverage = Some (Raise Captures.float_error, d'))
  /\ Captures.float_error = Captures.float_error.
Proof.
  split.
  - eexists. vm_compute. reflexivity.
  - refine (proj1 coverage_tools_raise_only_on_malformed_figure [] "pytest"
              "pytest --cov=." "python:3.12-slim" [] 80%Q Scenarios.malformed_coverage
              _ _ _).
    vm_compute. reflexivity.
Defined.

End MatcherCompleteness.


(** ** Pushing files *)

Section PushProperties.

Import Github Gateway.

Lemma only_touched_same b ps repo repo' :
  branches repo' = branches repo -> only_touched b ps repo repo'.
Proof.
  intros E. unfold only_touched. rewrite E. repeat split; eauto.
Qed.

Lemma only_touched_insert b p c ps repo repo' (t : gmap string string) :
  branches repo !! b = Some t ->
  branches repo' = <[b := <[p := c]> t]> (branches repo) ->
  p ∈ ps -> only_touched b ps repo repo'.
Proof.
  intros Hb E Hp. unfold only_touched. rewrite E. repeat split.
  - intros b' Hne. apply lookup_insert_ne. congruence.
  - rewrite Hb. discriminate.
  - intros t0 Ht0. rewrite Hb in Ht0. injection Ht0 as <-.
    exists (<[p := c]> t). split; [apply lookup_insert_eq |].
    intros q Hq. apply lookup_insert_ne. intros ->. contradiction.
Qed.

Lemma only_touched_trans b ps r1 r2 r3 :
  only_touched b ps r1 r2 -> only_touched b ps r2 r3 -> only_touched b ps r1 r3.
Proof.
  intros (A1 & N1 & T1) (A2 & N2 & T2). repeat split.
  - intros b' Hne. rewrite (A2 b' Hne). exact (A1 b' Hne).
  - intros H. exact (N2 (N1 H)).
  - intros t Ht. destruct (T1 t Ht) as (t1 & Ht1 & K1).
    destruct (T2 t1 Ht1) as (t2 & Ht2 & K2).
    exists t2. split; [exact Ht2 |]. intros p Hp. rewrite (K2 p Hp). exact (K1 p Hp).
Qed.

Lemma only_touched_more b ps qs repo repo' :
  (forall p, p ∈ ps -> p ∈ qs) -> only_touched b ps repo repo' ->
  only_touched b qs repo repo'.
Proof.
  intros Hsub (A & N & T). repeat split; [exact A | exact N |].
  intros t Ht. destruct (T t Ht) as (t' & Ht' & K). exists t'. split; [exact Ht' |].
  intros p Hp. apply K. intros Hin. exact (Hp (Hsub p Hin)).
Qed.

Lemma get_contents_branches p ref repo :
  branches (get_contents p ref repo).2 = branches repo.
Proof.
  unfold get_contents. destruct (branches repo !! ref) as [t |]; [| reflexivity].
  destruct (t !! p); [reflexivity |]. destruct (is_dir t p); reflexivity.
Qed.

Lemma update_file_touches p c b repo :
  only_touched b [p] repo (update_file p c b repo).2.
Proof.
  unfold update_file. destruct (branches repo !! b) as [t |] eqn:Hb;
    [| apply only_touched_same; reflexivity].
  destruct (t !! p); [| apply only_touched_same; reflexivity].
  apply (only_touched_insert b p c [p] repo _ t Hb); [reflexivity |].
  apply list_elem_of_singleton. reflexivity.
Qed.

Lemma create_file_touches p c b repo :
  only_touched b [p] repo (create_file p c b repo).2.
Proof.
  unfold create_file. destruct (branches repo !! b) as [t |] eqn:Hb;
    [| apply only_touched_same; reflexivity].
  destruct (t !! p); [apply only_touched_same; reflexivity |].
  apply (only_touched_insert b p c [p] repo _ t Hb); [reflexivity |].
  apply list_elem_of_singleton. reflexivity.
Qed.

(** Whatever the loop does and however it ends, it leaves the other
    branches and the other paths alone. *)
Lemma push_files_touches file_changes b : forall created updated repo,
  only_touched b file_changes.*1 repo (push_files file_changes b created updated repo).2.
Proof.
  induction file_changes as [| [p c] tl IH]; intros created updated repo.
  - apply only_touched_same. reflexivity.
  - assert (Hhead : forall q, q ∈ [p] -> q ∈ ((p, c) :: tl).*1).
    { intros q Hq. apply list_elem_of_singleton in Hq as ->. rewrite fmap_cons. left. }
    assert (Htail : forall q, q ∈ tl.*1 -> q ∈ ((p, c) :: tl).*1).
    { intros q Hq. rewrite fmap_cons. right. exact Hq. }
    assert (Hcreate : forall cr up r1,
               only_touched b ((p, c) :: tl).*1 r1
                 (match create_file p c b r1 with
                  | (Ret _, repo') => push_files tl b (cr ++ [p]) up repo'
                  | (Raise e, repo') => (Raise e, repo')
                  end).2).
    { intros cr up r1. pose proof (create_file_touches p c b r1) as Hc.
      destruct (create_file p c b r1) as [[u | e] r2]; cbn [snd] in *.
      - eapply only_touched_trans; [exact (only_touched_more _ _ _ _ _ Hhead Hc) |].
        exact (only_touched_more _ _ _ _ _ Htail (IH _ _ _)).
      - exact (only_touched_more _ _ _ _ _ Hhead Hc). }
    cbn [push_files].
    pose proof (get_contents_branches p b repo) as Hg.
    destruct (get_contents p b repo) as [[[text | entries] | e] r1]; cbn [snd] in Hg.
    + pose proof (update_file_touches p c b r1) as Hu.
      destruct (update_file p c b r1) as [[u | e] r2]; cbn [snd] in Hu.
      * eapply only_touched_trans; [apply only_touched_same; exact Hg |].
        eapply only_touched_trans; [exact (only_touched_more _ _ _ _ _ Hhead Hu) |].
        exact (only_touched_more _ _ _ _ _ Htail (IH _ _ _)).
      * assert (H12 : only_touched b ((p, c) :: tl).*1 repo r2).
        { eapply only_touched_trans; [apply only_touched_same; exact Hg |].
          exact (only_touched_more _ _ _ _ _ Hhead Hu). }
        destruct e; try exact H12.
        eapply only_touched_trans; [exact H12 | apply Hcreate].
    + apply only_touched_same. exact Hg.
    + assert (H01 : only_touched b ((p, c) :: tl).*1 repo r1)
        by (apply only_touched_same; exact Hg).
      destruct e; try exact H01.
      eapply only_touched_trans; [exact H01 | apply Hcreate].
Qed.

Lemma create_git_ref_keeps b sha repo :
  (forall b', b' <> b ->
     branches (create_git_ref ("refs/heads/" ++ b) sha repo).2 !! b' = branches repo !! b')
  /\ (forall t, branches repo !! b = Some t ->
        branches (create_git_ref ("refs/heads/" ++ b) sha repo).2 !! b = Some t).
Proof.
  unfold create_git_ref. rewrite strip_prefix_app.
  destruct (branches repo !! b) as [t |] eqn:Hb; cbn [snd]; split.
  - reflexivity.
  - intros t0 [= <-]. exact Hb.
  - intros b' Hne. cbn. apply lookup_insert_ne. congruence.
  - discriminate.
Qed.

(** X9: the two tools that push files change nothing but the paths of
    [file_changes] on the branch they are given, however they end: every
    other branch and every other path of that branch is as before, and an
    existing branch stays. *)
Theorem push_touches_only_named_paths repo_name branch_name file_changes
    commit_message base_branch repo :
  only_touched branch_name file_changes.*1 repo
    (push_files_to_branch repo_name branch_name file_changes commit_message repo).2
  /\ (forall b', b' <> branch_name ->
        branches (create_branch_with_files repo_name branch_name file_changes
                    commit_message base_branch repo).2 !! b'
        = branches repo !! b')
  /\ (forall t, branches repo !! branch_name = Some t ->
        exists t',
          branches (create_branch_with_files repo_name branch_name file_changes
                      commit_message base_branch repo).2 !! branch_name = Some t'
          /\ forall p, p ∉ file_changes.*1 -> t' !! p = t !! p).
Proof.
  assert (Hpush : forall r0,
             only_touched branch_name file_changes.*1 r0
               (push_files_to_branch repo_name branch_name file_changes
                  commit_message r0).2).
  { intros r0. unfold push_files_to_branch.
    pose proof (push_files_touches file_changes branch_name [] [] r0) as H.
    destruct (push_files file_changes branch_name [] [] r0)
      as [[[report | [cr up]] | e] r1]; cbn [snd] in H; try exact H.
    destruct e; exact H. }
  split; [apply Hpush |].
  assert (Hall : exists r1,
             (forall b', b' <> branch_name -> branches r1 !! b' = branches repo !! b')
             /\ (forall t, branches repo !! branch_name = Some t ->
                   branches r1 !! branch_name = Some t)
             /\ ((create_branch_with_files repo_name branch_name file_changes
                    commit_message base_branch repo).2 = r1
                 \/ (create_branch_with_files repo_name branch_name file_changes
                       commit_message base_branch repo).2
                    = (push_files file_changes branch_name [] [] r1).2)).
  { unfold create_branch_with_files.
    destruct file_changes as [| pc tl] eqn:Efc; [exists repo; auto |].
    rewrite <- Efc. destruct (first_too_short file_changes); [exists repo; auto |].
    unfold get_branch. destruct (branches repo !! base_branch) as [base |].
    - destruct (create_git_ref_keeps branch_name base
                  (log_op (OpGetBranch base_branch) repo)) as [Ho Hk].
      destruct (create_git_ref ("refs/heads/" ++ branch_name) base
                  (log_op (OpGetBranch base_branch) repo)) as [[u | e] r1];
        cbn [snd] in Ho, Hk; exists r1; (split; [exact Ho |]); (split; [exact Hk |]).
      + right. destruct (push_files file_changes branch_name [] [] r1)
          as [[[report | [cr up]] | e] r2]; try reflexivity. destruct e; reflexivity.
      + destruct e; try (left; reflexivity).
        destruct (Str.contains "Reference already exists" msg); [| left; reflexivity].
        right. destruct (push_files file_changes branch_name [] [] r1)
          as [[[report | [cr up]] | e] r2]; try reflexivity. destruct e; reflexivity.
    - exists (log_op (OpGetBranch base_branch) repo). auto. }
  destruct Hall as (r1 & Ho & Hk & [-> | ->]).
  - split; [exact Ho |]. intros t Ht. exists t. split; [exact (Hk t Ht) | reflexivity].
  - destruct (push_files_touches file_changes branch_name [] [] r1) as (A & _ & T).
    split.
    + intros b' Hne. rewrite (A b' Hne). exact (Ho b' Hne).
    + intros t Ht. exact (T t (Hk t Ht)).
Qed.

(** *** A push that goes through *)

Lemma present_insert (t : gmap string string) p c tl :
  p ∉ tl.*1 -> present (<[p := c]> t) tl = present t tl.
Proof.
  unfold present. intros Hp. induction tl as [| [q d] tl IH]; [reflexivity |].
  rewrite fmap_cons in Hp |- *. cbn [fst List.filter] in *.
  apply not_elem_of_cons in Hp as [Hne Hp].
  rewrite lookup_insert_ne by congruence. rewrite (IH Hp). reflexivity.
Qed.

Lemma absent_insert (t : gmap string string) p c tl :
  p ∉ tl.*1 -> absent (<[p := c]> t) tl = absent t tl.
Proof.
  unfold absent. intros Hp. induction tl as [| [q d] tl IH]; [reflexivity |].
  rewrite fmap_cons in Hp |- *. cbn [fst List.filter] in *.
  apply not_elem_of_cons in Hp as [Hne Hp].
  rewrite lookup_insert_ne by congruence. rewrite (IH Hp). reflexivity.
Qed.

(** The loop on a pushable prefix of its input. *)
Lemma push_files_prefix fc1 : forall branch_name repo (t : gmap string string),
  branches repo !! branch_name = Some t ->
  pushable t fc1 ->
  exists repo1,
    branches repo1 = <[branch_name := list_to_map fc1 ∪ t]> (branches repo)
    /\ forall rest created updated,
         push_files (fc1 ++ rest) branch_name created updated repo
         = push_files rest branch_name (created ++ absent t fc1)
             (updated ++ present t fc1) repo1.
Proof.
  induction fc1 as [| [p c] tl IH]; intros branch_name repo t Hb (Hnd & Hdir & Hpair).
  - exists repo. split.
    + cbn. rewrite (left_id ∅ (∪)). symmetry. apply insert_id. exact Hb.
    + intros rest created updated. cbn. rewrite !app_nil_r. reflexivity.
  - destruct (push_one p c branch_name repo t Hb) as (r1 & Hb1 & Hstep).
    { apply Hdir. rewrite fmap_cons. left. }
    rewrite fmap_cons in Hnd. cbn [fst] in Hnd.
    apply NoDup_cons in Hnd as [Hnotin Hnd].
    destruct (IH branch_name r1 (<[p := c]> t)) as (r2 & Hb2 & Hrest).
    + rewrite Hb1. apply lookup_insert_eq.
    + split; [exact Hnd |]. split.
      * intros q Hq. destruct (is_dir (<[p := c]> t) q) eqn:E; [| reflexivity].
        apply is_dir_insert in E as [E | E].
        -- rewrite (Hdir q) in E by (rewrite fmap_cons; right; exact Hq). discriminate.
        -- rewrite (Hpair q p) in E;
             [discriminate | rewrite fmap_cons; right; exact Hq | rewrite fmap_cons; left].
      * intros q1 q2 H1 H2. apply Hpair; rewrite fmap_cons; right; assumption.
    + exists r2. split.
      * rewrite Hb2, Hb1, insert_insert_eq. f_equal.
        rewrite list_to_map_cons. rewrite <- insert_union_l. symmetry.
        apply insert_union_r. apply not_elem_of_list_to_map_1. exact Hnotin.
      * intros rest created updated.
        change (((p, c) :: tl) ++ rest)%list with ((p, c) :: (tl ++ rest))%list.
        rewrite Hstep, Hrest.
        rewrite (present_insert t p c tl Hnotin), (absent_insert t p c tl Hnotin).
        unfold present, absent. rewrite fmap_cons. cbn [fst List.filter].
        destruct (t !! p) as [old |] eqn:Ep.
        -- rewrite (bool_decide_eq_true_2 _ (mk_is_Some _ _ eq_refl)). cbn [negb].
           rewrite <- app_assoc. reflexivity.
        -- rewrite (bool_decide_eq_false_2 (is_Some None)) by (apply is_Some_None).
           cbn [negb]. rewrite <- app_assoc. reflexivity.
Qed.

(** X10: a push onto an existing branch of paths that are pairwise
    distinct, no directories of the branch and not below one another reports
    success, lists as updated the paths that were files of the branch and as
    created the others, in the order given, and every pushed file then reads
    back with the content pushed. *)
Theorem pushed_files_read_back repo_name branch_name file_changes commit_message
    repo (t : gmap string string) :
  branches repo !! branch_name = Some t ->
  pushable t file_changes ->
  exists repo',
    push_files_to_branch repo_name branch_name file_changes commit_message repo
    = (Ret (PushSuccess branch_name (absent t file_changes) (present t file_changes)),
       repo')
    /\ branches repo' = <[branch_name := list_to_map file_changes ∪ t]> (branches repo)
    /\ forall p c, (p, c) ∈ file_changes ->
         (get_file_content repo_name p branch_name repo').1 = FileText c.
Proof.
  intros Hb Hp. destruct (push_files_prefix file_changes branch_name repo t Hb Hp)
    as (repo' & Hbr & Hrun).
  exists repo'. split; [| split; [exact Hbr |]].
  - unfold push_files_to_branch. specialize (Hrun [] [] []).
    rewrite app_nil_r in Hrun. rewrite Hrun. reflexivity.
  - intros p c Hin. unfold get_file_content, get_contents.
    rewrite Hbr, lookup_insert_eq.
    assert (Hl : (list_to_map file_changes ∪ t : gmap string string) !! p = Some c).
    { apply lookup_union_Some_l. apply elem_of_list_to_map_1; [exact (proj1 Hp) | exact Hin]. }
    rewrite Hl. reflexivity.
Qed.

Lemma pushed_files_read_back_witness :
  exists repo',
    push_files_to_branch "acme/widgets" "fix-42"
      [("src/app.py", "print('bye')"); ("src/util.py", "x = 1")] "Fix" Scenarios.repository
    = (Ret (PushSuccess "fix-42" ["src/util.py"] ["src/app.py"]), repo')
    /\ (get_file_content "acme/widgets" "src/util.py" "fix-42" repo').1 = FileText "x = 1".
Proof.
  destruct (pushed_files_read_back "acme/widgets" "fix-42"
              [("src/app.py", "print('bye')"); ("src/util.py", "x = 1")] "Fix"
              Scenarios.repository Scenarios.feature) as (repo' & Hrun & _ & Hread).
  - unfold Scenarios.repository. cbn [branches].
    rewrite lookup_insert_ne by discriminate. apply lookup_insert_eq.
  - split; [| split].
    + apply NoDup_cons. split; [| apply NoDup_singleton].
      rewrite list_elem_of_singleton. discriminate.
    + intros p Hp. repeat (apply elem_of_cons in Hp as [-> | Hp]);
        first [vm_compute; reflexivity | by apply elem_of_nil in Hp].
    + intros p q Hp Hq.
      repeat (apply elem_of_cons in Hp as [-> | Hp]);
        repeat (apply elem_of_cons in Hq as [-> | Hq]);
        first [reflexivity | by apply elem_of_nil in Hp | by apply elem_of_nil in Hq].
  - exists repo'. split.
    + rewrite Hrun. reflexivity.
    + apply Hread. apply elem_of_cons. right. apply elem_of_cons. left. reflexivity.
Defined.

(** X11: a push is not undone when it stops. When the files before a path
    went through and that path is a directory of the branch by then, the call
    returns the message about the directory, and the files before it are on
    the branch. *)
Theorem push_stopped_keeps_earlier_files repo_name branch_name before file_path
    content after commit_message repo (t : gmap string string) :
  branches repo !! branch_name = Some t ->
  pushable t before ->
  (list_to_map before ∪ t : gmap string string) !! file_path = None ->
  is_dir (list_to_map before ∪ t) file_path = true ->
  exists repo',
    push_files_to_branch repo_name branch_name
      (before ++ (file_path, content) :: after) commit_message repo
    = (Ret (PushStopped (ErrorIsDirectory file_path branch_name)), repo')
    /\ branches repo' = <[branch_name := list_to_map before ∪ t]> (branches repo).
Proof.
  intros Hb Hp Hfile Hdir.
  destruct (push_files_prefix before branch_name repo t Hb Hp) as (r1 & Hbr & Hrun).
  eexists. unfold push_files_to_branch. rewrite Hrun. cbn [push_files].
  unfold get_contents. rewrite Hbr, lookup_insert_eq, Hfile, Hdir.
  split; [reflexivity |]. rewrite branches_log_op. exact Hbr.
Qed.

Lemma push_stopped_keeps_earlier_files_witness :
  exists repo',
    push_files_to_branch "acme/widgets" "fix-42"
      [("src/util.py", "x = 1"); ("src", "y = 2"); ("setup.py", "z = 3")] "Fix"
      Scenarios.repository
    = (Ret (PushStopped (ErrorIsDirectory "src" "fix-42")), repo')
    /\ (get_file_content "acme/widgets" "src/util.py" "fix-42" repo').1 = FileText "x = 1"
    /\ (get_file_content "acme/widgets" "setup.py" "fix-42" repo').1
       = FileError "setup.py" (exn_str (GithubException "Not Found")).
Proof.
  destruct (push_stopped_keeps_earlier_files "acme/widgets" "fix-42"
              [("src/util.py", "x = 1")] "src" "y = 2" [("setup.py", "z = 3")] "Fix"
              Scenarios.repository Scenarios.feature) as (repo' & Hrun & Hbr).
  - unfold Scenarios.repository. cbn [branches].
    rewrite lookup_insert_ne by discriminate. apply lookup_insert_eq.
  - split; [| split].
    + apply NoDup_singleton.
    + intros p Hp. apply list_elem_of_singleton in Hp as ->. vm_compute. reflexivity.
    + intros p q Hp Hq. apply list_elem_of_singleton in Hp as ->.
      apply list_elem_of_singleton in Hq as ->. reflexivity.
  - vm_compute. reflexivity.
  - vm_compute. reflexivity.
  - exists repo'. split; [exact Hrun |].
    unfold get_file_content, get_contents. rewrite Hbr, lookup_insert_eq.
    split; vm_compute; reflexivity.
Defined.

(** X12: a push to a branch that does not exist creates nothing: with a file
    to push it returns the error of the hosting platform and every branch is
    as before; with no file to push it reports success. *)
Theorem push_to_missing_branch repo_name branch_name commit_message repo :
  branches repo !! branch_name = None ->
  (forall file_path content rest,
      exists repo',
        push_files_to_branch repo_name branch_name ((file_path, content) :: rest)
          commit_message repo
        = (Ret (PushError ("Branch " ++ branch_name ++ " not found")), repo')
        /\ branches repo' = branches repo)
  /\ push_files_to_branch repo_name branch_name [] commit_message repo
     = (Ret (PushSuccess branch_name [] []), repo).
Proof.
  intros Hb. split; [| reflexivity].
  intros file_path content rest. eexists.
  unfold push_files_to_branch. cbn [push_files].
  unfold get_contents. rewrite Hb.
  unfold create_file. rewrite branches_log_op, Hb.
  split; reflexivity.
Qed.

Lemma push_to_missing_branch_witness :
  exists repo',
    push_files_to_branch "acme/widgets" "no-such-branch" [("a.py", "x = 1")] "Fix"
      Scenarios.repository
    = (Ret (PushError "Branch no-such-branch not found"), repo')
    /\ branches repo' = branches Scenarios.repository.
Proof.
  exact (proj1 (push_to_missing_branch "acme/widgets" "no-such-branch" "Fix"
                  Scenarios.repository ltac:(vm_compute; reflexivity))
           "a.py" "x = 1" []).
Defined.

(** X13: on a branch name that is free, [create_branch] makes the branch a
    copy of the base branch, and [create_branch_with_files] puts the files on
    top of that copy and reports the branch as created; when the base branch
    is missing neither creates anything. *)
Theorem new_branch_starts_from_base repo_name branch_name base_branch repo :
  branches repo !! branch_name = None ->
  (forall base_tree : gmap string string,
      branches repo !! base_branch = Some base_tree ->
      (exists repo',
          create_branch repo_name branch_name base_branch repo
          = (Ret (SuccessCreated branch_name base_branch), repo')
          /\ branches repo' = <[branch_name := base_tree]> (branches repo))
      /\ (forall file_changes commit_message,
            file_changes <> [] -> first_too_short file_changes = None ->
            pushable base_tree file_changes ->
            exists repo',
              create_branch_with_files repo_name branch_name file_changes
                commit_message base_branch repo
              = (Ret (SuccessPushed "created" (absent base_tree file_changes)
                        (present base_tree file_changes)), repo')
              /\ branches repo'
                 = <[branch_name := list_to_map file_changes ∪ base_tree]>
                     (branches repo)))
  /\ (branches repo !! base_branch = None ->
      (exists repo',
          create_branch repo_name branch_name base_branch repo
          = (Ret (ErrorCreatingBranch "Branch not found"), repo')
          /\ branches repo' = branches repo)
      /\ (forall file_changes commit_message,
            file_changes <> [] -> first_too_short file_changes = None ->
            exists repo',
              create_branch_with_files repo_name branch_name file_changes
                commit_message base_branch repo
              = (Ret (Error "Branch not found"), repo')
              /\ branches repo' = branches repo)).
Proof.
  intros Hfree. split.
  - intros base_tree Hbase. split.
    + eexists. unfold create_branch, get_branch. rewrite Hbase.
      unfold create_git_ref. rewrite strip_prefix_app, branches_log_op, Hfree.
      split; reflexivity.
    + intros file_changes commit_message Hne Hvalid Hp.
      destruct (push_files_prefix file_changes branch_name
                  (set_branch branch_name base_tree
                     (log_op (OpCreateGitRef ("refs/heads/" ++ branch_name))
                        (log_op (OpGetBranch base_branch) repo))) base_tree)
        as (repo' & Hbr & Hrun); [apply lookup_insert_eq | exact Hp |].
      exists repo'. split.
      * unfold create_branch_with_files.
        destruct file_changes as [| pc tl] eqn:Efc; [contradiction |].
        rewrite <- Efc in *. rewrite Hvalid. unfold get_branch. rewrite Hbase.
        unfold create_git_ref. rewrite strip_prefix_app, branches_log_op, Hfree.
        specialize (Hrun [] [] []). rewrite app_nil_r in Hrun. rewrite Hrun.
        reflexivity.
      * rewrite Hbr. cbn. apply insert_insert_eq.
  - intros Hbase. split.
    + eexists. unfold create_branch, get_branch. rewrite Hbase. cbn.
      split; reflexivity.
    + intros file_changes commit_message Hne Hvalid. eexists.
      unfold create_branch_with_files.
      destruct file_changes as [| pc tl] eqn:Efc; [contradiction |].
      rewrite <- Efc in *. rewrite Hvalid. unfold get_branch. rewrite Hbase.
      split; reflexivity.
Qed.

Lemma new_branch_starts_from_base_witness :
  exists repo',
    create_branch "acme/widgets" "fix-43" "main" Scenarios.repository
    = (Ret (SuccessCreated "fix-43" "main"), repo')
    /\ branches repo' = <["fix-43" := Scenarios.trunk]> (branches Scenarios.repository).
Proof.
  exact (proj1 (proj1 (new_branch_starts_from_base "acme/widgets" "fix-43" "main"
                         Scenarios.repository ltac:(vm_compute; reflexivity))
                  Scenarios.trunk ltac:(apply lookup_insert_eq))).
Defined.

End PushProperties.


(** ** The monitors, poll by poll *)

Section PollingProperties.

Import CI Polling.

Variable w : World.
Variables timeout poll_interval : Z.





Hypothesis progress : forall i, 0 < latency w i + poll_interval.




End PollingProperties.

Section MonitorTheorems.

Import CI Polling.







End MonitorTheorems.


(** ** Workers do not share names or state keys *)

Section SquadProperties.

Import Squads.



Lemma async_worker_id_inj a b : async_worker_id a = async_worker_id b -> a = b.
Proof.
  unfold async_worker_id. intros H. apply String.app_inj in H.
  apply pretty_Z_inj in H. exact H.
Qed.






(** *** The orchestrator *)





End SquadProperties.


(** ** The status of a commit *)

Section StatusProperties.

Import CI FailureDetails.

Lemma native_status_terminal runs :
  is_terminal (native_status runs) = forallb completed runs.
Proof.
  unfold native_status. destruct (forallb completed runs); [| reflexivity].
  cbn [negb]. destruct (existsb concluded_failure runs); [reflexivity |].
  destruct (existsb (conclusion_is "cancelled") runs); reflexivity.
Qed.

Lemma fallback_terminal v :
  is_terminal (combined_fallback v) = true <->
  exists st, combined_status v = Ret st /\ 0 < total_count st
             /\ (state st = "success" \/ state st = "failure" \/ state st = "cancelled").
Proof.
  unfold combined_fallback. destruct (combined_status v) as [st | e].
  - destruct (0 <? total_count st) eqn:Ec.
    + apply Z.ltb_lt in Ec.
      destruct (String.eqb (state st) "success") eqn:E1.
      { apply String.eqb_eq in E1. split; [intros _; eauto 10 | reflexivity]. }
      destruct (String.eqb (state st) "pending") eqn:E2.
      { apply String.eqb_eq in E2. split; [discriminate |].
        intros (st' & [= <-] & _ & [H | [H | H]]); rewrite H in E2; discriminate. }
      destruct (String.eqb (state st) "failure") eqn:E3.
      { apply String.eqb_eq in E3. split; [intros _; eauto 10 | reflexivity]. }
      unfold is_terminal. cbn [value]. rewrite E1, E3. cbn [orb]. split.
      * intros H. apply String.eqb_eq in H. eauto 10.
      * intros (st' & [= <-] & _ & [H | [H | H]]);
          [rewrite H in E1; discriminate | rewrite H in E3; discriminate |].
        apply String.eqb_eq. exact H.
    + apply Z.ltb_ge in Ec. split; [discriminate |].
      intros (st' & [= <-] & H & _). lia.
  - split; [discriminate |]. intros (st & H & _). discriminate.
Qed.

(** X19: when the monitors can stop. [get_ci_status] gives one of the three
    statuses that end a monitoring loop exactly when the commit has workflow
    runs and all of them are completed, or it has none (or they cannot be
    listed) and its combined status has a status and is success, failure or
    cancelled. *)
Theorem status_terminal_iff (v : CIView) :
  is_terminal (get_ci_status v) = true <->
  (exists runs, workflow_runs v = Ret runs /\ runs <> []
                /\ forallb completed runs = true)
  \/ ((workflow_runs v = Ret [] \/ raises (workflow_runs v))
      /\ exists st, combined_status v = Ret st /\ 0 < total_count st
                    /\ (state st = "success" \/ state st = "failure"
                        \/ state st = "cancelled")).
Proof.
  destruct (workflow_runs v) as [[| r tl] | e] eqn:Ew.
  - rewrite (no_native_runs_fallback v) by (left; exact Ew). rewrite fallback_terminal.
    split; [intros H; right; split; [left; reflexivity | exact H] |].
    intros [(runs & [= <-] & Hne & _) | [_ H]]; [contradiction | exact H].
  - rewrite (native_runs_status v (r :: tl) Ew) by discriminate.
    rewrite native_status_terminal. split.
    + intros H. left. exists (r :: tl). split; [reflexivity |]. split; [discriminate | exact H].
    + intros [(runs & [= <-] & _ & H) | [[H | H] _]];
        [exact H | discriminate H | destruct H].
  - rewrite (no_native_runs_fallback v) by (right; rewrite Ew; exact I).
    rewrite fallback_terminal.
    split; [intros H; right; split; [right; exact I | exact H] |].
    intros [(runs & H & _) | [_ H]]; [discriminate H | exact H].
Qed.

Lemma forallb_Permutation {A : Type} (f : A -> bool) l l' :
  Permutation l l' -> forallb f l = forallb f l'.
Proof.
  induction 1 as [| x l l' _ IH | x y l | l l' l'' _ IH1 _ IH2]; cbn [forallb].
  - reflexivity.
  - rewrite IH. reflexivity.
  - destruct (f x), (f y); reflexivity.
  - rewrite IH1. exact IH2.
Qed.

Lemma existsb_Permutation {A : Type} (f : A -> bool) l l' :
  Permutation l l' -> existsb f l = existsb f l'.
Proof.
  induction 1 as [| x l l' _ IH | x y l | l l' l'' _ IH1 _ IH2]; cbn [existsb].
  - reflexivity.
  - rewrite IH. reflexivity.
  - destruct (f x), (f y); reflexivity.
  - rewrite IH1. exact IH2.
Qed.

(** X20: the order in which the platform lists the workflow runs of a
    commit has no influence on its status. *)
Theorem status_ignores_run_order runs runs' combined logs jobs logs' jobs' :
  Permutation runs runs' ->
  get_ci_status (mkView (Ret runs) combined logs jobs)
  = get_ci_status (mkView (Ret runs') combined logs' jobs').
Proof.
  intros Hp. destruct runs as [| r tl].
  - apply Permutation_nil in Hp as ->. reflexivity.
  - destruct runs' as [| r' tl'];
      [symmetry in Hp; apply Permutation_nil in Hp; discriminate |].
    rewrite (native_runs_status (mkView (Ret (r :: tl)) combined logs jobs)
               (r :: tl) eq_refl) by discriminate.
    rewrite (native_runs_status (mkView (Ret (r' :: tl')) combined logs' jobs')
               (r' :: tl') eq_refl) by discriminate.
    unfold native_status.
    rewrite (forallb_Permutation completed _ _ Hp),
      (existsb_Permutation concluded_failure _ _ Hp),
      (existsb_Permutation (conclusion_is "cancelled") _ _ Hp).
    reflexivity.
Qed.

Lemma status_ignores_run_order_witness :
  get_ci_status (mkView (Ret [mkRun "completed" (Some "cancelled");
                              mkRun "completed" (Some "timed_out")])
                   (Ret (mkCombined 0 "pending")) EmptyString [])
  = get_ci_status (mkView (Ret [mkRun "completed" (Some "timed_out");
                                mkRun "completed" (Some "cancelled")])
                     (Ret (mkCombined 0 "pending")) EmptyString []).
Proof. apply status_ignores_run_order. apply perm_swap. Defined.

(** *** Failures and their details *)

Lemma forallb_of_map {A B : Type} (f : A -> B) (p : B -> bool) l :
  forallb p (List.map f l) = forallb (fun x => p (f x)) l.
Proof. induction l as [| x l IH]; cbn; [reflexivity | rewrite IH; reflexivity]. Qed.

Lemma existsb_of_map {A B : Type} (f : A -> B) (p : B -> bool) l :
  existsb p (List.map f l) = existsb (fun x => p (f x)) l.
Proof. induction l as [| x l IH]; cbn; [reflexivity | rewrite IH; reflexivity]. Qed.

Lemma collect_failed_acc runs : forall acc,
  collect_failed runs acc = (acc ++ collect_failed runs [])%list.
Proof.
  induction runs as [| r tl IH]; intros acc; cbn [collect_failed].
  - rewrite app_nil_r. reflexivity.
  - destruct (failed (run_conclusion (run r))); [| apply IH].
    destruct (jobs r) as [js | e]; [| rewrite app_nil_r; reflexivity].
    rewrite IH. rewrite (IH ([] ++ _)%list). rewrite app_nil_l, app_assoc. reflexivity.
Qed.

(** X21: a commit can have the status failure and no failure details. When
    all runs are completed, one of them timed out and none concluded failure,
    [get_ci_status] says failure, [get_ci_failure_logs] finds no details and
    the list of failed jobs is empty. *)
Theorem failure_without_details runs combined logs names :
  forallb (fun r => completed (run r)) runs = true ->
  existsb (fun r => conclusion_is "timed_out" (run r)) runs = true ->
  existsb (fun r => failed (run_conclusion (run r))) runs = false ->
  get_ci_status (mkView (runs_of (Ret runs)) combined logs names) = value FAILURE
  /\ get_ci_failure_logs (Ret runs) = NoFailureDetails
  /\ _extract_failed_jobs (Ret runs) = [].
Proof.
  intros Hc Ht Hf. split; [| split].
  - destruct runs as [| r tl]; [discriminate Ht |].
    rewrite (native_runs_status (mkView (runs_of (Ret (r :: tl))) combined logs names)
               (List.map run (r :: tl)) eq_refl) by discriminate.
    unfold native_status. rewrite forallb_of_map, Hc. cbn [negb].
    assert (He : existsb concluded_failure (List.map run (r :: tl)) = true).
    { rewrite existsb_of_map. clear Hf. revert Hc Ht. generalize (r :: tl). intros l.
      induction l as [| x l IH]; cbn [forallb existsb]; [discriminate |].
      intros Hc Ht. apply andb_true_iff in Hc as [Hx Hl].
      unfold concluded_failure at 1. rewrite Hx.
      destruct (conclusion_is "timed_out" (run x)).
      - rewrite orb_true_r. reflexivity.
      - rewrite (IH Hl Ht). apply orb_true_r. }
    rewrite He. reflexivity.
  - cbn [get_ci_failure_logs].
    assert (Hn : List.find (fun r => failed (run_conclusion (run r))) runs = None).
    { clear Hc Ht. induction runs as [| x l IH]; [reflexivity |].
      cbn [existsb] in Hf. apply orb_false_iff in Hf as [Hx Hl].
      cbn [List.find]. rewrite Hx. exact (IH Hl). }
    rewrite Hn. reflexivity.
  - cbn [_extract_failed_jobs]. clear Hc Ht.
    induction runs as [| x l IH]; [reflexivity |].
    cbn [existsb] in Hf. apply orb_false_iff in Hf as [Hx Hl].
    cbn [collect_failed]. rewrite Hx. exact (IH Hl).
Qed.

Lemma failure_without_details_witness :
  get_ci_status (mkView (runs_of (Ret Scenarios.timed_out_runs))
                   (Ret (mkCombined 0 "pending")) EmptyString [])
  = value FAILURE
  /\ get_ci_failure_logs (Ret Scenarios.timed_out_runs) = NoFailureDetails
  /\ _extract_failed_jobs (Ret Scenarios.timed_out_runs) = [].
Proof. apply failure_without_details; reflexivity. Defined.

(** X22: the failure logs cover the first failed run only, the list of
    failed jobs all failed runs: when [get_ci_failure_logs] returns the logs
    of a workflow, the failed jobs it names are, with the name of the
    workflow before them, the first entries of the list of failed jobs. *)
Theorem logged_jobs_come_first listing workflow failed_jobs :
  get_ci_failure_logs listing = WorkflowLogs workflow failed_jobs ->
  exists more,
    _extract_failed_jobs listing
    = List.app (List.map (fun jf => workflow ++ "/" ++ jf.1) failed_jobs) more.
Proof.
  destruct listing as [runs | e]; [| discriminate].
  cbn [get_ci_failure_logs _extract_failed_jobs].
  induction runs as [| r tl IH]; cbn [List.find collect_failed]; [discriminate |].
  destruct (failed (run_conclusion (run r))); [| exact IH].
  destruct (jobs r) as [js | e]; [| discriminate].
  intros [= <- <-]. rewrite collect_failed_acc. rewrite app_nil_l.
  exists (collect_failed tl []). f_equal. rewrite List.map_map. reflexivity.
Qed.

Lemma logged_jobs_come_first_witness :
  get_ci_failure_logs (Ret Scenarios.two_failed_runs)
  = WorkflowLogs "lint" [("ruff", ["ruff check"])]
  /\ exists more,
       _extract_failed_jobs (Ret Scenarios.two_failed_runs)
       = List.app (List.map (fun jf => "lint" ++ "/" ++ jf.1) [("ruff", ["ruff check"])])
           more.
Proof.
  split; [reflexivity |].
  apply (logged_jobs_come_first (Ret Scenarios.two_failed_runs) "lint"
           [("ruff", ["ruff check"])]).
  reflexivity.
Defined.

End StatusProperties.


(** ** The order of the assigned issues *)

Section IssueProperties.

Import Issues.

Lemma ascii_compare_N a b :
  Ascii.compare a b = N.compare (N_of_ascii a) (N_of_ascii b).
Proof. reflexivity. Qed.

Lemma string_compare_refl s : String.compare s s = Eq.
Proof.
  induction s as [| a s IH]; [reflexivity |]. cbn [String.compare].
  rewrite ascii_compare_N, N.compare_refl. exact IH.
Qed.

(** "Not greater" on strings is transitive. *)
Lemma string_le_trans a : forall b c,
  String.compare a b <> Gt -> String.compare b c <> Gt -> String.compare a c <> Gt.
Proof.
  induction a as [| x a IH]; intros [| y b] [| z c]; cbn [String.compare];
    try congruence.
  rewrite !ascii_compare_N.
  destruct (N.compare_spec (N_of_ascii x) (N_of_ascii y)) as [Exy | Lxy | Gxy];
    destruct (N.compare_spec (N_of_ascii y) (N_of_ascii z)) as [Eyz | Lyz | Gyz];
    try congruence; intros H1 H2.
  - rewrite Exy, Eyz, N.compare_refl. exact (IH b c H1 H2).
  - rewrite Exy. apply N.compare_lt_iff in Lyz. rewrite Lyz. discriminate.
  - rewrite <- Eyz. apply N.compare_lt_iff in Lxy. rewrite Lxy. discriminate.
  - assert (H : (N_of_ascii x < N_of_ascii z)%N) by lia.
    apply N.compare_lt_iff in H. rewrite H. discriminate.
Qed.

Lemma key_compare_antisym a b : key_compare a b = CompOpp (key_compare b a).
Proof.
  unfold key_compare. rewrite (Z.compare_antisym (rank a) (rank b)).
  destruct (rank a ?= rank b); cbn [CompOpp]; [apply String.compare_antisym | |];
    reflexivity.
Qed.

Lemma key_compare_precede a b : key_compare a b <> Gt <-> may_precede a b.
Proof.
  unfold key_compare, may_precede.
  destruct (Z.compare_spec (rank a) (rank b)) as [E | L | G].
  - split; [intros H; right; split; assumption |].
    intros [H | [_ H]]; [lia | exact H].
  - split; [intros _; left; exact L | discriminate].
  - split; [congruence |]. intros [H | [H _]]; lia.
Qed.

Lemma may_precede_trans a b c : may_precede a b -> may_precede b c -> may_precede a c.
Proof.
  unfold may_precede. intros [H1 | [E1 H1]] [H2 | [E2 H2]]; try (left; lia).
  right. split; [lia |]. exact (string_le_trans _ _ _ H1 H2).
Qed.

Lemma insert_Permutation x l : Permutation (insert x l) (x :: l).
Proof.
  induction l as [| y l IH]; cbn [insert]; [reflexivity |].
  destruct (key_compare x y); try reflexivity.
  - rewrite IH. apply perm_swap.
  - rewrite IH. apply perm_swap.
Qed.

Lemma insert_sorted x l :
  StronglySorted may_precede l -> StronglySorted may_precede (insert x l).
Proof.
  induction 1 as [| y l Hs IH Hy]; cbn [insert].
  - constructor; constructor.
  - destruct (key_compare x y) eqn:E.
    + constructor; [exact IH |].
      apply (Permutation_Forall (Permutation_sym (insert_Permutation x l))).
      constructor; [| exact Hy]. apply key_compare_precede.
      rewrite key_compare_antisym, E. discriminate.
    + assert (Hxy : may_precede x y) by (apply key_compare_precede; congruence).
      constructor; [constructor; assumption |].
      constructor; [exact Hxy |].
      eapply List.Forall_impl; [| exact Hy]. intros z Hz.
      exact (may_precede_trans _ _ _ Hxy Hz).
    + constructor; [exact IH |].
      apply (Permutation_Forall (Permutation_sym (insert_Permutation x l))).
      constructor; [| exact Hy]. apply key_compare_precede.
      rewrite key_compare_antisym, E. discriminate.
Qed.

Lemma sort_spec l :
  Permutation (sort l) l /\ StronglySorted may_precede (sort l).
Proof.
  unfold sort.
  assert (H : forall acc, StronglySorted may_precede acc ->
               Permutation (fold_left (fun acc x => insert x acc) l acc) (acc ++ l)
               /\ StronglySorted may_precede
                    (fold_left (fun acc x => insert x acc) l acc)).
  { induction l as [| x l IH]; intros acc Hacc; cbn [fold_left].
    - rewrite app_nil_r. split; [reflexivity | exact Hacc].
    - destruct (IH (insert x acc) (insert_sorted x acc Hacc)) as [Hp Hs].
      split; [| exact Hs]. rewrite Hp, insert_Permutation.
      apply Permutation_middle. }
  apply (H [] (SSorted_nil _)).
Qed.

(** X23: the report of [get_my_assigned_issues] lists the open issues of the
    listing that are no pull requests, each once; an issue with one of the
    labels critical, urgent, P0, P1 stands before every issue without, and
    among issues of the same priority none stands before one that was created
    earlier. *)
Theorem assigned_issues_order current_user repo_name api_issues user issues :
  get_my_assigned_issues current_user repo_name (Ret api_issues)
  = IssuesAssigned user issues ->
  Permutation issues (collect api_issues)
  /\ StronglySorted may_precede issues
  /\ (forall before x after,
        issues = (before ++ x :: after)%list ->
        priority x = "high" ->
        Forall (fun y => priority y = "high") before).
Proof.
  unfold get_my_assigned_issues.
  destruct (collect api_issues) as [| i l] eqn:Ec; [discriminate |].
  intros [= _ <-]. destruct (sort_spec (i :: l)) as [Hp Hs].
  split; [exact Hp |]. split; [exact Hs |].
  intros before x after E Hx. rewrite E in Hs. clear E Hp.
  induction before as [| y before IH]; [constructor |].
  cbn [app] in Hs. apply StronglySorted_inv in Hs as [Hs Hy].
  constructor; [| exact (IH Hs)].
  rewrite List.Forall_forall in Hy. specialize (Hy x ltac:(apply in_elt)).
  unfold may_precede, rank in Hy. rewrite Hx in Hy. cbn [String.eqb] in Hy.
  destruct (String.eqb (priority y) "high") eqn:Ey.
  - apply String.eqb_eq. exact Ey.
  - destruct Hy as [Hy | [Hy _]]; cbn in Hy; lia.
Qed.

Lemma assigned_issues_order_witness :
  exists issues,
    get_my_assigned_issues "dev" "acme/widgets" (Ret Scenarios.issue_listing)
    = IssuesAssigned "dev" issues
    /\ List.map number issues = [7; 3; 5]
    /\ Permutation issues (collect Scenarios.issue_listing)
    /\ StronglySorted may_precede issues.
Proof.
  eexists. split; [vm_compute; reflexivity |]. split; [reflexivity |].
  refine (let H := assigned_issues_order "dev" "acme/widgets" Scenarios.issue_listing
                     "dev" _ _ in conj (proj1 H) (proj1 (proj2 H))).
  vm_compute. reflexivity.
Defined.

End IssueProperties.


(** ** Environment templates *)

Section EnvProperties.

Import Github Gateway Env.

Lemma dict_set_elem k v d : forall k0 v0,
  NoDup d.*1 ->
  ((k0, v0) ∈ dict_set k v d <-> (k0 = k /\ v0 = v) \/ (k0 <> k /\ (k0, v0) ∈ d)).
Proof.
  induction d as [| [k' v'] tl IH]; intros k0 v0 Hnd; cbn [dict_set].
  - rewrite list_elem_of_singleton. split.
    + intros [= -> ->]. left. auto.
    + intros [[-> ->] | [_ H]]; [reflexivity | by apply elem_of_nil in H].
  - rewrite fmap_cons in Hnd. cbn [fst] in Hnd. apply NoDup_cons in Hnd as [Hk' Hnd].
    destruct (String.eqb k' k) eqn:E.
    + apply String.eqb_eq in E as ->. rewrite !elem_of_cons. split.
      * intros [[= -> ->] | H]; [left; auto |]. right. split; [| right; exact H].
        intros ->. apply Hk'. apply list_elem_of_fmap. exists (k, v0). auto.
      * intros [[-> ->] | [Hne [[= -> ->] | H]]]; [left; reflexivity | contradiction |].
        right. exact H.
    + apply String.eqb_neq in E. rewrite !elem_of_cons, (IH k0 v0 Hnd). split.
      * intros [[= -> ->] | [H | [Hne H]]]; [right; split; [exact E | left; reflexivity] | left; exact H |].
        right. split; [exact Hne | right; exact H].
      * intros [H | [Hne [[= -> ->] | H]]]; [right; left; exact H | left; reflexivity |].
        right. right. split; assumption.
Qed.

Lemma dict_set_keys k v d k0 : k0 ∈ (dict_set k v d).*1 <-> k0 = k \/ k0 ∈ d.*1.
Proof.
  induction d as [| [k' v'] tl IH]; cbn [dict_set].
  - cbn. rewrite list_elem_of_singleton, elem_of_nil. tauto.
  - destruct (String.eqb k' k) eqn:E.
    + apply String.eqb_eq in E as ->. rewrite !fmap_cons, !elem_of_cons. cbn [fst]. tauto.
    + rewrite !fmap_cons, !elem_of_cons, IH. cbn [fst]. tauto.
Qed.

Lemma dict_set_NoDup k v d : NoDup d.*1 -> NoDup (dict_set k v d).*1.
Proof.
  induction d as [| [k' v'] tl IH]; cbn [dict_set]; intros Hnd.
  - cbn. apply NoDup_singleton.
  - rewrite fmap_cons in Hnd. cbn [fst] in Hnd. apply NoDup_cons in Hnd as [Hk' Hnd].
    destruct (String.eqb k' k) eqn:E.
    + apply String.eqb_eq in E as ->. rewrite fmap_cons. cbn [fst].
      apply NoDup_cons. split; assumption.
    + apply String.eqb_neq in E. rewrite fmap_cons. cbn [fst].
      apply NoDup_cons. split; [| exact (IH Hnd)].
      rewrite dict_set_keys. intros [H | H]; [exact (E H) | exact (Hk' H)].
Qed.

Lemma add_var_sorted_out st seen config var :
  sorted_out st seen config -> sorted_out st (seen ++ [var]) (add_var st config var).
Proof.
  intros (Hs & Hv & Hm & Ns & Nv). unfold add_var, sorted_out.
  destruct (classify st var) as [name | value |] eqn:Ec;
    cbn [from_secrets from_variables missing];
    (split; [| split; [| split; [| split]]]);
    try (apply dict_set_NoDup; assumption); try assumption;
    intros var0; try intros x;
    rewrite ?dict_set_elem by assumption;
    rewrite ?elem_of_app, ?list_elem_of_singleton, ?Hs, ?Hv, ?Hm;
    destruct (decide (var0 = var)) as [-> | Hne];
    intuition (subst; congruence).
Qed.

Lemma is_secret_elem st name : is_secret st name = true -> name ∈ secrets_of st.
Proof.
  unfold is_secret. rewrite existsb_exists. intros (x & Hin & E).
  apply String.eqb_eq in E as ->. apply list_elem_of_In. exact Hin.
Qed.

Lemma build_config_sorted_out st env_vars : sorted_out st env_vars (build_config st env_vars).
Proof.
  unfold build_config.
  assert (H : forall seen config, sorted_out st seen config ->
               sorted_out st (seen ++ env_vars) (fold_left (add_var st) env_vars config)).
  { induction env_vars as [| var tl IH]; intros seen config Hc; cbn [fold_left].
    - rewrite app_nil_r. exact Hc.
    - replace (seen ++ var :: tl)%list with ((seen ++ [var]) ++ tl)%list
        by (rewrite <- app_assoc; reflexivity).
      apply IH. apply add_var_sorted_out. exact Hc. }
  apply (H [] (mkEnvConfig [] [] [])).
  unfold sorted_out. cbn [from_secrets from_variables missing].
  split; [| split; [| split; [| split]]]; try (cbn; apply NoDup_nil_2);
    intros; rewrite !elem_of_nil; tauto.
Qed.

(** X24: [build_env_from_github] sorts every variable of the template into
    exactly one of its three parts: a secret of the same name, else a secret
    of the upper-cased name, else a variable of the same name, else a variable
    of the upper-cased name, else missing. A secret named for injection is a
    secret of the repository, and no variable is listed twice in a part that
    is a dict. *)
Theorem env_vars_are_sorted_out st env_vars :
  sorted_out st env_vars (build_config st env_vars)
  /\ (forall var name,
        (var, name) ∈ from_secrets (build_config st env_vars) ->
        name ∈ secrets_of st /\ (name = var \/ name = upper var))
  /\ (forall var,
        var ∈ missing (build_config st env_vars) ->
        (var ∉ secrets_of st) /\ (variables_of st !! var) = None).
Proof.
  pose proof (build_config_sorted_out st env_vars) as Hso.
  split; [exact Hso |]. destruct Hso as (Hs & _ & Hm & _). split.
  - intros var name H. apply Hs in H as [_ Hc]. unfold classify in Hc.
    destruct (is_secret st var) eqn:E1.
    + injection Hc as <-. split; [apply is_secret_elem; exact E1 | left; reflexivity].
    + destruct (is_secret st (upper var)) eqn:E2.
      * injection Hc as <-. split; [apply is_secret_elem; exact E2 | right; reflexivity].
      * destruct (variables_of st !! var); [discriminate |].
        destruct (variables_of st !! upper var); discriminate.
  - intros var H. apply Hm in H as [_ Hc]. unfold classify in Hc.
    destruct (is_secret st var) eqn:E1; [discriminate |].
    destruct (is_secret st (upper var)); [discriminate |].
    destruct (variables_of st !! var) eqn:Ev; [discriminate |].
    split; [| reflexivity]. intros Hin. unfold is_secret in E1.
    apply not_true_iff_false in E1. apply E1. apply existsb_exists.
    exists var. split; [apply list_elem_of_In; exact Hin | apply String.eqb_refl].
Qed.

Lemma find_template_first before : forall template_file after ref repo text
    (t : gmap string string),
  branches repo !! ref = Some t ->
  (forall g, g ∈ before -> t !! g = None /\ is_dir t g = false) ->
  t !! template_file = Some text ->
  (find_template (before ++ template_file :: after) ref repo).1
  = Ret (Some (template_file, text)).
Proof.
  induction before as [| g before IH]; intros f after ref repo text t Hb Habs Hf.
  - cbn [app find_template]. unfold get_contents. rewrite Hb, Hf. reflexivity.
  - destruct (Habs g ltac:(left)) as [Hg Hd].
    cbn [app find_template]. unfold get_contents. rewrite Hb, Hg, Hd.
    apply (IH f after ref _ text t); [rewrite branches_log_op; exact Hb | | exact Hf].
    intros g' Hg'. apply Habs. right. exact Hg'.
Qed.

(** X25: an empty template hides the templates after it. When the first
    template name that is a file on the ref is an empty file,
    [get_env_template] answers that no template was found, whatever the
    later names hold. *)
Theorem empty_template_hides_later_ones repo_name ref st repo
    (t : gmap string string) before template_file after :
  template_files = (before ++ template_file :: after)%list ->
  branches repo !! ref = Some t ->
  (forall g, g ∈ before -> t !! g = None /\ is_dir t g = false) ->
  t !! template_file = Some EmptyString ->
  (get_env_template repo_name ref st repo).1 = NoTemplate.
Proof.
  intros Hfiles Hb Habs Hf. unfold get_env_template. rewrite Hfiles.
  pose proof (find_template_first before template_file after ref repo EmptyString t
                Hb Habs Hf) as H.
  destruct (find_template (before ++ template_file :: after) ref repo) as [r repo'].
  cbn [fst] in H. subst r. reflexivity.
Qed.

Lemma empty_template_hides_later_ones_witness :
  (get_env_template "acme/widgets" "main" (mkSettings (Ret ["API_KEY"]) (Ret []))
     Scenarios.env_repository).1 = NoTemplate
  /\ (get_file_content "acme/widgets" ".env.template" "main" Scenarios.env_repository).1
     <> FileText EmptyString.
Proof.
  split.
  - apply (empty_template_hides_later_ones "acme/widgets" "main" _
             Scenarios.env_repository
             (<[".env.example" := EmptyString]>
                (<[".env.template" := "DB_URL=postgres://localhost/app
API_KEY="]> ∅))
             [] ".env.example"
             [".env.template"; ".env.sample"; "env.example"; ".env.test.example"]).
    + reflexivity.
    + apply lookup_insert_eq.
    + intros g Hg. by apply elem_of_nil in Hg.
    + apply lookup_insert_eq.
  - vm_compute. discriminate.
Defined.

End EnvProperties.
